(** * Credit-intelligence backend: scorer, cache and refresh orchestration

    A shallow embedding of
      - [backend/app/models/credit_scorer.py]   (class [CreditScorer]),
      - [backend/app/services/cache_service.py] (class [Cache]),
      - [backend/app/services/data_ingestion.py] (class [DataIngestion]),
      - [backend/app/services/processing.py]    (class [ProcessingService]),
      - [backend/app/api/routes.py]             (the HTTP handlers),
    followed by the properties of the scoring pipeline.

    Conventions of the embedding.
      - A Python [float] is represented by the rational it denotes.
        Comparisons are exact; where the scorer multiplies or rounds
        floats, the result is rounded to the nearest binary64 number
        ([Py.fmul], [Py.round_float]).  NaN and infinities are not
        represented.
      - A Python [int] is a [Z].
      - A Python [dict] with string keys is a [gmap string _]; where the
        iteration order of a dict is observable it is an association list.
      - [try / except Exception] is an [outcome]: [Returns v] or [Raises].
      - [datetime.now()] is a reading of a clock, passed as an argument.
      - An [async def] is a function from the state at its start to the
        state at its end; the points at which [process_all_scores] really
        suspends are made explicit in [ProcessingService.pas_point]. *)

From Stdlib Require Import ZArith QArith Qabs Lia Lqa DecimalString.
From stdpp Require Import base strings list gmap sorting.

Local Open Scope Z_scope.

(** ** Exceptions *)

Inductive outcome (A : Type) : Type :=
| Returns (a : A)
| Raises.
Arguments Returns {A} a.
Arguments Raises {A}.

Definition obind {A B : Type} (m : outcome A) (k : A -> outcome B) : outcome B :=
  match m with
  | Returns a => k a
  | Raises => Raises
  end.

Notation "'let!' x ':=' m 'in' k" := (obind m (fun x => k))
  (at level 10, x name, m at level 100, k at level 200, only parsing).

(** ** Python values *)

Module Py.

(** Numbers: [int] and [float]. *)
Inductive num : Type :=
| Int (z : Z)
| Float (q : Q).

Definition val (n : num) : Q :=
  match n with
  | Int z => inject_Z z
  | Float q => q
  end.

(** The values that occur in the signal records: [None], numbers,
    strings and the list of headlines. *)
Inductive value : Type :=
| None_
| Num (n : num)
| Str (s : string)
| StrList (l : list string).

Abbreviation dict := (gmap string value).

(** [d.get(k, dflt)] *)
Definition get (d : dict) (k : string) (dflt : value) : value :=
  default dflt (d !! k).

Definition Qltb (a b : Q) : bool :=
  match Qcompare a b with
  | Lt => true
  | _ => false
  end.

(** [a < b] where [b] is a numeric literal: a [TypeError] unless [a]
    is a number. *)
Definition lt (a : value) (b : num) : outcome bool :=
  match a with
  | Num n => Returns (Qltb (val n) (val b))
  | _ => Raises
  end.

(** [a > b] where [b] is a numeric literal. *)
Definition gt (a : value) (b : num) : outcome bool :=
  match a with
  | Num n => Returns (Qltb (val b) (val n))
  | _ => Raises
  end.

(** [min(a, b)] with [b] a literal: [b] when [b < a], otherwise [a]. *)
Definition min (a : value) (b : num) : outcome value :=
  let! c := gt a b in Returns (if c then Num b else a).

(** [max(a, b)] with [b] a literal: [b] when [b > a], otherwise [a]. *)
Definition max (a : value) (b : num) : outcome value :=
  let! c := lt a b in Returns (if c then Num b else a).

(** Round half to even of the rational [n / d] to an integer. *)
Definition rint (q : Q) : Z :=
  let n := Qnum q in
  let d := Z.pos (Qden q) in
  let f := n / d in
  let r := n mod d in
  match Z.compare (2 * r) d with
  | Lt => f
  | Gt => f + 1
  | Eq => if Z.even f then f else f + 1
  end.

(** [2 ^ k] for an integer [k]. *)
Definition pow2 (k : Z) : Q :=
  match k with
  | Z0 => 1
  | Zpos p => inject_Z (Z.pos (2 ^ p))
  | Zneg p => Qmake 1 (2 ^ p)
  end.

(** The binade of a positive rational [a]: the [e] with
    [2 ^ e <= a < 2 ^ (e + 1)]. *)
Definition binade (a : Q) : Z :=
  let k := Z.log2 (Qnum a) - Z.log2 (Z.pos (Qden a)) in
  if Qle_bool (pow2 k) a then k else k - 1.

(** The binary64 number nearest to [q], ties to even: 53 significant
    bits, fewer below the exponent -1022. *)
Definition to_float (q : Q) : Q :=
  match Qnum q with
  | Z0 => 0
  | _ =>
      let e := Z.max (binade (Qabs q)) (-1022) - 52 in
      Qred (Qmult (inject_Z (rint (Qdiv q (pow2 e)))) (pow2 e))
  end.

(** [x * y] on floats. *)
Definition fmul (x y : Q) : Q := to_float (Qmult x y).

(** [round(x, ndigits)] on a numpy float: multiply by [10 ^ ndigits],
    round to the nearest integer (ties to even), divide; the product and
    the quotient are floats. *)
Definition round_float (x : Q) (ndigits : nat) : Q :=
  let p := inject_Z (Z.pos (Pos.pow 10 (Pos.of_nat ndigits))) in
  match ndigits with
  | O => inject_Z (rint x)
  | S _ => to_float (Qdiv (inject_Z (rint (fmul x p))) p)
  end.

(** [round(x, ndigits)]: an [int] is returned unchanged. *)
Definition round (x : num) (ndigits : nat) : num :=
  match x with
  | Int z => Int z
  | Float q => Float (round_float q ndigits)
  end.

(** [str(z)] for an [int]. *)
Definition str_of_int (z : Z) : string :=
  NilZero.string_of_int (Z.to_int z).

End Py.

(** A clock reading, as returned by [datetime.now()]. *)
Abbreviation Time := Z.

(** ** The scorer ([credit_scorer.py]) *)

(** One entity's score, the dict built at the end of [calculate_score]
    and of [_fallback_score]. *)
Record ScoreResult : Type := {
  sr_ticker : string;
  sr_score : Py.num;
  sr_risk_level : string;
  sr_color : string;
  sr_contributions : gmap string Q;
  sr_explanation : string;
  sr_timestamp : Time
}.

(** One entry of the feature array: the two logarithms stay symbolic,
    the other entries are the raw values of the records. *)
Inductive feature : Type :=
| FLog (x : Py.value)
| FRaw (v : Py.value).

(** The attributes of a [CreditScorer] instance, and what the libraries
    it calls do.  The fitted scaler and the fitted random forest are
    opaque to this development: they are functions that return or raise.
    So is numpy where its behaviour depends on the types of the values
    and on its version: [log_raises] says whether [np.log] raises on its
    argument, [array_raises] whether [np.array] raises on the list of
    entries.  [_generate_explanation] catches its own exceptions and
    always produces a string. *)
Record CreditScorer : Type := {
  is_trained : bool;
  scaler_transform : list feature -> outcome (list Q);
  model_predict : list Q -> outcome Q;
  feature_importances_ : list Q;
  _generate_explanation :
    string -> Py.num -> gmap string Q -> Py.dict -> Py.dict -> string;
  log_raises : Py.value -> bool;
  array_raises : list feature -> bool
}.

Definition feature_names : list string :=
  [ "market_cap_log"; "debt_to_equity"; "current_ratio"; "roe";
    "price_change_30d"; "volatility"; "volume_avg_log";
    "sentiment_score"; "news_count"; "vix"; "treasury_10y" ]%string.

Definition pint (z : Z) : Py.value := Py.Num (Py.Int z).
Definition pfloat (q : Q) : Py.value := Py.Num (Py.Float q).

(** [np.log(x)] *)
Definition np_log (self : CreditScorer) (x : Py.value) : outcome feature :=
  if log_raises self x then Raises else Returns (FLog x).

(** [np.array([...]).reshape(1, -1)] *)
Definition np_array (self : CreditScorer) (entries : list feature)
  : outcome (list feature) :=
  if array_raises self entries then Raises else Returns entries.

(** The [try] block of [_extract_features]. *)
Definition extract_features_try (self : CreditScorer)
    (financial_data news_data macro_data : Py.dict) : outcome (list feature) :=
  let market_cap := Py.get financial_data "market_cap" (pfloat 1e9) in
  let! m := Py.max market_cap (Py.Float 1e6) in
  let! market_cap_log := np_log self m in
  let! debt_to_equity := Py.min (Py.get financial_data "debt_to_equity" (pint 1)) (Py.Int 10) in
  let! current_ratio := Py.max (Py.get financial_data "current_ratio" (pint 1)) (Py.Float 0.1) in
  let roe := Py.get financial_data "roe" (pfloat 0.1) in
  let price_change_30d := Py.get financial_data "price_change_30d" (pint 0) in
  let volatility := Py.get financial_data "volatility" (pint 1) in
  let volume_avg := Py.get financial_data "volume_avg" (pfloat 1e6) in
  let! v := Py.max volume_avg (Py.Int 1000) in
  let! volume_avg_log := np_log self v in
  let sentiment_score := Py.get news_data "sentiment_score" (pfloat 0.5) in
  let news_count := Py.get news_data "news_count" (pint 0) in
  let vix := Py.get macro_data "vix" (pint 20) in
  let treasury_10y := Py.get macro_data "treasury_10y" (pint 4) in
  np_array self
    [ market_cap_log; FRaw debt_to_equity; FRaw current_ratio; FRaw roe;
      FRaw price_change_30d; FRaw volatility; volume_avg_log;
      FRaw sentiment_score; FRaw news_count; FRaw vix; FRaw treasury_10y ].

(** [_extract_features]: on any exception, a row of zeros. *)
Definition _extract_features (self : CreditScorer)
    (financial_data news_data macro_data : Py.dict) : list feature :=
  match extract_features_try self financial_data news_data macro_data with
  | Returns features => features
  | Raises => replicate (length feature_names) (FRaw (pfloat 0))
  end.

(** The threshold ladder shared by both scoring paths:
    [if score >= 750 ... elif score >= 500 ... else ...]. *)
Definition risk_of (score : Py.num) : string * string :=
  if Qle_bool 750 (Py.val score) then ("Low Risk", "green")%string
  else if Qle_bool 500 (Py.val score) then ("Medium Risk", "yellow")%string
  else ("High Risk", "red")%string.

(** The [try] block of [_fallback_score] up to the clamp. *)
Definition fallback_try (financial_data news_data : Py.dict) : outcome Z :=
  let base_score := 500 in
  let debt_to_equity := Py.get financial_data "debt_to_equity" (pint 1) in
  let! base_score :=
    (let! lo := Py.lt debt_to_equity (Py.Float 0.5) in
     if lo then Returns (base_score + 100)
     else let! hi := Py.gt debt_to_equity (Py.Int 2) in
          Returns (if hi then base_score - 150 else base_score))
  in
  let roe := Py.get financial_data "roe" (pint 0) in
  let! base_score :=
    (let! hi := Py.gt roe (Py.Float 0.15) in
     if hi then Returns (base_score + 100)
     else let! lo := Py.lt roe (Py.Int 0) in
          Returns (if lo then base_score - 200 else base_score))
  in
  let sentiment := Py.get news_data "sentiment_score" (pfloat 0.5) in
  let! base_score :=
    (let! hi := Py.gt sentiment (Py.Float 0.6) in
     if hi then Returns (base_score + 50)
     else let! lo := Py.lt sentiment (Py.Float 0.4) in
          Returns (if lo then base_score - 50 else base_score))
  in
  Returns (Z.max 0 (Z.min 1000 base_score)).

Definition _fallback_score (financial_data news_data : Py.dict)
    (ticker : string) (now : Time) : ScoreResult :=
  match fallback_try financial_data news_data with
  | Returns score =>
      {| sr_ticker := ticker;
         sr_score := Py.Int score;
         sr_risk_level := fst (risk_of (Py.Int score));
         sr_color := snd (risk_of (Py.Int score));
         sr_contributions := {[ "fallback"%string := 1%Q ]};
         sr_explanation :=
           ("Fallback scoring used. Score: " +:+ Py.str_of_int score +:+ "/1000")%string;
         sr_timestamp := now |}
  | Raises =>
      {| sr_ticker := ticker;
         sr_score := Py.Int 500;
         sr_risk_level := "Medium Risk";
         sr_color := "yellow";
         sr_contributions := ∅;
         sr_explanation := "Error in scoring";
         sr_timestamp := now |}
  end.

(** [max(0, min(1000, score))] on the model's prediction: the builtins
    return one of their arguments, so the literals stay [int]. *)
Definition clamp_score (score : Q) : Py.num :=
  let m := if Py.Qltb score 1000 then Py.Float score else Py.Int 1000 in
  if Py.Qltb 0 (Py.val m) then m else Py.Int 0.

(** [xs[i]], raising [IndexError] out of range. *)
Definition index {A : Type} (xs : list A) (i : nat) : outcome A :=
  match xs !! i with
  | Some x => Returns x
  | None => Raises
  end.

(** The loop over [enumerate(self.feature_names)]. *)
Fixpoint contributions_from (i : nat) (names : list string)
    (features_scaled feature_importance : list Q)
    (contributions : gmap string Q) : outcome (gmap string Q) :=
  match names with
  | [] => Returns contributions
  | feature_name :: rest =>
      let! x := index features_scaled i in
      let! w := index feature_importance i in
      let contribution := Py.fmul (Py.fmul x w) 100 in
      contributions_from (S i) rest features_scaled feature_importance
        (<[ feature_name := Py.round_float contribution 2 ]> contributions)
  end.

(** The [try] block of [calculate_score]; [score_model] is the part
    after the [is_trained] test.  The pair keeps, next to the returned
    dict, the clamped score from which the tier was derived. *)
Definition score_model (self : CreditScorer) (ticker : string)
    (financial_data news_data macro_data : Py.dict) (now : Time)
  : outcome (Py.num * ScoreResult) :=
  let features := _extract_features self financial_data news_data macro_data in
  let! features_scaled := scaler_transform self features in
  let! raw := model_predict self features_scaled in
  let score := clamp_score raw in
  let feature_importance := feature_importances_ self in
  let! contributions :=
    contributions_from 0 feature_names features_scaled feature_importance ∅
  in
  let '(risk_level, color) := risk_of score in
  let explanation :=
    _generate_explanation self ticker score contributions financial_data news_data in
  Returns (score,
    {| sr_ticker := ticker;
       sr_score := Py.round score 1;
       sr_risk_level := risk_level;
       sr_color := color;
       sr_contributions := contributions;
       sr_explanation := explanation;
       sr_timestamp := now |}).

Definition calculate_score_try (self : CreditScorer) (ticker : string)
    (financial_data news_data macro_data : Py.dict) (now : Time)
  : outcome ScoreResult :=
  if negb (is_trained self) then
    Returns (_fallback_score financial_data news_data "UNKNOWN" now)
  else
    let! r := score_model self ticker financial_data news_data macro_data now in
    Returns (snd r).

Definition calculate_score (self : CreditScorer) (ticker : string)
    (financial_data news_data macro_data : Py.dict) (now : Time) : ScoreResult :=
  match calculate_score_try self ticker financial_data news_data macro_data now with
  | Returns result => result
  | Raises => _fallback_score financial_data news_data ticker now
  end.

(** ** Insertion-ordered dicts

    [scores] and the [financial] record of the ingested data are
    iterated by the orchestrator, so their insertion order is kept. *)

Definition odict (V : Type) : Type := list (string * V).

(** [d[k] = v]: overwrite in place, or append a new key. *)
Fixpoint oset {V : Type} (k : string) (v : V) (d : odict V) : odict V :=
  match d with
  | [] => [(k, v)]
  | (k', v') :: rest =>
      if String.eqb k' k then (k, v) :: rest else (k', v') :: oset k v rest
  end.

Fixpoint oget {V : Type} (k : string) (d : odict V) : option V :=
  match d with
  | [] => None
  | (k', v') :: rest => if String.eqb k' k then Some v' else oget k rest
  end.

Definition okeys {V : Type} (d : odict V) : list string := d.*1.

(** [l[-n:]] *)
Definition last_n {A : Type} (n : nat) (l : list A) : list A :=
  drop (length l - n) l.

(** ** Documents kept in the cache *)

(** The dict produced by [ingest_all_data]. *)
Record IngestedData : Type := {
  financial : odict Py.dict;
  news : gmap string Py.dict;
  macro : Py.dict;
  timestamp : Time
}.

(** The dict produced at the end of a refresh. *)
Record ProcessedData : Type := {
  scores : odict ScoreResult;
  data_timestamp : option Time;
  processing_timestamp : Time;
  ticker_count : nat
}.

(** One point of an entity's history. *)
Record HistoricalPoint : Type := {
  hp_timestamp : Time;
  hp_score : Py.num;
  hp_risk_level : string
}.

(** A JSON document as this program writes and reads them: the empty
    dict, the ingested data, a processed batch, a history list, or a
    signal record as the fetchers of the ingestion cache them. *)
Inductive document : Type :=
| DEmpty
| DData (d : IngestedData)
| DBatch (b : ProcessedData)
| DList (h : list HistoricalPoint)
| DRecord (r : Py.dict).

(** Python truthiness of a document; the two record dicts always carry
    their four keys. *)
Definition truthy (d : document) : bool :=
  match d with
  | DEmpty => false
  | DData _ => true
  | DBatch _ => true
  | DList h => match h with [] => false | _ :: _ => true end
  | DRecord r => negb (bool_decide (r = ∅))
  end.

(** ** The environment of one run

    What the program cannot decide: what the signal sources answer,
    whether a redis command goes through, and how the executor treats a
    scoring task.  Every function below is parametric in it. *)

(** What [asyncio.gather(..., return_exceptions=True)] gives back inside
    [ingest_all_data]: it raises, or it returns one entry per task, an
    entry being a dict or an exception object.

    The same type describes the signal sources of a run
    ([signal_source]): [GatherRaises] when the [gather] of that run
    raises, otherwise one answer per fetch, in the order of the tasks
    (for the [i]-th tracked entity the financial fetch at [2i] and the
    news fetch at [2i+1], the macro record last).  An answer is the dict
    that the [try] block of the fetcher builds when the cache has no
    record, or [Raises] when that block does not get there: the request
    failed, or no headline was found. *)
Inductive gather_result : Type :=
| GatherRaises
| Gathered (results : list (outcome Py.dict)).

(** How a scoring task ends: the executor ran [calculate_score]; the
    wrapper's [try] caught an exception and returned the empty dict; or
    the task itself ended with an exception, which [gather] collects. *)
Inductive executor_outcome : Type :=
| Ran
| Caught
| Aborted.

Record World : Type := {
  signal_source : nat -> gather_result;
  redis_ok : nat -> bool;
  executor : nat -> string -> executor_outcome;
  gather_ok : nat -> bool
}.

(** The mutable state: the attributes of the [ProcessingService]
    singleton, the contents of redis (key to time-to-live and document),
    the wall clock, and three counters that only record how often redis,
    the ingestion and the scorer have been used. *)
Record State : Type := {
  processing : bool;
  last_update : option Time;
  redis : gmap string (Z * document);
  clock : Time;
  redis_ops : nat;
  ingest_runs : nat;
  scoring_runs : nat
}.

Definition set_processing (b : bool) (st : State) : State :=
  {| processing := b; last_update := last_update st; redis := redis st;
     clock := clock st; redis_ops := redis_ops st;
     ingest_runs := ingest_runs st; scoring_runs := scoring_runs st |}.

Definition set_last_update (t : Time) (st : State) : State :=
  {| processing := processing st; last_update := Some t; redis := redis st;
     clock := clock st; redis_ops := redis_ops st;
     ingest_runs := ingest_runs st; scoring_runs := scoring_runs st |}.

Definition set_redis (r : gmap string (Z * document)) (st : State) : State :=
  {| processing := processing st; last_update := last_update st; redis := r;
     clock := clock st; redis_ops := S (redis_ops st);
     ingest_runs := ingest_runs st; scoring_runs := scoring_runs st |}.

Definition count_ingest (st : State) : State :=
  {| processing := processing st; last_update := last_update st; redis := redis st;
     clock := clock st; redis_ops := redis_ops st;
     ingest_runs := S (ingest_runs st); scoring_runs := scoring_runs st |}.

Definition count_scoring (n : nat) (st : State) : State :=
  {| processing := processing st; last_update := last_update st; redis := redis st;
     clock := clock st; redis_ops := redis_ops st;
     ingest_runs := ingest_runs st; scoring_runs := (n + scoring_runs st)%nat |}.

(** Time passes: the clock advances by [d] seconds and every key whose
    time-to-live is used up disappears. *)
Definition elapse (d : Z) (st : State) : State :=
  {| processing := processing st; last_update := last_update st;
     redis := (λ e, (e.1 - d, e.2)) <$> filter (λ kv, d <? (kv.2).1) (redis st);
     clock := clock st + d; redis_ops := redis_ops st;
     ingest_runs := ingest_runs st; scoring_runs := scoring_runs st |}.

(** The state of a freshly started process on an empty redis. *)
Definition initial (t0 : Time) : State :=
  {| processing := false; last_update := None; redis := ∅; clock := t0;
     redis_ops := 0; ingest_runs := 0; scoring_runs := 0 |}.

(** ** The cache ([cache_service.py]) *)

Module Cache.
Section Cache.
Context (w : World).

(** [self.redis_client.setex(key, ttl, value)]: raises when redis is
    unreachable, returns [True] otherwise. *)
Definition setex (key : string) (ttl : Z) (value : document) (st : State)
  : outcome bool * State :=
  if redis_ok w (redis_ops st)
  then (Returns true, set_redis (<[ key := (ttl, value) ]> (redis st)) st)
  else (Raises, set_redis (redis st) st).

(** [self.redis_client.get(key)] *)
Definition client_get (key : string) (st : State)
  : outcome (option document) * State :=
  if redis_ok w (redis_ops st)
  then (Returns (snd <$> redis st !! key), set_redis (redis st) st)
  else (Raises, set_redis (redis st) st).

(** [set_json]: the exception of the client is logged and turned into
    [False]. *)
Definition set_json (key : string) (value : document) (ttl : Z) (st : State)
  : bool * State :=
  match setex ("json:" +:+ key) ttl value st with
  | (Returns b, st') => (b, st')
  | (Raises, st') => (false, st')
  end.

(** [get_json]: [None] when the key is absent and when the client
    raised. *)
Definition get_json (key : string) (st : State) : option document * State :=
  match client_get ("json:" +:+ key) st with
  | (Returns data, st') => (data, st')
  | (Raises, st') => (None, st')
  end.

(** [self.redis_client.delete(key)]: the number of keys removed. *)
Definition client_delete (key : string) (st : State) : outcome Z * State :=
  if redis_ok w (redis_ops st)
  then (Returns (match redis st !! key with Some _ => 1 | None => 0 end),
        set_redis (base.delete key (redis st)) st)
  else (Raises, set_redis (redis st) st).

(** [delete]: whether a key was removed; [False] when the client
    raised.  The key is used as it is, without the prefix of the JSON
    methods. *)
Definition delete (key : string) (st : State) : bool * State :=
  match client_delete key st with
  | (Returns removed, st') => (0 <? removed, st')
  | (Raises, st') => (false, st')
  end.

End Cache.
End Cache.

(** [x or dflt] for the result of [get_json]. *)
Definition or_else (x : option document) (dflt : document) : document :=
  match x with
  | Some d => if truthy d then d else dflt
  | None => dflt
  end.

(** ** Ingestion ([data_ingestion.py]) *)

Module DataIngestion.
Section DataIngestion.
Context (w : World).

Definition tickers : list string :=
  [ "AAPL"; "GOOGL"; "MSFT"; "TSLA"; "JPM"; "BAC"; "WMT"; "JNJ"; "PFE"; "XOM" ]%string.

(** The answer of the [i]-th fetch of a run; a fetch without an answer
    has failed. *)
Definition answer (answers : list (outcome Py.dict)) (i : nat) : outcome Py.dict :=
  match answers !! i with
  | Some a => a
  | None => Raises
  end.

(** [if cached: return cached] in the three fetchers.  Only the fetchers
    write under their keys, and they write signal records; a document of
    another kind is not taken for one. *)
Definition cached_record (cached : option document) : option Py.dict :=
  match cached with
  | Some (DRecord r) => if bool_decide (r = ∅) then None else Some r
  | _ => None
  end.

(** [get_financial_data]: the cached record, or the record fetched and
    cached for 30 minutes, or the empty dict when the fetch raised. *)
Definition get_financial_data (fetched : outcome Py.dict) (ticker : string)
    (st : State) : Py.dict * State :=
  let c_key := ("financial:" +:+ ticker)%string in
  let '(cached, st1) := Cache.get_json w c_key st in
  match cached_record cached with
  | Some r => (r, st1)
  | None =>
      match fetched with
      | Returns data =>
          let '(_, st2) := Cache.set_json w c_key (DRecord data) 1800 st1 in
          (data, st2)
      | Raises => (∅, st1)
      end
  end.

(** The record returned when there is no headline and when the request
    raised. *)
Definition neutral_sentiment : Py.dict :=
  {[ "sentiment_score"%string := pfloat 0.5; "news_count"%string := pint 0 ]}.

(** [get_news_sentiment]: the cached record, or the record built from
    the headlines and cached for one hour, or the neutral record. *)
Definition get_news_sentiment (fetched : outcome Py.dict) (ticker : string)
    (st : State) : Py.dict * State :=
  let c_key := ("news:" +:+ ticker)%string in
  let '(cached, st1) := Cache.get_json w c_key st in
  match cached_record cached with
  | Some r => (r, st1)
  | None =>
      match fetched with
      | Returns data =>
          let '(_, st2) := Cache.set_json w c_key (DRecord data) 3600 st1 in
          (data, st2)
      | Raises => (neutral_sentiment, st1)
      end
  end.

(** [get_macro_data]: the cached record, or the indicators computed
    from the time of day and cached for two hours. *)
Definition get_macro_data (fetched : outcome Py.dict) (st : State)
  : Py.dict * State :=
  let c_key := "macro_data"%string in
  let '(cached, st1) := Cache.get_json w c_key st in
  match cached_record cached with
  | Some r => (r, st1)
  | None =>
      match fetched with
      | Returns data =>
          let '(_, st2) := Cache.set_json w c_key (DRecord data) 7200 st1 in
          (data, st2)
      | Raises => (∅, st1)
      end
  end.

(** The tasks created by the loop over [self.tickers].  No fetcher
    contains an [await] that suspends, so each task runs from its start
    to its end, and the tasks run in the order of their creation. *)
Fixpoint fetch_tickers (i : nat) (ts : list string)
    (answers : list (outcome Py.dict)) (st : State)
  : list (outcome Py.dict) * State :=
  match ts with
  | [] => ([], st)
  | ticker :: rest =>
      let '(fin, st1) := get_financial_data (answer answers (i * 2)) ticker st in
      let '(nws, st2) := get_news_sentiment (answer answers (i * 2 + 1)) ticker st1 in
      let '(results, st3) := fetch_tickers (S i) rest answers st2 in
      (Returns fin :: Returns nws :: results, st3)
  end.

(** The [await] of [asyncio.gather] in the [n]-th run of the ingestion:
    the fetch tasks, and the list of what they returned. *)
Definition gather_signals (n : nat) (st : State) : gather_result * State :=
  match signal_source w n with
  | GatherRaises => (GatherRaises, st)
  | Gathered answers =>
      let '(results, st1) := fetch_tickers 0 tickers answers st in
      let '(macro_data, st2) :=
        get_macro_data (answer answers (length tickers * 2)) st1 in
      (Gathered (results ++ [Returns macro_data]), st2)
  end.

(** The loop over [enumerate(self.tickers)] that sorts the gathered
    results into the two per-entity dicts. *)
Fixpoint sort_results (i : nat) (ts : list string)
    (results : list (outcome Py.dict))
    (financial_data : odict Py.dict) (news_data : gmap string Py.dict)
  : odict Py.dict * gmap string Py.dict :=
  match ts with
  | [] => (financial_data, news_data)
  | ticker :: rest =>
      let fin_idx := (i * 2)%nat in
      let news_idx := (i * 2 + 1)%nat in
      let financial_data :=
        match results !! fin_idx with
        | Some (Returns d) => oset ticker d financial_data
        | _ => financial_data
        end in
      let news_data :=
        match results !! news_idx with
        | Some (Returns d) => <[ ticker := d ]> news_data
        | _ => news_data
        end in
      sort_results (S i) rest results financial_data news_data
  end.

(** The dict [ingested_data] built from the gathered results. *)
Definition assemble (results : list (outcome Py.dict)) (now : Time) : IngestedData :=
  let '(financial_data, news_data) := sort_results 0 tickers results [] ∅ in
  let macro_data :=
    match last results with
    | Some (Returns d) => d
    | _ => ∅
    end in
  {| financial := financial_data; news := news_data;
     macro := macro_data; timestamp := now |}.

(** [ingest_all_data], from the point at which its tasks start: [None]
    stands for the empty dict of the [except] branch. *)
Definition ingest_all_data (n : nat) (st : State) : option IngestedData * State :=
  match gather_signals n st with
  | (GatherRaises, st1) => (None, st1)
  | (Gathered results, st1) =>
      let ingested_data := assemble results (clock st1) in
      let '(_, st2) := Cache.set_json w "latest_data" (DData ingested_data) 600 st1 in
      (Some ingested_data, st2)
  end.

End DataIngestion.
End DataIngestion.

(** ** The orchestrator ([processing.py]) *)

Module ProcessingService.
Section ProcessingService.
Context (w : World) (credit_scorer : CreditScorer).

(** The arguments of one [_calculate_score_async] coroutine. *)
Record task : Type := {
  t_ticker : string;
  t_financial : Py.dict;
  t_news : Py.dict;
  t_macro : Py.dict
}.

(** An entry of the list returned by the scoring [gather]: a score
    dict, the empty dict, or an exception object. *)
Inductive task_result : Type :=
| TResult (r : ScoreResult)
| TEmptyDict
| TException.

(** [_calculate_score_async], for the [n]-th refresh. *)
Definition _calculate_score_async (n : nat) (now : Time) (t : task) : task_result :=
  match executor w n (t_ticker t) with
  | Ran =>
      TResult (calculate_score credit_scorer (t_ticker t) (t_financial t)
                 (t_news t) (t_macro t) now)
  | Caught => TEmptyDict
  | Aborted => TException
  end.

(** The loop over [financial_data.keys()] that creates the tasks: a
    falsy (empty) financial record creates none. *)
Fixpoint make_tasks (keys : list string) (financial_data : odict Py.dict)
    (news_data : gmap string Py.dict) (macroData : Py.dict) : list task :=
  match keys with
  | [] => []
  | ticker :: rest =>
      let finData := default ∅ (oget ticker financial_data) in
      let newsDataTicker := default ∅ (news_data !! ticker) in
      if bool_decide (finData = ∅)
      then make_tasks rest financial_data news_data macroData
      else {| t_ticker := ticker; t_financial := finData;
              t_news := newsDataTicker; t_macro := macroData |}
           :: make_tasks rest financial_data news_data macroData
  end.

(** The loop over [results] that fills [scores]. *)
Fixpoint collect (results : list task_result) (scores : odict ScoreResult)
  : odict ScoreResult :=
  match results with
  | [] => scores
  | TResult result :: rest => collect rest (oset (sr_ticker result) result scores)
  | TEmptyDict :: rest => collect rest scores
  | TException :: rest => collect rest scores
  end.

(** The body of the loop of [_store_historical_scores] for one entity;
    [Raises] when the cached document has no [append]. *)
Definition store_one (now : Time) (ticker : string) (score_data : ScoreResult)
    (st : State) : outcome unit * State :=
  let hist_key := ("history:" +:+ ticker)%string in
  let '(cached, st1) := Cache.get_json w hist_key st in
  match or_else cached (DList []) with
  | DList history =>
      let history :=
        history ++ [ {| hp_timestamp := now;
                        hp_score := sr_score score_data;
                        hp_risk_level := sr_risk_level score_data |} ] in
      let history :=
        if bool_decide (100 < length history)%nat then last_n 100 history
        else history in
      let '(_, st2) := Cache.set_json w hist_key (DList history) 86400 st1 in
      (Returns (), st2)
  | _ => (Raises, st1)
  end.

Fixpoint store_loop (now : Time) (items : odict ScoreResult) (st : State) : State :=
  match items with
  | [] => st
  | (ticker, score_data) :: rest =>
      match store_one now ticker score_data st with
      | (Returns _, st') => store_loop now rest st'
      | (Raises, st') => st'
      end
  end.

(** [_store_historical_scores]: an exception ends the loop and is
    logged. *)
Definition _store_historical_scores (scores : odict ScoreResult) (st : State) : State :=
  store_loop (clock st) scores st.

(** [get_ticker_history] *)
Definition get_ticker_history (ticker : string) (st : State)
  : list HistoricalPoint * State :=
  let hist_key := ("history:" +:+ ticker)%string in
  let '(cached, st1) := Cache.get_json w hist_key st in
  match or_else cached (DList []) with
  | DList history => (last_n 50 history, st1)
  | _ => ([], st1)
  end.

(** *** [process_all_scores] as a coroutine

    The coroutine gives up control at two places only: while the
    [gather] inside [ingest_all_data] is pending and while the scoring
    [gather] is pending (the methods of [Cache] contain no [await] that
    suspends).  Between two such points it runs without interruption.
    The fetch tasks run while the first [gather] is pending; they touch
    neither the attributes of the service nor a key that the service
    reads, and their effect is accounted for at the moment the [gather]
    returns. *)
Inductive pas_point : Type :=
| AtEntry
| AwaitingIngest (n : nat)
| AwaitingScores (n : nat) (data : IngestedData) (tasks : list task)
| Finished (result : document).

(** From the construction of [processedData] to the [return], followed
    by the [finally] clause. *)
Definition finish (data : IngestedData) (scores : odict ScoreResult) (st : State)
  : pas_point * State :=
  let processedData :=
    {| scores := scores;
       data_timestamp := Some (timestamp data);
       processing_timestamp := clock st;
       ticker_count := length scores |} in
  let '(_, st1) := Cache.set_json w "latest_scores" (DBatch processedData) 3600 st in
  let st2 := _store_historical_scores scores st1 in
  let st3 := set_last_update (clock st2) st2 in
  (Finished (DBatch processedData), set_processing false st3).

(** The guard, and the start of the ingestion. *)
Definition enter (st : State) : pas_point * State :=
  if processing st then
    let '(cached, st') := Cache.get_json w "latest_scores" st in
    (Finished (or_else cached DEmpty), st')
  else
    let st1 := set_processing true st in
    (AwaitingIngest (ingest_runs st1), count_ingest st1).

(** From the return of the ingestion to the scoring [gather]. *)
Definition after_ingest (n : nat) (st : State) : pas_point * State :=
  match DataIngestion.ingest_all_data w n st with
  | (None, st1) => (Finished DEmpty, set_processing false st1)
  | (Some data, st1) =>
      let financial_data := financial data in
      let news_data := news data in
      let macroData := macro data in
      let tasks :=
        make_tasks (okeys financial_data) financial_data news_data macroData in
      match tasks with
      | [] => finish data [] st1
      | _ :: _ => (AwaitingScores n data tasks, count_scoring (length tasks) st1)
      end
  end.

(** From the return of the scoring [gather] to the end; when the
    [gather] raises, the [except] and [finally] clauses run. *)
Definition after_scores (n : nat) (data : IngestedData) (tasks : list task)
    (st : State) : pas_point * State :=
  if gather_ok w n then
    let results := _calculate_score_async n (clock st) <$> tasks in
    finish data (collect results []) st
  else (Finished DEmpty, set_processing false st).

(** One uninterrupted stretch of the coroutine. *)
Definition resume (p : pas_point) (st : State) : pas_point * State :=
  match p with
  | AtEntry => enter st
  | AwaitingIngest n => after_ingest n st
  | AwaitingScores n data tasks => after_scores n data tasks st
  | Finished result => (Finished result, st)
  end.

Definition result_of (p : pas_point) : document :=
  match p with
  | Finished result => result
  | _ => DEmpty
  end.

(** [await process_all_scores()] with nothing else scheduled in
    between: the three stretches one after the other. *)
Definition process_all_scores (st : State) : document * State :=
  let '(p1, st1) := resume AtEntry st in
  let '(p2, st2) := resume p1 st1 in
  let '(p3, st3) := resume p2 st2 in
  (result_of p3, st3).

(** [get_latest_scores] *)
Definition get_latest_scores (st : State) : document * State :=
  let '(scores, st1) := Cache.get_json w "latest_scores" st in
  match scores with
  | Some d => if truthy d then (d, st1) else process_all_scores st1
  | None => process_all_scores st1
  end.

(** *** Interleaved invocations

    A configuration is the shared state together with the invocations
    of [process_all_scores] made so far.  The event loop picks an
    unfinished invocation and runs it up to its next suspension; a new
    invocation may arrive, and time may pass, at any moment. *)
Definition unfinished (p : pas_point) : bool :=
  match p with
  | Finished _ => false
  | _ => true
  end.

Inductive sched_step : State * list pas_point -> State * list pas_point -> Prop :=
| sched_run st ps i p p' st' :
    ps !! i = Some p ->
    unfinished p = true ->
    resume p st = (p', st') ->
    sched_step (st, ps) (st', <[ i := p' ]> ps)
| sched_call st ps :
    sched_step (st, ps) (st, ps ++ [AtEntry])
| sched_time st ps d :
    0 <= d ->
    sched_step (st, ps) (elapse d st, ps).

(** The configurations reachable from [c]. *)
Inductive sched_reach (c : State * list pas_point) : State * list pas_point -> Prop :=
| reach_refl : sched_reach c c
| reach_step c1 c2 : sched_reach c c1 -> sched_step c1 c2 -> sched_reach c c2.

(** An invocation is in flight when it has passed the guard and has
    not finished. *)
Definition in_flight (p : pas_point) : bool :=
  match p with
  | AwaitingIngest _ | AwaitingScores _ _ _ => true
  | _ => false
  end.

(** The dict returned by [get_system_status]. *)
Record SystemStatus : Type := {
  ss_processing : bool;
  ss_last_update : option Time;
  ss_cache_status : string;
  ss_timestamp : Time
}.

(** [get_system_status]; nothing in its [try] block raises, the methods
    of the cache catching their own exceptions. *)
Definition get_system_status (st : State) : SystemStatus * State :=
  let '(cached, st1) := Cache.get_json w "latest_scores" st in
  ({| ss_processing := processing st;
      ss_last_update := last_update st;
      ss_cache_status :=
        if match cached with Some d => truthy d | None => false end
        then "connected" else "empty";
      ss_timestamp := clock st1 |}, st1).

End ProcessingService.
End ProcessingService.

(** ** The HTTP handlers ([routes.py]) *)

(** What a handler body can raise: FastAPI's [HTTPException], or
    another exception, of which only the message matters. *)
Inductive thrown : Type :=
| HTTPException (status_code : Z) (detail : string)
| OtherException (message : string).

(** What a handler gives back to the framework: a value to serialise, or
    an [HTTPException] that becomes the error response. *)
Inductive response (A : Type) : Type :=
| Respond (body : A)
| Fail (status_code : Z) (detail : string).
Arguments Respond {A} body.
Arguments Fail {A} status_code detail.

(** An entry of the list built by [get_available_tickers]. *)
Record TickerSummary : Type := {
  ts_ticker : string;
  ts_score : Py.num;
  ts_risk_level : string;
  ts_last_updated : Time
}.

Record TickerList : Type := {
  tl_tickers : list TickerSummary;
  tl_count : nat;
  tl_timestamp : Time
}.

Record HistoryReply : Type := {
  hr_ticker : string;
  hr_history : list HistoricalPoint;
  hr_count : nat
}.

(** The dict built by [get_analytics], or its "No data available"
    message.  [average_score] is the average of the rationals that the
    scores denote; the rounding of the float sum is not modelled. *)
Record Analytics : Type := {
  total_issuers : nat;
  average_score : Q;
  highest_score : Py.num;
  lowest_score : Py.num;
  risk_distribution : gmap string nat;
  an_last_updated : option Time;
  an_timestamp : Time
}.

Inductive analytics_reply : Type :=
| NoData
| Summary (a : Analytics).

Module Routes.
Section Routes.
Context (w : World) (credit_scorer : CreditScorer).

(** [str.upper] and [str(e)] are left to the libraries that define
    them. *)
Context (upper : string -> string) (str_of : thrown -> string).

(** [scores.get('scores', {})] on what [get_latest_scores] returned: a
    list has no [get], and a signal record has no 'scores'. *)
Definition scores_field (d : document) : outcome (odict ScoreResult) :=
  match d with
  | DEmpty => Returns []
  | DData _ => Returns []
  | DBatch b => Returns (scores b)
  | DList _ => Raises
  | DRecord _ => Returns []
  end.

(** [scores.get('processing_timestamp')] *)
Definition processing_timestamp_field (d : document) : option Time :=
  match d with
  | DBatch b => Some (processing_timestamp b)
  | _ => None
  end.

(** [get_scores]: the 404 is raised inside the [try] and caught by its
    [except Exception], which raises the 500. *)
Definition get_scores (st : State) : response document * State :=
  let '(scores, st') := ProcessingService.get_latest_scores w credit_scorer st in
  let body :=
    if truthy scores then inl scores
    else inr (HTTPException 404 "No scores available") in
  match body with
  | inl scores => (Respond scores, st')
  | inr e => (Fail 500 (str_of e), st')
  end.

(** [get_ticker_score]: an [HTTPException] passes through, any other
    exception becomes the 500. *)
Definition get_ticker_score (ticker : string) (st : State)
  : response ScoreResult * State :=
  let '(scores, st') := ProcessingService.get_latest_scores w credit_scorer st in
  let body :=
    match scores_field scores with
    | Returns ticker_scores =>
        match oget (upper ticker) ticker_scores with
        | None =>
            inr (HTTPException 404 ("Ticker " +:+ ticker +:+ " not found"))
        | Some result => inl result
        end
    | Raises => inr (OtherException "'list' object has no attribute 'get'")
    end in
  match body with
  | inl result => (Respond result, st')
  | inr (HTTPException status_code detail) => (Fail status_code detail, st')
  | inr e => (Fail 500 (str_of e), st')
  end.

(** [get_ticker_history] (the handler) *)
Definition get_ticker_history (ticker : string) (st : State)
  : response HistoryReply * State :=
  let '(history, st') := ProcessingService.get_ticker_history w (upper ticker) st in
  (Respond {| hr_ticker := upper ticker; hr_history := history;
              hr_count := length history |}, st').

(** [tickers.sort(key=lambda x: x['score'], reverse=True)]: the sort of
    Python is stable, also in reverse; entries with equal scores keep
    their order.  [place] puts an entry behind all entries whose score is
    not smaller. *)
Fixpoint place (x : TickerSummary) (sorted : list TickerSummary)
  : list TickerSummary :=
  match sorted with
  | [] => [x]
  | y :: rest =>
      if Py.Qltb (Py.val (ts_score y)) (Py.val (ts_score x))
      then x :: y :: rest
      else y :: place x rest
  end.

Definition sort_by_score (l : list TickerSummary) : list TickerSummary :=
  foldl (λ sorted x, place x sorted) [] l.

Definition summary_of (item : string * ScoreResult) : TickerSummary :=
  {| ts_ticker := item.1;
     ts_score := sr_score item.2;
     ts_risk_level := sr_risk_level item.2;
     ts_last_updated := sr_timestamp item.2 |}.

(** [get_available_tickers] *)
Definition get_available_tickers (st : State) : response TickerList * State :=
  let '(scores, st') := ProcessingService.get_latest_scores w credit_scorer st in
  match scores_field scores with
  | Returns ticker_scores =>
      let tickers := sort_by_score (summary_of <$> ticker_scores) in
      (Respond {| tl_tickers := tickers; tl_count := length tickers;
                  tl_timestamp := clock st' |}, st')
  | Raises =>
      (Fail 500 (str_of (OtherException "'list' object has no attribute 'get'")), st')
  end.

(** [max(all_scores)] and [min(all_scores)]: the first largest and the
    first smallest element. *)
Definition py_max (first : Py.num) (others : list Py.num) : Py.num :=
  foldl (λ best x, if Py.Qltb (Py.val best) (Py.val x) then x else best) first others.

Definition py_min (first : Py.num) (others : list Py.num) : Py.num :=
  foldl (λ best x, if Py.Qltb (Py.val x) (Py.val best) then x else best) first others.

(** The loop that counts the risk levels. *)
Definition count_levels (risk_levels : list string) : gmap string nat :=
  foldl (λ dist level, <[ level := (default 0%nat (dist !! level) + 1)%nat ]> dist)
        ∅ risk_levels.

(** [get_analytics] *)
Definition get_analytics (st : State) : response analytics_reply * State :=
  let '(scores, st') := ProcessingService.get_latest_scores w credit_scorer st in
  match scores_field scores with
  | Returns ticker_scores =>
      let all_scores := (λ item, sr_score item.2) <$> ticker_scores in
      let risk_levels := (λ item, sr_risk_level item.2) <$> ticker_scores in
      match all_scores with
      | [] => (Respond NoData, st')
      | first :: others =>
          (Respond (Summary
             {| total_issuers := length all_scores;
                average_score :=
                  Qdiv (foldl (λ total x, Qplus total (Py.val x)) 0%Q all_scores)
                       (inject_Z (Z.of_nat (length all_scores)));
                highest_score := py_max first others;
                lowest_score := py_min first others;
                risk_distribution := count_levels risk_levels;
                an_last_updated := processing_timestamp_field scores;
                an_timestamp := clock st' |}), st')
      end
  | Raises =>
      (Fail 500 (str_of (OtherException "'list' object has no attribute 'get'")), st')
  end.

End Routes.
End Routes.

(** * Reference definitions and test doubles *)

(** ** The rule-based fallback as the specification words it

    A base of 500 and three independent pairs of additive adjustments,
    clamped to the score range. *)
Definition adjustment (applies : bool) (amount : Z) : Z :=
  if applies then amount else 0.

Definition fallback_reference (debt_to_equity roe sentiment : Q) : Z :=
  let total :=
    500
    + adjustment (Py.Qltb debt_to_equity 0.5) 100
    + adjustment (Py.Qltb 2 debt_to_equity) (-150)
    + adjustment (Py.Qltb 0.15 roe) 100
    + adjustment (Py.Qltb roe 0) (-200)
    + adjustment (Py.Qltb 0.6 sentiment) 50
    + adjustment (Py.Qltb sentiment 0.4) (-50) in
  Z.max 0 (Z.min 1000 total).

(** The same rules read on the records themselves: an adjustment applies
    when the field is a number that meets its condition; a field that is
    absent counts with the default of the code, and a field that is no
    number meets no condition. *)
Definition meets (condition : Q -> bool) (field : Py.value) : bool :=
  match field with
  | Py.Num n => condition (Py.val n)
  | _ => false
  end.

Definition fallback_reference_on_records (financial_data news_data : Py.dict) : Z :=
  let debt_to_equity := Py.get financial_data "debt_to_equity" (pint 1) in
  let roe := Py.get financial_data "roe" (pint 0) in
  let sentiment := Py.get news_data "sentiment_score" (pfloat 0.5) in
  let total :=
    500
    + adjustment (meets (λ x, Py.Qltb x 0.5) debt_to_equity) 100
    + adjustment (meets (λ x, Py.Qltb 2 x) debt_to_equity) (-150)
    + adjustment (meets (λ x, Py.Qltb 0.15 x) roe) 100
    + adjustment (meets (λ x, Py.Qltb x 0) roe) (-200)
    + adjustment (meets (λ x, Py.Qltb 0.6 x) sentiment) 50
    + adjustment (meets (λ x, Py.Qltb x 0.4) sentiment) (-50) in
  Z.max 0 (Z.min 1000 total).

(** The tier as a function of a score: at least 750 is low risk, at
    least 500 is medium risk, anything below is high risk. *)
Definition tier_reference (score : Q) : string :=
  if Qle_bool 750 score then "Low Risk"
  else if Qle_bool 500 score then "Medium Risk"
  else "High Risk".

(** ** Scorer test doubles *)

(** The characters that the text of a number is made of: digits, signs,
    the point, the exponent mark, the underscore, the letters of "inf",
    "infinity" and "nan", white space, and whatever is not printable
    ASCII. *)
Definition number_character (c : Ascii.ascii) : bool :=
  let n := Ascii.nat_of_ascii c in
  (n <? 33)%nat || (126 <? n)%nat
  || ((48 <=? n)%nat && (n <=? 57)%nat)
  || existsb (Nat.eqb n) (Ascii.nat_of_ascii <$> String.list_ascii_of_string "+-._eEiInNfFtTyYaA").

(** A text that cannot be converted to a float, whatever the rules of
    the conversion: it holds a character that no number is written
    with. *)
Definition surely_no_number (s : string) : bool :=
  negb (forallb number_character (String.list_ascii_of_string s)).

Definition unconvertible (f : feature) : bool :=
  match f with
  | FLog (Py.Str s) | FRaw (Py.Str s) => surely_no_number s
  | _ => false
  end.

(** A stand-in for the fitted scaler.  Like the conversion to float64
    that [StandardScaler.transform] starts with, it raises on a row with
    a text that cannot be a number; it returns zeros for every other
    row. *)
Definition stub_scaler (features : list feature) : outcome (list Q) :=
  if existsb unconvertible features
  then Raises
  else Returns (replicate (length features) 0%Q).

(** A stand-in for numpy on the values of the examples: [np.log] raises
    on what is no number and on an integer outside the range of the
    64-bit types, [np.array] raises on a list among the entries. *)
Definition stub_log_raises (x : Py.value) : bool :=
  match x with
  | Py.Num (Py.Int z) => (z <? - 2 ^ 63) || (2 ^ 64 <=? z)
  | Py.Num (Py.Float _) => false
  | _ => true
  end.

Definition stub_array_raises (entries : list feature) : bool :=
  existsb (λ f, match f with
                | FLog (Py.StrList _) | FRaw (Py.StrList _) => true
                | _ => false
                end) entries.

(** A trained scorer whose model predicts the constant [prediction]. *)
Definition constant_scorer (prediction : Q) : CreditScorer :=
  {| is_trained := true;
     scaler_transform := stub_scaler;
     model_predict := λ _, Returns prediction;
     feature_importances_ := replicate 11 0%Q;
     _generate_explanation := λ ticker _ _ _ _, ticker;
     log_raises := stub_log_raises;
     array_raises := stub_array_raises |}.

(** A scorer whose initial training failed. *)
Definition untrained_scorer : CreditScorer :=
  {| is_trained := false;
     scaler_transform := stub_scaler;
     model_predict := λ _, Raises;
     feature_importances_ := [];
     _generate_explanation := λ ticker _ _ _ _, ticker;
     log_raises := stub_log_raises;
     array_raises := stub_array_raises |}.

(** The two scenarios of the specification. *)
Definition acme_financial : Py.dict :=
  {[ "debt_to_equity"%string := pfloat 0.3; "roe"%string := pfloat 0.2 ]}.
Definition acme_news : Py.dict :=
  {[ "sentiment_score"%string := pfloat 0.8 ]}.

Definition weak_financial : Py.dict :=
  {[ "debt_to_equity"%string := pfloat 3.0; "roe"%string := pfloat (-0.1) ]}.
Definition weak_news : Py.dict :=
  {[ "sentiment_score"%string := pfloat 0.2 ]}.

(** A financial record whose return on equity came back as [None], and
    one in which it is a text. *)
Definition null_roe_financial : Py.dict :=
  {[ "market_cap"%string := pint 5000000000; "roe"%string := Py.None_ ]}.

Definition text_roe_financial : Py.dict :=
  {[ "market_cap"%string := pint 5000000000; "roe"%string := Py.Str "abc" ]}.

(** A low debt-to-equity ratio next to a return on equity of [None]. *)
Definition sound_debt_null_roe : Py.dict :=
  {[ "debt_to_equity"%string := pfloat 0.3; "roe"%string := Py.None_ ]}.

(** Whether the three fields consulted by the fallback rules are numbers
    (an absent field takes its numeric default). *)
Definition is_number (v : Py.value) : bool :=
  match v with
  | Py.Num _ => true
  | _ => false
  end.

Definition rule_inputs_numeric (financial_data news_data : Py.dict) : bool :=
  is_number (Py.get financial_data "debt_to_equity" (pint 1))
  && is_number (Py.get financial_data "roe" (pint 0))
  && is_number (Py.get news_data "sentiment_score" (pfloat 0.5)).

(** ** Views of the state used in the statements *)

(** What the service itself owns, as opposed to the contents of redis:
    two states agree on it when only redis was touched in between. *)
Definition same_service (st st' : State) : Prop :=
  processing st' = processing st
  /\ last_update st' = last_update st
  /\ clock st' = clock st
  /\ ingest_runs st' = ingest_runs st
  /\ scoring_runs st' = scoring_runs st.

(** The number of invocations that are in flight. *)
Fixpoint flights (ps : list ProcessingService.pas_point) : nat :=
  match ps with
  | [] => 0
  | p :: rest =>
      ((if ProcessingService.in_flight p then 1 else 0) + flights rest)%nat
  end.

Definition flight_weight (p : ProcessingService.pas_point) : nat :=
  if ProcessingService.in_flight p then 1 else 0.

(** At most one invocation is in flight, and the flag says whether one
    is. *)
Definition flag_tracks_flights (c : State * list ProcessingService.pas_point) : Prop :=
  flights (snd c) = if processing (fst c) then 1%nat else 0%nat.

(** The history list an append starts from, as [get_json(hist_key) or []]
    sees it in redis: [None] when the stored document is not a list. *)
Definition stored_history (ticker : string) (st : State)
  : option (list HistoricalPoint) :=
  match redis st !! ("json:history:" +:+ ticker)%string with
  | None => Some []
  | Some (_, DList h) => Some h
  | Some (_, DEmpty) => Some []
  | Some (_, DRecord r) => if bool_decide (r = ∅) then Some [] else None
  | Some _ => None
  end.

(** Every history list in redis has at most 100 entries. *)
Definition history_bounded (st : State) : Prop :=
  forall key ttl h, redis st !! key = Some (ttl, DList h) -> (length h <= 100)%nat.

(** The entry appended for a score. *)
Definition entry_of (now : Time) (score_data : ScoreResult) : HistoricalPoint :=
  {| hp_timestamp := now;
     hp_score := sr_score score_data;
     hp_risk_level := sr_risk_level score_data |}.

(** [financial_data.get(ticker, {})] on the ingested data. *)
Definition financial_record (ticker : string) (data : IngestedData) : Py.dict :=
  default ∅ (oget ticker (financial data)).

(** A document is a structurally valid batch when it is a
    [ProcessedData] record: a score mapping, an entity count and a
    processing timestamp.  The empty dict is not one. *)
Definition is_batch (d : document) : Prop := exists b, d = DBatch b.

(** The tasks of a refresh that ingested [data]. *)
Definition tasks_of (data : IngestedData) : list ProcessingService.task :=
  ProcessingService.make_tasks (okeys (financial data)) (financial data)
    (news data) (macro data).

(** The batch a refresh builds from the ingested data and the gathered
    scoring results. *)
Definition batch_of (data : IngestedData) (scores : odict ScoreResult) (now : Time)
  : ProcessedData :=
  {| scores := scores;
     data_timestamp := Some (timestamp data);
     processing_timestamp := now;
     ticker_count := length scores |}.

(** The shape that the three fetchers share: the cached record; or the
    fetched record, which is cached; or a default. *)
Definition through_cache (w : World) (c_key : string) (ttl : Z) (dflt : Py.dict)
    (fetched : outcome Py.dict) (st : State) : Py.dict * State :=
  let '(cached, st1) := Cache.get_json w c_key st in
  match DataIngestion.cached_record cached with
  | Some r => (r, st1)
  | None =>
      match fetched with
      | Returns data =>
          let '(_, st2) := Cache.set_json w c_key (DRecord data) ttl st1 in
          (data, st2)
      | Raises => (dflt, st1)
      end
  end.

(** The redis keys of the fetchers. *)
Definition fetch_key (key : string) : Prop :=
  (exists ticker, key = ("json:financial:" +:+ ticker)%string)
  \/ (exists ticker, key = ("json:news:" +:+ ticker)%string)
  \/ key = "json:macro_data"%string.

(** What the fetchers may do to the state: they leave the service as it
    is and store signal records under their own keys. *)
Definition only_records (st st' : State) : Prop :=
  same_service st st'
  /\ forall key,
       redis st' !! key = redis st !! key
       \/ (fetch_key key /\ exists ttl r, redis st' !! key = Some (ttl, DRecord r)).

(** What the [gather] of the ingestion returns in the refresh that
    starts in [st] with the guard free, and the data ingested by that
    refresh. *)
Definition gathered (w : World) (st : State) : gather_result :=
  fst (DataIngestion.gather_signals w (ingest_runs st)
         (count_ingest (set_processing true st))).

Definition ingested (w : World) (st : State) : option IngestedData :=
  match gathered w st with
  | GatherRaises => None
  | Gathered results => Some (DataIngestion.assemble results (clock st))
  end.

(** The document a refresh returns when it starts with the guard free,
    computed from the gathered signals, the executor and the clock. *)
Definition refresh_document (w : World) (credit_scorer : CreditScorer) (st : State)
  : document :=
  let n := ingest_runs st in
  match gathered w st with
  | GatherRaises => DEmpty
  | Gathered results =>
      let data := DataIngestion.assemble results (clock st) in
      match tasks_of data with
      | [] => DBatch (batch_of data [] (clock st))
      | tasks =>
          if gather_ok w n then
            DBatch (batch_of data
              (ProcessingService.collect
                 (ProcessingService._calculate_score_async w credit_scorer n (clock st)
                    <$> tasks) [])
              (clock st))
          else DEmpty
      end
  end.

(** ** Worlds and states of the examples *)

(** The same world with another behaviour of redis. *)
Definition with_redis (ok : nat -> bool) (w : World) : World :=
  {| signal_source := signal_source w; redis_ok := ok;
     executor := executor w; gather_ok := gather_ok w |}.

(** One financial and one news record per entity, and the macro record. *)
Definition sample_results : list (outcome Py.dict) :=
  concat (replicate 10 [Returns acme_financial; Returns acme_news])
  ++ [Returns ({[ "vix"%string := pfloat 20.5 ]} : Py.dict)].

(** Everything works. *)
Definition calm_world : World :=
  {| signal_source := λ _, Gathered sample_results;
     redis_ok := λ _, true;
     executor := λ _ _, Ran;
     gather_ok := λ _, true |}.

(** Redis is unreachable. *)
Definition no_redis_world : World := with_redis (λ _, false) calm_world.

(** The [gather] of the ingestion raises. *)
Definition silent_world : World :=
  {| signal_source := λ _, GatherRaises;
     redis_ok := λ _, true;
     executor := λ _ _, Ran;
     gather_ok := λ _, true |}.

(** The scoring [gather] raises. *)
Definition broken_gather_world : World :=
  {| signal_source := λ _, Gathered sample_results;
     redis_ok := λ _, true;
     executor := λ _ _, Ran;
     gather_ok := λ _, false |}.

(** Every financial fetch fails; the news and the macro record are
    there. *)
Definition empty_results : list (outcome Py.dict) :=
  concat (replicate 10 [Raises; Returns acme_news])
  ++ [Returns ({[ "vix"%string := pfloat 20.5 ]} : Py.dict)].

Definition no_data_world : World :=
  {| signal_source := λ _, Gathered empty_results;
     redis_ok := λ _, true;
     executor := λ _ _, Ran;
     gather_ok := λ _, true |}.

(** History points numbered by their score. *)
Definition point (i : Z) : HistoricalPoint :=
  {| hp_timestamp := i; hp_score := Py.Int i; hp_risk_level := "High Risk" |}.

Definition points (first : nat) (count : nat) : list HistoricalPoint :=
  (λ i, point (Z.of_nat i)) <$> seq first count.

Definition numbered_score (i : Z) : ScoreResult :=
  {| sr_ticker := "ACME"; sr_score := Py.Int i; sr_risk_level := "High Risk";
     sr_color := "red"; sr_contributions := {[ "fallback"%string := 1%Q ]};
     sr_explanation := ""; sr_timestamp := i |}.

(** A state whose history for "ACME" holds the entries 1 to 100. *)
Definition full_history_state : State :=
  {| processing := false; last_update := None;
     redis := {[ "json:history:ACME"%string := (86400, DList (points 1 100)) ]};
     clock := 101; redis_ops := 0; ingest_runs := 0; scoring_runs := 0 |}.

(** A batch without entities, and a state in which a refresh is in
    progress while redis holds that batch. *)
Definition empty_batch : ProcessedData :=
  {| scores := []; data_timestamp := Some 0; processing_timestamp := 0;
     ticker_count := 0 |}.

Definition busy_state : State :=
  {| processing := true; last_update := None;
     redis := {[ "json:latest_scores"%string := (3600, DBatch empty_batch) ]};
     clock := 10; redis_ops := 0; ingest_runs := 1; scoring_runs := 0 |}.

(** A refresh in which the financial fetch of "AAPL" fails, the wrapper of
    "GOOGL" catches an exception and the task of "MSFT" is aborted. *)
Definition mixed_results : list (outcome Py.dict) :=
  [Raises; Returns acme_news]
  ++ concat (replicate 9 [Returns acme_financial; Returns acme_news])
  ++ [Returns ({[ "vix"%string := pfloat 20.5 ]} : Py.dict)].

Definition mixed_world : World :=
  {| signal_source := λ _, Gathered mixed_results;
     redis_ok := λ _, true;
     executor := λ _ ticker,
       if String.eqb ticker "GOOGL" then Caught
       else if String.eqb ticker "MSFT" then Aborted
       else Ran;
     gather_ok := λ _, true |}.

(** What the [gather] of the ingestion returns in that refresh. *)
Definition mixed_gathered : list (outcome Py.dict) :=
  Eval vm_compute in
    match gathered mixed_world (initial 0) with
    | Gathered results => results
    | GatherRaises => []
    end.

Definition mixed_batch : ProcessedData :=
  Eval vm_compute in
    match fst (ProcessingService.process_all_scores mixed_world
                 (constant_scorer 640) (initial 0)) with
    | DBatch b => b
    | _ => empty_batch
    end.

(** The data ingested in the worlds of the examples. *)
Definition no_data : IngestedData :=
  Eval vm_compute in
    match ingested no_data_world (initial 0) with
    | Some data => data
    | None => {| financial := []; news := ∅; macro := ∅; timestamp := 0 |}
    end.

Definition calm_data : IngestedData :=
  Eval vm_compute in
    match ingested calm_world (initial 0) with
    | Some data => data
    | None => {| financial := []; news := ∅; macro := ∅; timestamp := 0 |}
    end.

Definition calm_batch : ProcessedData :=
  Eval vm_compute in
    match fst (ProcessingService.process_all_scores calm_world
                 (constant_scorer 640) (initial 0)) with
    | DBatch b => b
    | _ => empty_batch
    end.

(** Whether the four fields that [_extract_features] passes to [min] or
    [max] are numbers (an absent field takes its numeric default). *)
Definition extraction_inputs_numeric (financial_data : Py.dict) : bool :=
  is_number (Py.get financial_data "market_cap" (pfloat 1e9))
  && is_number (Py.get financial_data "debt_to_equity" (pint 1))
  && is_number (Py.get financial_data "current_ratio" (pint 1))
  && is_number (Py.get financial_data "volume_avg" (pfloat 1e6)).



(** A record whose market capitalisation is a string. *)
Definition text_cap_financial : Py.dict :=
  {[ "market_cap"%string := Py.Str "n/a"; "roe"%string := pfloat 0.2 ]}.

(** A trained scorer whose importance vector is too short. *)
Definition short_importance_scorer : CreditScorer :=
  {| is_trained := true;
     scaler_transform := stub_scaler;
     model_predict := λ _, Returns 640%Q;
     feature_importances_ := replicate 10 0%Q;
     _generate_explanation := λ ticker _ _ _ _, ticker;
     log_raises := stub_log_raises;
     array_raises := stub_array_raises |}.

(** An entry of the gathered results that is a dict, not an exception. *)
Definition gathered_dict (r : option (outcome Py.dict)) : option Py.dict :=
  match r with
  | Some (Returns d) => Some d
  | _ => None
  end.


(** The batch of a refresh with the untrained scorer. *)
Definition unknown_batch : ProcessedData :=
  Eval vm_compute in
    match fst (ProcessingService.process_all_scores calm_world
                 untrained_scorer (initial 0)) with
    | DBatch b => b
    | _ => empty_batch
    end.

(** The sublist of the keys that satisfy a test. *)
Fixpoint select (keep : string -> bool) (l : list string) : list string :=
  match l with
  | [] => []
  | x :: rest => if keep x then x :: select keep rest else select keep rest
  end.

(** Whether the executor ran the scoring task of an entity. *)
Definition ran (w : World) (n : nat) (ticker : string) : bool :=
  match executor w n ticker with
  | Ran => true
  | _ => false
  end.

(** An entity is scoreable in a refresh when it has a non-empty
    financial record and its scoring task ran. *)
Definition scoreable (w : World) (n : nat) (data : IngestedData) (ticker : string)
  : bool :=
  negb (bool_decide (financial_record ticker data = ∅)) && ran w n ticker.

(** The order of the ticker list: no entry has a higher score than an
    entry before it. *)
Definition not_below (x y : TickerSummary) : Prop :=
  (Py.val (ts_score y) <= Py.val (ts_score x))%Q.

(** The entries of a list whose score equals [q], in their order. *)
Definition with_score (q : Q) (l : list TickerSummary) : list TickerSummary :=
  List.filter (λ x, Qeq_bool (Py.val (ts_score x)) q) l.

(** How often a risk level occurs in a list. *)
Definition occurrences (level : string) (levels : list string) : nat :=
  length (List.filter (String.eqb level) levels).

(** A state whose cache holds the batch [mixed_batch]. *)
Definition cached_state : State :=
  {| processing := false; last_update := Some 0;
     redis := {[ "json:latest_scores"%string := (3600, DBatch mixed_batch) ]};
     clock := 5; redis_ops := 0; ingest_runs := 1; scoring_runs := 7 |}.

(** ASCII upper case of a string, for the examples. *)
Fixpoint ascii_upper (s : string) : string :=
  match s with
  | EmptyString => EmptyString
  | String c rest =>
      let n := Ascii.nat_of_ascii c in
      String (if (97 <=? n)%nat && (n <=? 122)%nat
              then Ascii.ascii_of_nat (n - 32) else c)
             (ascii_upper rest)
  end.

(** [str(e)], for the examples: an [HTTPException] prints as its status
    code followed by its detail. *)
Definition plain_str (e : thrown) : string :=
  match e with
  | HTTPException status_code detail =>
      (Py.str_of_int status_code +:+ ": " +:+ detail)%string
  | OtherException message => message
  end.

(** * Properties *)

(** ** The ingested data *)

Lemma assemble_financial (results : list (outcome Py.dict)) (now : Time) :
  financial (DataIngestion.assemble results now)
    = fst (DataIngestion.sort_results 0 DataIngestion.tickers results [] ∅).
Proof.
  unfold DataIngestion.assemble.
  destruct (DataIngestion.sort_results 0 DataIngestion.tickers results [] ∅).
  reflexivity.
Qed.

Lemma assemble_timestamp (results : list (outcome Py.dict)) (now : Time) :
  timestamp (DataIngestion.assemble results now) = now.
Proof.
  unfold DataIngestion.assemble.
  destruct (DataIngestion.sort_results 0 DataIngestion.tickers results [] ∅).
  reflexivity.
Qed.

(** The ingested data is a large term once the list of tracked entities
    is unfolded; the proofs below treat it as a whole. *)
Arguments DataIngestion.assemble : simpl never.
Arguments tasks_of : simpl never.
Opaque DataIngestion.assemble.

(** ** Arithmetic of the number model *)

Lemma Qltb_lt (a b : Q) : Py.Qltb a b = true <-> (a < b)%Q.
Proof.
  unfold Py.Qltb. rewrite Qlt_alt.
  destruct (a ?= b)%Q; intuition congruence.
Qed.

Lemma Qltb_ge (a b : Q) : Py.Qltb a b = false <-> (b <= a)%Q.
Proof.
  rewrite <- not_true_iff_false, Qltb_lt. split.
  - apply Qnot_lt_le.
  - intros H1 H2. exact (Qlt_not_le _ _ H2 H1).
Qed.

Lemma Qle_bool_false (a b : Q) : Qle_bool a b = false <-> (b < a)%Q.
Proof.
  rewrite <- not_true_iff_false, Qle_bool_iff. split.
  - apply Qnot_le_lt.
  - intros H1 H2. exact (Qlt_not_le _ _ H1 H2).
Qed.



(** [rint] is within one half of its argument. *)
Lemma rint_near (q : Q) :
  (inject_Z (Py.rint q) - (1 # 2) <= q)%Q /\ (q <= inject_Z (Py.rint q) + (1 # 2))%Q.
Proof.
  destruct q as [n d]. unfold Qle, Qminus, Qplus, Qopp, inject_Z, Py.rint. simpl.
  pose proof (Z.div_mod n (Z.pos d) ltac:(lia)) as Hdm.
  pose proof (Z.mod_pos_bound n (Z.pos d) ltac:(lia)) as Hr.
  set (f := n / Z.pos d) in *. set (r := n mod Z.pos d) in *.
  destruct (Z.compare_spec (2 * r) (Z.pos d)); [destruct (Z.even f) | | ]; nia.
Qed.

(** *** Rounding to binary64 *)








Lemma risk_of_tier (s : Py.num) : fst (risk_of s) = tier_reference (Py.val s).
Proof.
  unfold risk_of, tier_reference.
  destruct (Qle_bool 750 (Py.val s)); [reflexivity |].
  destruct (Qle_bool 500 (Py.val s)); reflexivity.
Qed.

(** ** The fallback path *)

Lemma fallback_try_numeric (financial_data news_data : Py.dict)
    (debt_to_equity roe sentiment : Py.num) :
  Py.get financial_data "debt_to_equity" (pint 1) = Py.Num debt_to_equity ->
  Py.get financial_data "roe" (pint 0) = Py.Num roe ->
  Py.get news_data "sentiment_score" (pfloat 0.5) = Py.Num sentiment ->
  fallback_try financial_data news_data =
    Returns (fallback_reference (Py.val debt_to_equity) (Py.val roe) (Py.val sentiment)).
Proof.
  intros Hd Hr Hs. unfold fallback_try, fallback_reference.
  rewrite Hd, Hr, Hs. unfold Py.lt, Py.gt, obind, adjustment.
  change (Py.val (Py.Float 0.5)) with 0.5%Q.
  change (Py.val (Py.Int 2)) with 2%Q.
  change (Py.val (Py.Float 0.15)) with 0.15%Q.
  change (Py.val (Py.Int 0)) with 0%Q.
  change (Py.val (Py.Float 0.6)) with 0.6%Q.
  change (Py.val (Py.Float 0.4)) with 0.4%Q.
  destruct (Py.Qltb (Py.val debt_to_equity) 0.5) eqn:D1;
    destruct (Py.Qltb 2 (Py.val debt_to_equity)) eqn:D2;
    try (apply Qltb_lt in D1, D2; lra);
  destruct (Py.Qltb 0.15 (Py.val roe)) eqn:R1;
    destruct (Py.Qltb (Py.val roe) 0) eqn:R2;
    try (apply Qltb_lt in R1, R2; lra);
  destruct (Py.Qltb 0.6 (Py.val sentiment)) eqn:S1;
    destruct (Py.Qltb (Py.val sentiment) 0.4) eqn:S2;
    try (apply Qltb_lt in S1, S2; lra);
  reflexivity.
Qed.


Lemma fallback_try_raises (financial_data news_data : Py.dict) :
  rule_inputs_numeric financial_data news_data = false ->
  fallback_try financial_data news_data = Raises.
Proof.
  unfold rule_inputs_numeric, fallback_try, obind, Py.lt, Py.gt.
  destruct (Py.get financial_data "debt_to_equity" (pint 1)); simpl; try reflexivity.
  destruct (Py.Qltb _ _); [| destruct (Py.Qltb _ _)];
    (destruct (Py.get financial_data "roe" (pint 0)); simpl; try reflexivity;
     destruct (Py.Qltb _ _); [| destruct (Py.Qltb _ _)];
       (destruct (Py.get news_data "sentiment_score" (pfloat 0.5)); simpl;
        try reflexivity; discriminate)).
Qed.

Lemma rule_inputs_numeric_true (financial_data news_data : Py.dict) :
  rule_inputs_numeric financial_data news_data = true ->
  exists d r s,
    Py.get financial_data "debt_to_equity" (pint 1) = Py.Num d /\
    Py.get financial_data "roe" (pint 0) = Py.Num r /\
    Py.get news_data "sentiment_score" (pfloat 0.5) = Py.Num s.
Proof.
  unfold rule_inputs_numeric.
  destruct (Py.get financial_data "debt_to_equity" (pint 1)) as [| d | |];
    try discriminate.
  destruct (Py.get financial_data "roe" (pint 0)) as [| r | |]; try discriminate.
  destruct (Py.get news_data "sentiment_score" (pfloat 0.5)) as [| s | |];
    try discriminate.
  intros _. exists d, r, s. auto.
Qed.


Lemma fallback_ticker (financial_data news_data : Py.dict) (ticker : string) (now : Time) :
  sr_ticker (_fallback_score financial_data news_data ticker now) = ticker.
Proof. unfold _fallback_score. destruct (fallback_try _ _); reflexivity. Qed.

(** ** The model path *)

(** What [score_model] returns when it returns. *)
Lemma score_model_returns (self : CreditScorer) (ticker : string)
    (financial_data news_data macro_data : Py.dict) (now : Time)
    (tiered : Py.num) (result : ScoreResult) :
  score_model self ticker financial_data news_data macro_data now
    = Returns (tiered, result) ->
  sr_ticker result = ticker /\
  sr_score result = Py.round tiered 1 /\
  sr_risk_level result = fst (risk_of tiered) /\
  exists raw, tiered = clamp_score raw.
Proof.
  unfold score_model, obind.
  destruct (scaler_transform self _) as [scaled |]; [| discriminate].
  destruct (model_predict self scaled) as [raw |]; [| discriminate].
  destruct (contributions_from _ _ _ _ _) as [contributions |]; [| discriminate].
  destruct (risk_of (clamp_score raw)) as [risk_level color] eqn:R.
  intros [= <- <-]. simpl. rewrite R. simpl. eauto.
Qed.

(** ** The cache and the frame of the service *)

Lemma same_service_refl (st : State) : same_service st st.
Proof. unfold same_service. auto. Qed.

Lemma same_service_trans (st1 st2 st3 : State) :
  same_service st1 st2 -> same_service st2 st3 -> same_service st1 st3.
Proof. unfold same_service. intuition congruence. Qed.

Lemma get_json_spec (w : World) (key : string) (st : State) :
  Cache.get_json w key st =
    ((if redis_ok w (redis_ops st)
      then snd <$> redis st !! ("json:" +:+ key)%string else None),
     set_redis (redis st) st).
Proof.
  unfold Cache.get_json, Cache.client_get.
  destruct (redis_ok w (redis_ops st)); reflexivity.
Qed.

Lemma set_json_spec (w : World) (key : string) (value : document) (ttl : Z) (st : State) :
  Cache.set_json w key value ttl st =
    if redis_ok w (redis_ops st)
    then (true, set_redis (<[ ("json:" +:+ key)%string := (ttl, value) ]> (redis st)) st)
    else (false, set_redis (redis st) st).
Proof.
  unfold Cache.set_json, Cache.setex.
  destruct (redis_ok w (redis_ops st)); reflexivity.
Qed.

Lemma set_redis_frame (r : gmap string (Z * document)) (st : State) :
  same_service st (set_redis r st).
Proof. unfold same_service. simpl. auto. Qed.

Lemma get_json_frame (w : World) (key : string) (st : State) :
  same_service st (snd (Cache.get_json w key st))
  /\ redis (snd (Cache.get_json w key st)) = redis st.
Proof. rewrite get_json_spec. simpl. split; [apply set_redis_frame | reflexivity]. Qed.

Lemma set_json_frame (w : World) (key : string) (value : document) (ttl : Z) (st : State) :
  same_service st (snd (Cache.set_json w key value ttl st)).
Proof.
  rewrite set_json_spec.
  destruct (redis_ok w (redis_ops st)); apply set_redis_frame.
Qed.

Lemma store_one_frame (w : World) (now : Time) (ticker : string)
    (score_data : ScoreResult) (st : State) :
  same_service st (snd (ProcessingService.store_one w now ticker score_data st)).
Proof.
  unfold ProcessingService.store_one.
  pose proof (get_json_frame w ("history:" +:+ ticker) st) as [F1 _].
  destruct (Cache.get_json w ("history:" +:+ ticker) st) as [cached st1].
  simpl in F1.
  destruct (or_else cached (DList [])); simpl; try exact F1.
  match goal with |- context [Cache.set_json w ?k ?v ?t st1] =>
    pose proof (set_json_frame w k v t st1) as F2;
    destruct (Cache.set_json w k v t st1) as [ok st2] end.
  simpl in *. eapply same_service_trans; eassumption.
Qed.

Lemma store_loop_frame (w : World) (now : Time) (items : odict ScoreResult) (st : State) :
  same_service st (ProcessingService.store_loop w now items st).
Proof.
  revert st. induction items as [| [ticker score_data] rest IH]; intros st; simpl.
  - apply same_service_refl.
  - pose proof (store_one_frame w now ticker score_data st) as F.
    destruct (ProcessingService.store_one w now ticker score_data st) as [[u |] st'];
      simpl in F; [| exact F].
    eapply same_service_trans; [exact F | apply IH].
Qed.

(** ** The fetchers of the ingestion *)

Lemma get_financial_data_shape (w : World) (fetched : outcome Py.dict)
    (ticker : string) (st : State) :
  DataIngestion.get_financial_data w fetched ticker st
    = through_cache w ("financial:" +:+ ticker) 1800 ∅ fetched st.
Proof. reflexivity. Qed.

Lemma get_news_sentiment_shape (w : World) (fetched : outcome Py.dict)
    (ticker : string) (st : State) :
  DataIngestion.get_news_sentiment w fetched ticker st
    = through_cache w ("news:" +:+ ticker) 3600 DataIngestion.neutral_sentiment
        fetched st.
Proof. reflexivity. Qed.

Lemma get_macro_data_shape (w : World) (fetched : outcome Py.dict) (st : State) :
  DataIngestion.get_macro_data w fetched st
    = through_cache w "macro_data" 7200 ∅ fetched st.
Proof. reflexivity. Qed.

Lemma only_records_refl (st : State) : only_records st st.
Proof. split; [apply same_service_refl | auto]. Qed.

Lemma only_records_trans (st1 st2 st3 : State) :
  only_records st1 st2 -> only_records st2 st3 -> only_records st1 st3.
Proof.
  intros [S1 R1] [S2 R2]. split; [eapply same_service_trans; eassumption |].
  intros key. destruct (R2 key) as [E2 | H2]; [| auto].
  rewrite E2. apply R1.
Qed.

Lemma only_records_set_redis (st : State) : only_records st (set_redis (redis st) st).
Proof. split; [apply set_redis_frame | auto]. Qed.

Lemma through_cache_records (w : World) (c_key : string) (ttl : Z) (dflt : Py.dict)
    (fetched : outcome Py.dict) (st : State) :
  fetch_key ("json:" +:+ c_key) ->
  only_records st (snd (through_cache w c_key ttl dflt fetched st)).
Proof.
  intros Hkey. unfold through_cache. rewrite get_json_spec.
  destruct (DataIngestion.cached_record _); [apply only_records_set_redis |].
  destruct fetched as [data |]; [| apply only_records_set_redis].
  rewrite set_json_spec. cbn [redis_ops set_redis redis].
  destruct (redis_ok w (S (redis_ops st))); cbn [snd].
  - split; [unfold same_service; cbn; auto |].
    intros key. cbn [redis set_redis].
    destruct (decide (key = ("json:" +:+ c_key)%string)) as [-> | Hne].
    + right. split; [exact Hkey |]. rewrite lookup_insert_eq. eauto.
    + left. apply lookup_insert_ne. congruence.
  - split; [unfold same_service; cbn; auto | auto].
Qed.

Lemma fetch_tickers_records (w : World) (ts : list string)
    (answers : list (outcome Py.dict)) :
  forall (i : nat) (st : State),
    only_records st (snd (DataIngestion.fetch_tickers w i ts answers st)).
Proof.
  induction ts as [| ticker rest IH]; intros i st; cbn [DataIngestion.fetch_tickers].
  - apply only_records_refl.
  - rewrite get_financial_data_shape.
    pose proof (through_cache_records w ("financial:" +:+ ticker) 1800 ∅
                  (DataIngestion.answer answers (i * 2)) st) as F1.
    destruct (through_cache w ("financial:" +:+ ticker) 1800 ∅ _ st) as [fin st1].
    rewrite get_news_sentiment_shape.
    pose proof (through_cache_records w ("news:" +:+ ticker) 3600
                  DataIngestion.neutral_sentiment
                  (DataIngestion.answer answers (i * 2 + 1)) st1) as F2.
    destruct (through_cache w ("news:" +:+ ticker) 3600 _ _ st1) as [nws st2].
    specialize (IH (S i) st2).
    destruct (DataIngestion.fetch_tickers w (S i) rest answers st2) as [results st3].
    cbn [snd] in *.
    eapply only_records_trans; [| exact IH].
    eapply only_records_trans; [apply F1 | apply F2].
    + left. exists ticker. reflexivity.
    + right. left. exists ticker. reflexivity.
Qed.

Lemma gather_signals_records (w : World) (n : nat) (st : State) :
  only_records st (snd (DataIngestion.gather_signals w n st)).
Proof.
  unfold DataIngestion.gather_signals.
  destruct (signal_source w n) as [| answers]; [apply only_records_refl |].
  pose proof (fetch_tickers_records w DataIngestion.tickers answers 0 st) as F1.
  destruct (DataIngestion.fetch_tickers w 0 DataIngestion.tickers answers st)
    as [results st1].
  rewrite get_macro_data_shape.
  pose proof (through_cache_records w "macro_data" 7200 ∅
                (DataIngestion.answer answers (length DataIngestion.tickers * 2)) st1)
    as F2.
  destruct (through_cache w "macro_data" 7200 ∅ _ st1) as [macro_data st2].
  cbn [snd] in *.
  eapply only_records_trans; [exact F1 | apply F2].
  right. right. reflexivity.
Qed.

(** The keys of the service itself are none of the fetchers. *)
Lemma latest_scores_no_fetch_key : ~ fetch_key "json:latest_scores".
Proof. intros [[t H] | [[t H] | H]]; discriminate. Qed.

Lemma latest_data_no_fetch_key : ~ fetch_key "json:latest_data".
Proof. intros [[t H] | [[t H] | H]]; discriminate. Qed.

Lemma history_no_fetch_key (ticker : string) :
  ~ fetch_key ("json:history:" +:+ ticker).
Proof. intros [[t H] | [[t H] | H]]; discriminate. Qed.

Lemma only_records_lookup (st st' : State) (key : string) :
  only_records st st' -> ~ fetch_key key -> redis st' !! key = redis st !! key.
Proof. intros [_ R] Hkey. destruct (R key) as [E | [H _]]; [exact E | contradiction]. Qed.

Lemma only_records_bounded (st st' : State) :
  only_records st st' -> history_bounded st -> history_bounded st'.
Proof.
  intros [_ R] Hst key ttl h H.
  destruct (R key) as [E | (_ & ttl' & r & E)]; rewrite E in H.
  - exact (Hst _ _ _ H).
  - discriminate.
Qed.

Lemma ingest_frame (w : World) (n : nat) (st : State) :
  same_service st (snd (DataIngestion.ingest_all_data w n st)).
Proof.
  unfold DataIngestion.ingest_all_data.
  pose proof (gather_signals_records w n st) as [G _].
  destruct (DataIngestion.gather_signals w n st) as [[| results] st1];
    cbn [snd] in *; [exact G |].
  match goal with |- context [Cache.set_json w ?k ?v ?t st1] =>
    pose proof (set_json_frame w k v t st1) as F;
    destruct (Cache.set_json w k v t st1) as [ok st2] end.
  cbn [snd] in *. eapply same_service_trans; eassumption.
Qed.

Lemma ingest_data (w : World) (n : nat) (st : State) :
  fst (DataIngestion.ingest_all_data w n st) =
    match fst (DataIngestion.gather_signals w n st) with
    | GatherRaises => None
    | Gathered results => Some (DataIngestion.assemble results (clock st))
    end.
Proof.
  unfold DataIngestion.ingest_all_data.
  pose proof (gather_signals_records w n st) as [(_ & _ & C & _) _].
  destruct (DataIngestion.gather_signals w n st) as [[| results] st1];
    cbn [fst snd] in *; [reflexivity |].
  destruct (Cache.set_json w _ _ _ st1). rewrite C. reflexivity.
Qed.

(** The ingestion changes redis under the keys of the fetchers and
    under "latest_data" only. *)
Lemma ingest_lookup (w : World) (n : nat) (st : State) (key : string) :
  ~ fetch_key key -> key <> "json:latest_data"%string ->
  redis (snd (DataIngestion.ingest_all_data w n st)) !! key = redis st !! key.
Proof.
  intros Hkey Hne. unfold DataIngestion.ingest_all_data.
  pose proof (gather_signals_records w n st) as G.
  destruct (DataIngestion.gather_signals w n st) as [[| results] st1];
    cbn [snd] in *.
  - apply (only_records_lookup _ _ _ G Hkey).
  - rewrite set_json_spec.
    rewrite <- (only_records_lookup _ _ _ G Hkey).
    destruct (redis_ok w (redis_ops st1)); cbn [snd redis set_redis]; [| reflexivity].
    apply lookup_insert_ne. intros E. apply Hne. rewrite <- E. reflexivity.
Qed.

(** ** One refresh *)

Lemma finish_spec (w : World) (credit_scorer : CreditScorer)
    (data : IngestedData) (scores : odict ScoreResult) (st : State) :
  let out := ProcessingService.finish w data scores st in
  fst out = ProcessingService.Finished (DBatch (batch_of data scores (clock st)))
  /\ processing (snd out) = false
  /\ clock (snd out) = clock st
  /\ ingest_runs (snd out) = ingest_runs st
  /\ scoring_runs (snd out) = scoring_runs st.
Proof.
  unfold ProcessingService.finish.
  pose proof (set_json_frame w "latest_scores"
                (DBatch {| scores := scores; data_timestamp := Some (timestamp data);
                           processing_timestamp := clock st;
                           ticker_count := length scores |}) 3600 st) as F1.
  destruct (Cache.set_json w "latest_scores" _ 3600 st) as [ok st1].
  simpl in F1.
  pose proof (store_loop_frame w (clock st1) scores st1) as F2.
  unfold ProcessingService._store_historical_scores. simpl.
  destruct F1 as (_ & _ & C1 & I1 & S1). destruct F2 as (_ & _ & C2 & I2 & S2).
  repeat split; try reflexivity; congruence.
Qed.

Lemma after_ingest_spec (w : World) (credit_scorer : CreditScorer) (n : nat) (st : State) :
  let out := ProcessingService.after_ingest w n st in
  clock (snd out) = clock st
  /\ ingest_runs (snd out) = ingest_runs st
  /\ match fst (DataIngestion.gather_signals w n st) with
     | GatherRaises =>
         fst out = ProcessingService.Finished DEmpty /\ processing (snd out) = false
     | Gathered results =>
         let data := DataIngestion.assemble results (clock st) in
         match tasks_of data with
         | [] =>
             fst out = ProcessingService.Finished (DBatch (batch_of data [] (clock st)))
             /\ processing (snd out) = false
         | tasks =>
             fst out = ProcessingService.AwaitingScores n data tasks
             /\ processing (snd out) = processing st
         end
     end.
Proof.
  unfold ProcessingService.after_ingest.
  pose proof (ingest_data w n st) as D. pose proof (ingest_frame w n st) as F.
  destruct (DataIngestion.ingest_all_data w n st) as [data st1].
  cbn [fst snd] in D, F.
  destruct F as (P1 & _ & C1 & I1 & S1).
  destruct (fst (DataIngestion.gather_signals w n st)) as [| results];
    subst data; cbv zeta.
  - cbn [fst snd]. auto.
  - change (ProcessingService.make_tasks _ _ _ _)
      with (tasks_of (DataIngestion.assemble results (clock st))).
    destruct (tasks_of (DataIngestion.assemble results (clock st))) as [| t ts] eqn:T.
    + destruct (finish_spec w credit_scorer
                  (DataIngestion.assemble results (clock st)) [] st1)
        as (R & P & C & I & _).
      rewrite R, P, C, I, C1. auto.
    + cbn [fst snd]. auto.
Qed.

Lemma after_scores_spec (w : World) (credit_scorer : CreditScorer)
    (n : nat) (data : IngestedData) (tasks : list ProcessingService.task) (st : State) :
  let out := ProcessingService.after_scores w credit_scorer n data tasks st in
  processing (snd out) = false
  /\ clock (snd out) = clock st
  /\ ingest_runs (snd out) = ingest_runs st
  /\ fst out =
       ProcessingService.Finished
         (if gather_ok w n
          then DBatch (batch_of data
                 (ProcessingService.collect
                    (ProcessingService._calculate_score_async w credit_scorer n (clock st)
                       <$> tasks) [])
                 (clock st))
          else DEmpty).
Proof.
  unfold ProcessingService.after_scores.
  destruct (gather_ok w n).
  - destruct (finish_spec w credit_scorer data
                (ProcessingService.collect
                   (ProcessingService._calculate_score_async w credit_scorer n (clock st)
                      <$> tasks) []) st) as (R & P & C & I & _).
    auto.
  - simpl. auto.
Qed.

(** A refresh that finds the guard free returns [refresh_document] and
    leaves the guard free. *)
Lemma process_all_scores_free (w : World) (credit_scorer : CreditScorer) (st : State) :
  processing st = false ->
  let out := ProcessingService.process_all_scores w credit_scorer st in
  fst out = refresh_document w credit_scorer st
  /\ processing (snd out) = false
  /\ ingest_runs (snd out) = S (ingest_runs st)
  /\ clock (snd out) = clock st.
Proof.
  intros Hfree.
  unfold ProcessingService.process_all_scores, refresh_document, gathered.
  cbn [ProcessingService.resume]. unfold ProcessingService.enter. rewrite Hfree.
  cbv zeta. cbn [ProcessingService.resume].
  change (ingest_runs (set_processing true st)) with (ingest_runs st).
  set (st1 := count_ingest (set_processing true st)).
  pose proof (after_ingest_spec w credit_scorer (ingest_runs st) st1) as A.
  cbv zeta in A. change (clock st1) with (clock st) in A.
  change (ingest_runs st1) with (S (ingest_runs st)) in A.
  destruct (ProcessingService.after_ingest w (ingest_runs st) st1) as [p2 st2].
  cbn [fst snd] in A. destruct A as (C2 & I2 & A).
  destruct (fst (DataIngestion.gather_signals w (ingest_runs st) st1)) as [| results].
  - destruct A as [-> P2]. cbn. auto.
  - destruct (tasks_of (DataIngestion.assemble results (clock st))) as [| t ts] eqn:T.
    + destruct A as [-> P2]. cbn. auto.
    + destruct A as [-> P2]. cbn [ProcessingService.resume].
      pose proof (after_scores_spec w credit_scorer (ingest_runs st)
                    (DataIngestion.assemble results (clock st)) (t :: ts) st2) as B.
      destruct (ProcessingService.after_scores w credit_scorer (ingest_runs st)
                  (DataIngestion.assemble results (clock st)) (t :: ts) st2) as [p3 st3].
      cbn [fst snd] in B. destruct B as (P3 & C3 & I3 & ->).
      cbn [ProcessingService.result_of fst snd].
      rewrite C2. repeat split; try assumption; congruence.
Qed.


(** ** Interleavings *)

Lemma flights_app (ps qs : list ProcessingService.pas_point) :
  flights (ps ++ qs) = (flights ps + flights qs)%nat.
Proof. induction ps as [| p ps IH]; simpl; [reflexivity | rewrite IH; lia]. Qed.

Lemma flights_insert (ps : list ProcessingService.pas_point) (i : nat)
    (p p' : ProcessingService.pas_point) :
  ps !! i = Some p ->
  (flights (<[ i := p' ]> ps) + flight_weight p = flights ps + flight_weight p')%nat.
Proof.
  revert i. induction ps as [| q ps IH]; intros i H; [discriminate |].
  destruct i as [| i]; simpl in *.
  - injection H as ->. unfold flight_weight. lia.
  - specialize (IH i H). lia.
Qed.

Lemma flights_none (ps : list ProcessingService.pas_point) :
  Forall (λ p, ProcessingService.unfinished p = false) ps -> flights ps = 0%nat.
Proof.
  induction 1 as [| p ps Hp _ IH]; simpl; [reflexivity |].
  rewrite IH. destruct p; simpl in *; congruence.
Qed.

Lemma flights_some (ps : list ProcessingService.pas_point) :
  (0 < flights ps)%nat <->
  exists i p, ps !! i = Some p /\ ProcessingService.in_flight p = true.
Proof.
  induction ps as [| q ps IH]; simpl.
  - split; [lia | intros (i & p & H & _); discriminate].
  - split.
    + intros H. destruct (ProcessingService.in_flight q) eqn:Q.
      * exists 0%nat, q. auto.
      * destruct (proj1 IH ltac:(lia)) as (i & p & Hi & Hp).
        exists (S i), p. auto.
    + intros (i & p & Hi & Hp). destruct i as [| i]; simpl in Hi.
      * injection Hi as ->. rewrite Hp. lia.
      * assert (0 < flights ps)%nat by (apply IH; eauto). lia.
Qed.

(** The effect of one stretch on the flag, by the point it starts at. *)
Lemma resume_flag (w : World) (credit_scorer : CreditScorer)
    (p : ProcessingService.pas_point) (st : State) :
  let out := ProcessingService.resume w credit_scorer p st in
  match p with
  | ProcessingService.AtEntry =>
      processing (snd out) = true
      /\ ProcessingService.in_flight (fst out) = negb (processing st)
  | ProcessingService.Finished _ =>
      processing (snd out) = processing st
      /\ ProcessingService.in_flight (fst out) = false
  | _ =>
      (ProcessingService.in_flight (fst out) = true
       /\ processing (snd out) = processing st)
      \/ (ProcessingService.in_flight (fst out) = false
          /\ processing (snd out) = false)
  end.
Proof.
  destruct p as [| n | n data tasks | result]; simpl.
  - unfold ProcessingService.enter. destruct (processing st) eqn:P.
    + rewrite get_json_spec. simpl. auto.
    + simpl. auto.
  - pose proof (after_ingest_spec w credit_scorer n st) as A. simpl in A.
    destruct A as (_ & _ & A).
    destruct (fst (DataIngestion.gather_signals w n st)) as [| results].
    + destruct A as [-> ->]. auto.
    + destruct (tasks_of _); destruct A as [-> ->]; auto.
  - pose proof (after_scores_spec w credit_scorer n data tasks st) as B. simpl in B.
    destruct B as (-> & _ & _ & ->). auto.
  - auto.
Qed.

Lemma sched_step_invariant (w : World) (credit_scorer : CreditScorer)
    (c c' : State * list ProcessingService.pas_point) :
  ProcessingService.sched_step w credit_scorer c c' ->
  flag_tracks_flights c -> flag_tracks_flights c'.
Proof.
  unfold flag_tracks_flights.
  destruct 1 as [st ps i p p' st' Hi Hun Hres | st ps | st ps d Hd]; simpl; intros Inv.
  - pose proof (flights_insert ps i p p' Hi) as F.
    pose proof (resume_flag w credit_scorer p st) as R. rewrite Hres in R.
    cbn [fst snd] in R. unfold flight_weight in F.
    destruct p as [| n | n data tasks | result];
      cbn [ProcessingService.in_flight ProcessingService.unfinished] in *;
      try discriminate.
    + destruct R as [R1 R2]. rewrite R1. rewrite R2 in F.
      destruct (processing st); cbn [negb] in F; lia.
    + destruct R as [[R1 R2] | [R1 R2]]; rewrite R1 in F; rewrite R2;
        destruct (processing st); lia.
    + destruct R as [[R1 R2] | [R1 R2]]; rewrite R1 in F; rewrite R2;
        destruct (processing st); lia.
  - rewrite flights_app. simpl. lia.
  - exact Inv.
Qed.

Lemma sched_reach_invariant (w : World) (credit_scorer : CreditScorer)
    (c c' : State * list ProcessingService.pas_point) :
  ProcessingService.sched_reach w credit_scorer c c' ->
  flag_tracks_flights c -> flag_tracks_flights c'.
Proof.
  induction 1 as [| c1 c2 _ IH Hstep]; intros Inv; [exact Inv |].
  eapply sched_step_invariant; eauto.
Qed.

(** ** Keys of the score mapping *)

Lemma calculate_score_ticker (self : CreditScorer) (ticker : string)
    (financial_data news_data macro_data : Py.dict) (now : Time) :
  sr_ticker (calculate_score self ticker financial_data news_data macro_data now)
    = if is_trained self then ticker else "UNKNOWN"%string.
Proof.
  unfold calculate_score, calculate_score_try.
  destruct (is_trained self); simpl.
  - unfold obind.
    destruct (score_model self ticker financial_data news_data macro_data now)
      as [[tiered r] |] eqn:E; simpl.
    + destruct (score_model_returns _ _ _ _ _ _ _ _ E) as (Ht & _). exact Ht.
    + apply fallback_ticker.
  - apply fallback_ticker.
Qed.

Lemma elem_of_okeys_oset {V : Type} (k : string) (v : V) (d : odict V) (x : string) :
  x ∈ okeys (oset k v d) <-> x = k \/ x ∈ okeys d.
Proof.
  unfold okeys. induction d as [| [k' v'] rest IH]; simpl.
  - rewrite list_elem_of_singleton, elem_of_nil. tauto.
  - destruct (String.eqb_spec k' k) as [-> | Hne]; simpl.
    + rewrite !elem_of_cons. tauto.
    + rewrite !elem_of_cons, IH. tauto.
Qed.

Lemma oset_NoDup {V : Type} (k : string) (v : V) (d : odict V) :
  NoDup (okeys d) -> NoDup (okeys (oset k v d)).
Proof.
  unfold okeys. induction d as [| [k' v'] rest IH]; simpl; intros H.
  - apply NoDup_singleton.
  - apply NoDup_cons in H as [Hnotin Hrest].
    destruct (String.eqb_spec k' k) as [-> | Hne]; simpl.
    + apply NoDup_cons. auto.
    + apply NoDup_cons. split; [| auto].
      intros Hin. apply (elem_of_okeys_oset k v rest k') in Hin.
      destruct Hin as [-> | Hin]; [congruence | contradiction].
Qed.

Lemma elem_of_oset {V : Type} (k : string) (v : V) (d : odict V) (k' : string) (v' : V) :
  (k', v') ∈ oset k v d -> (k' = k /\ v' = v) \/ (k', v') ∈ d.
Proof.
  induction d as [| [k0 v0] rest IH]; simpl.
  - rewrite list_elem_of_singleton. intros [= -> ->]. auto.
  - destruct (String.eqb_spec k0 k) as [-> | Hne]; rewrite !elem_of_cons.
    + intros [[= -> ->] | H]; auto.
    + intros [H | H]; auto. destruct (IH H); auto.
Qed.

Lemma collect_NoDup (results : list ProcessingService.task_result)
    (acc : odict ScoreResult) :
  NoDup (okeys acc) -> NoDup (okeys (ProcessingService.collect results acc)).
Proof.
  revert acc. induction results as [| [r | |] rest IH]; intros acc H; simpl; auto.
  apply IH, oset_NoDup, H.
Qed.

Lemma collect_elem (results : list ProcessingService.task_result)
    (acc : odict ScoreResult) (k : string) (r : ScoreResult) :
  (k, r) ∈ ProcessingService.collect results acc ->
  (k, r) ∈ acc \/ (ProcessingService.TResult r ∈ results /\ k = sr_ticker r).
Proof.
  revert acc. induction results as [| [r0 | |] rest IH]; intros acc H; simpl in H.
  - auto.
  - destruct (IH _ H) as [Hacc | [Hin ->]].
    + destruct (elem_of_oset _ _ _ _ _ Hacc) as [[-> ->] | Hacc']; auto.
      right. split; [apply list_elem_of_here | reflexivity].
    + right. split; [apply list_elem_of_further, Hin | reflexivity].
  - destruct (IH _ H) as [Hacc | [Hin ->]]; auto.
    right. split; [apply list_elem_of_further, Hin | reflexivity].
  - destruct (IH _ H) as [Hacc | [Hin ->]]; auto.
    right. split; [apply list_elem_of_further, Hin | reflexivity].
Qed.

Lemma make_tasks_elem (keys : list string) (financial_data : odict Py.dict)
    (news_data : gmap string Py.dict) (macroData : Py.dict)
    (t : ProcessingService.task) :
  t ∈ ProcessingService.make_tasks keys financial_data news_data macroData ->
  ProcessingService.t_ticker t ∈ keys
  /\ ProcessingService.t_financial t
       = default ∅ (oget (ProcessingService.t_ticker t) financial_data)
  /\ ProcessingService.t_financial t <> ∅.
Proof.
  induction keys as [| ticker rest IH]; simpl.
  - intros H. apply elem_of_nil in H. contradiction.
  - destruct (bool_decide (default ∅ (oget ticker financial_data) = ∅)) eqn:E.
    + intros H. destruct (IH H) as (H1 & H2 & H3).
      split; [apply list_elem_of_further, H1 | auto].
    + apply bool_decide_eq_false in E.
      rewrite elem_of_cons. intros [-> | H]; simpl.
      * split; [apply list_elem_of_here | auto].
      * destruct (IH H) as (H1 & H2 & H3).
        split; [apply list_elem_of_further, H1 | auto].
Qed.

Lemma scored_task (w : World) (credit_scorer : CreditScorer) (n : nat) (now : Time)
    (tasks : list ProcessingService.task) (r : ScoreResult) :
  ProcessingService.TResult r
    ∈ (ProcessingService._calculate_score_async w credit_scorer n now <$> tasks) ->
  exists t, t ∈ tasks
    /\ executor w n (ProcessingService.t_ticker t) = Ran
    /\ r = calculate_score credit_scorer (ProcessingService.t_ticker t)
             (ProcessingService.t_financial t) (ProcessingService.t_news t)
             (ProcessingService.t_macro t) now.
Proof.
  intros H. apply list_elem_of_fmap in H as (t & Ht & Hin).
  exists t. split; [exact Hin |].
  unfold ProcessingService._calculate_score_async in Ht.
  destruct (executor w n (ProcessingService.t_ticker t)); try discriminate.
  injection Ht as ->. auto.
Qed.

Lemma unknown_not_tracked : "UNKNOWN"%string ∉ DataIngestion.tickers.
Proof.
  unfold DataIngestion.tickers. intros H.
  repeat (apply elem_of_cons in H as [H | H]; [discriminate |]).
  apply elem_of_nil in H. exact H.
Qed.

(** The batch returned by a refresh, in terms of what was ingested. *)
Lemma refresh_document_batch (w : World) (credit_scorer : CreditScorer)
    (st : State) (b : ProcessedData) :
  refresh_document w credit_scorer st = DBatch b ->
  exists results,
    gathered w st = Gathered results
    /\ b = batch_of (DataIngestion.assemble results (clock st))
             (ProcessingService.collect
                (ProcessingService._calculate_score_async w credit_scorer
                   (ingest_runs st) (clock st)
                   <$> tasks_of (DataIngestion.assemble results (clock st))) [])
             (clock st).
Proof.
  unfold refresh_document.
  destruct (gathered w st) as [| results]; [discriminate |].
  intros H. exists results. split; [reflexivity |].
  destruct (tasks_of (DataIngestion.assemble results (clock st))) as [| t ts].
  - injection H as <-. reflexivity.
  - destruct (gather_ok w (ingest_runs st)); [| discriminate].
    injection H as <-. reflexivity.
Qed.

(** ** History *)

Lemma length_last_n {A : Type} (n : nat) (l : list A) : (length (last_n n l) <= n)%nat.
Proof. unfold last_n. rewrite length_drop. lia. Qed.

Lemma last_n_short {A : Type} (n : nat) (l : list A) :
  (length l <= n)%nat -> last_n n l = l.
Proof.
  intros H. unfold last_n. replace (length l - n)%nat with 0%nat by lia. reflexivity.
Qed.

Lemma truncate_last_n {A : Type} (l : list A) :
  (if bool_decide (100 < length l)%nat then last_n 100 l else l) = last_n 100 l.
Proof.
  destruct (bool_decide (100 < length l)%nat) eqn:E; [reflexivity |].
  apply bool_decide_eq_false in E. symmetry. apply last_n_short. lia.
Qed.

Lemma history_bounded_insert (st : State) (key : string) (ttl : Z) (d : document) :
  history_bounded st ->
  (forall h, d = DList h -> (length h <= 100)%nat) ->
  history_bounded (set_redis (<[ key := (ttl, d) ]> (redis st)) st).
Proof.
  intros Hst Hd key' ttl' h. simpl.
  rewrite lookup_insert_Some. intros [[_ [= _ E]] | [_ H]].
  - exact (Hd h E).
  - exact (Hst _ _ _ H).
Qed.

Lemma history_bounded_set_json (w : World) (key : string) (d : document) (ttl : Z)
    (st : State) :
  history_bounded st ->
  (forall h, d = DList h -> (length h <= 100)%nat) ->
  history_bounded (snd (Cache.set_json w key d ttl st)).
Proof.
  intros Hst Hd. rewrite set_json_spec.
  destruct (redis_ok w (redis_ops st)); simpl.
  - apply history_bounded_insert; assumption.
  - exact Hst.
Qed.

Lemma history_bounded_store_one (w : World) (now : Time) (ticker : string)
    (score_data : ScoreResult) (st : State) :
  history_bounded st ->
  history_bounded (snd (ProcessingService.store_one w now ticker score_data st)).
Proof.
  intros Hst. unfold ProcessingService.store_one. rewrite get_json_spec.
  set (cached := if redis_ok w (redis_ops st) then _ else _).
  assert (Hst1 : history_bounded (set_redis (redis st) st)) by exact Hst.
  destruct (or_else cached (DList [])); simpl; try exact Hst1.
  rewrite truncate_last_n.
  match goal with |- context [Cache.set_json w ?k ?v ?t ?s] =>
    pose proof (history_bounded_set_json w k v t s Hst1) as B;
    destruct (Cache.set_json w k v t s) as [ok st2] end.
  simpl in *. apply B. intros h0 [= <-]. apply length_last_n.
Qed.

Lemma history_bounded_store_loop (w : World) (now : Time)
    (items : odict ScoreResult) (st : State) :
  history_bounded st -> history_bounded (ProcessingService.store_loop w now items st).
Proof.
  revert st. induction items as [| [ticker score_data] rest IH]; intros st Hst; simpl.
  - exact Hst.
  - pose proof (history_bounded_store_one w now ticker score_data st Hst) as B.
    destruct (ProcessingService.store_one w now ticker score_data st) as [[u |] st'];
      simpl in B; auto.
Qed.

Lemma history_bounded_finish (w : World) (credit_scorer : CreditScorer)
    (data : IngestedData) (scores : odict ScoreResult) (st : State) :
  history_bounded st ->
  history_bounded (snd (ProcessingService.finish w data scores st)).
Proof.
  intros Hst. unfold ProcessingService.finish.
  match goal with |- context [Cache.set_json w ?k ?v ?t st] =>
    pose proof (history_bounded_set_json w k v t st Hst) as B;
    destruct (Cache.set_json w k v t st) as [ok st1] end.
  simpl in *.
  assert (B1 : history_bounded st1) by (apply B; discriminate).
  exact (history_bounded_store_loop w (clock st1) scores st1 B1).
Qed.

Lemma ingest_bounded (w : World) (n : nat) (st : State) :
  history_bounded st ->
  history_bounded (snd (DataIngestion.ingest_all_data w n st)).
Proof.
  intros Hst. unfold DataIngestion.ingest_all_data.
  pose proof (gather_signals_records w n st) as G.
  destruct (DataIngestion.gather_signals w n st) as [[| results] st1];
    cbn [snd] in *.
  - exact (only_records_bounded _ _ G Hst).
  - match goal with |- context [Cache.set_json w ?k ?v ?t st1] =>
      pose proof (history_bounded_set_json w k v t st1
                    (only_records_bounded _ _ G Hst)) as B;
      destruct (Cache.set_json w k v t st1) as [ok st2] end.
    cbn [snd] in *. apply B. discriminate.
Qed.

Lemma history_bounded_resume (w : World) (credit_scorer : CreditScorer)
    (p : ProcessingService.pas_point) (st : State) :
  history_bounded st ->
  history_bounded (snd (ProcessingService.resume w credit_scorer p st)).
Proof.
  intros Hst. destruct p as [| n | n data tasks | result]; simpl.
  - unfold ProcessingService.enter. destruct (processing st).
    + rewrite get_json_spec. exact Hst.
    + exact Hst.
  - unfold ProcessingService.after_ingest.
    pose proof (ingest_bounded w n st Hst) as B1.
    destruct (DataIngestion.ingest_all_data w n st) as [[data |] st1];
      cbn [snd] in B1; [| exact B1].
    destruct (ProcessingService.make_tasks _ _ _ _).
    + apply (history_bounded_finish w credit_scorer); exact B1.
    + exact B1.
  - unfold ProcessingService.after_scores. destruct (gather_ok w n).
    + apply (history_bounded_finish w credit_scorer); exact Hst.
    + exact Hst.
  - exact Hst.
Qed.

Lemma history_bounded_elapse (d : Z) (st : State) :
  history_bounded st -> history_bounded (elapse d st).
Proof.
  intros Hst key ttl h. simpl. rewrite lookup_fmap_Some.
  intros ([ttl0 doc] & E & H). cbn [fst snd] in E.
  injection E as _ ->.
  apply map_lookup_filter_Some in H as [H _]. exact (Hst _ _ _ H).
Qed.

Lemma history_bounded_reach (w : World) (credit_scorer : CreditScorer)
    (c c' : State * list ProcessingService.pas_point) :
  ProcessingService.sched_reach w credit_scorer c c' ->
  history_bounded (fst c) -> history_bounded (fst c').
Proof.
  induction 1 as [| c1 c2 _ IH Hstep]; intros Hc; [exact Hc |].
  specialize (IH Hc).
  destruct Hstep as [st ps i p p' st' _ _ Hres | st ps | st ps d _]; simpl in *.
  - pose proof (history_bounded_resume w credit_scorer p st IH) as B.
    rewrite Hres in B. exact B.
  - exact IH.
  - apply history_bounded_elapse, IH.
Qed.

(** A successful append stores the last 100 entries of the extended
    list. *)
Lemma store_one_appends (w : World) (now : Time) (ticker : string)
    (score_data : ScoreResult) (st : State) (history : list HistoricalPoint) :
  redis_ok w (redis_ops st) = true ->
  redis_ok w (S (redis_ops st)) = true ->
  stored_history ticker st = Some history ->
  stored_history ticker (snd (ProcessingService.store_one w now ticker score_data st))
    = Some (last_n 100 (history ++ [entry_of now score_data])).
Proof.
  intros Hread Hwrite Hstored.
  unfold ProcessingService.store_one. rewrite get_json_spec, Hread.
  change ("json:" +:+ "history:" +:+ ticker)%string
    with ("json:history:" +:+ ticker)%string.
  unfold stored_history in Hstored.
  assert (O : or_else (snd <$> redis st !! ("json:history:" +:+ ticker)%string) (DList [])
              = DList history).
  { destruct (redis st !! ("json:history:" +:+ ticker)%string)
      as [[ttl [| d | b | [| x h] | r]] |]; cbn in Hstored |- *;
      try congruence; destruct (bool_decide (r = ∅)); cbn in *; congruence. }
  rewrite O. rewrite truncate_last_n, set_json_spec.
  cbn [redis_ops set_redis]. rewrite Hwrite. cbn [snd].
  unfold stored_history. cbn [redis set_redis].
  change ("json:" +:+ "history:" +:+ ticker)%string
    with ("json:history:" +:+ ticker)%string.
  rewrite lookup_insert_eq. reflexivity.
Qed.

Lemma get_ticker_history_spec (w : World) (ticker : string) (st : State) :
  let out := fst (ProcessingService.get_ticker_history w ticker st) in
  (length out <= 50)%nat
  /\ (redis st !! ("json:history:" +:+ ticker)%string = None -> out = [])
  /\ (forall history,
        redis_ok w (redis_ops st) = true ->
        stored_history ticker st = Some history ->
        out = last_n 50 history).
Proof.
  unfold ProcessingService.get_ticker_history. rewrite get_json_spec.
  change ("json:" +:+ "history:" +:+ ticker)%string
    with ("json:history:" +:+ ticker)%string.
  unfold stored_history.
  set (cached := if redis_ok w (redis_ops st) then _ else _).
  repeat apply conj.
  - destruct (or_else cached (DList [])); simpl; try lia. apply length_last_n.
  - intros Hnone. subst cached. rewrite Hnone. simpl.
    destruct (redis_ok w (redis_ops st)); reflexivity.
  - intros history Hok Hstored. subst cached. rewrite Hok.
    assert (O : or_else (snd <$> redis st !! ("json:history:" +:+ ticker)%string)
                  (DList []) = DList history).
    { destruct (redis st !! ("json:history:" +:+ ticker)%string)
        as [[ttl [| d | b | [| x h] | r]] |]; cbn in Hstored |- *;
        try congruence; destruct (bool_decide (r = ∅)); cbn in *; congruence. }
    rewrite O. reflexivity.
Qed.

(** ** Ingested data without financial records *)

Lemma oget_elem {V : Type} (k : string) (d : odict V) (v : V) :
  oget k d = Some v -> (k, v) ∈ d.
Proof.
  induction d as [| [k' v'] rest IH]; simpl; [discriminate |].
  destruct (String.eqb_spec k' k) as [-> | Hne].
  - intros [= ->]. apply list_elem_of_here.
  - intros H. apply list_elem_of_further, IH, H.
Qed.

Lemma sort_results_financial (i : nat) (ts : list string)
    (results : list (outcome Py.dict))
    (financial_data : odict Py.dict) (news_data : gmap string Py.dict)
    (k : string) (d : Py.dict) :
  (k, d) ∈ fst (DataIngestion.sort_results i ts results financial_data news_data) ->
  (k, d) ∈ financial_data
  \/ exists j, results !! (j * 2)%nat = Some (Returns d).
Proof.
  revert i financial_data news_data.
  induction ts as [| ticker rest IH]; intros i financial_data news_data; simpl.
  - auto.
  - intros H. apply IH in H as [H | H]; [| auto].
    destruct (results !! (i * 2)%nat) as [[d0 |] |] eqn:E; auto.
    apply elem_of_oset in H as [[-> ->] | H]; eauto.
Qed.

Lemma make_tasks_none (keys : list string) (financial_data : odict Py.dict)
    (news_data : gmap string Py.dict) (macroData : Py.dict) :
  (forall k d, (k, d) ∈ financial_data -> d = ∅) ->
  ProcessingService.make_tasks keys financial_data news_data macroData = [].
Proof.
  intros Hempty. induction keys as [| ticker rest IH]; simpl; [reflexivity |].
  assert (E : default ∅ (oget ticker financial_data) = (∅ : Py.dict)).
  { destruct (oget ticker financial_data) as [d |] eqn:G; [| reflexivity].
    simpl. exact (Hempty _ _ (oget_elem _ _ _ G)). }
  rewrite E, bool_decide_eq_true_2 by reflexivity. exact IH.
Qed.

Lemma tasks_of_no_financial (results : list (outcome Py.dict)) (now : Time) :
  (forall i d, results !! (i * 2)%nat = Some (Returns d) -> d = ∅) ->
  tasks_of (DataIngestion.assemble results now) = [].
Proof.
  intros Hempty. unfold tasks_of.
  apply make_tasks_none. intros k d Hin.
  rewrite assemble_financial in Hin.
  apply sort_results_financial in Hin as [Hin | [j Hin]].
  - apply elem_of_nil in Hin. contradiction.
  - exact (Hempty _ _ Hin).
Qed.

(** ** What a refresh leaves in the cache *)

Lemma history_key_differs (ticker : string) :
  ("json:" +:+ "history:" +:+ ticker)%string <> "json:latest_scores"%string.
Proof. simpl. discriminate. Qed.

Lemma store_one_latest (w : World) (now : Time) (ticker : string)
    (score_data : ScoreResult) (st : State) :
  redis (snd (ProcessingService.store_one w now ticker score_data st))
    !! "json:latest_scores"%string
  = redis st !! "json:latest_scores"%string.
Proof.
  unfold ProcessingService.store_one. rewrite get_json_spec.
  set (cached := if redis_ok w (redis_ops st) then _ else _).
  destruct (or_else cached (DList [])); simpl; try reflexivity.
  rewrite set_json_spec. simpl.
  destruct (redis_ok w (S (redis_ops st))); simpl; [| reflexivity].
  apply lookup_insert_ne, history_key_differs.
Qed.

Lemma store_loop_latest (w : World) (now : Time) (items : odict ScoreResult) (st : State) :
  redis (ProcessingService.store_loop w now items st) !! "json:latest_scores"%string
  = redis st !! "json:latest_scores"%string.
Proof.
  revert st. induction items as [| [ticker score_data] rest IH]; intros st; simpl.
  - reflexivity.
  - pose proof (store_one_latest w now ticker score_data st) as L.
    destruct (ProcessingService.store_one w now ticker score_data st) as [[u |] st'];
      simpl in L; [rewrite IH |]; exact L.
Qed.

Lemma finish_persists (w : World) (credit_scorer : CreditScorer)
    (data : IngestedData) (scores : odict ScoreResult) (st : State) :
  redis_ok w (redis_ops st) = true ->
  redis (snd (ProcessingService.finish w data scores st)) !! "json:latest_scores"%string
    = Some (3600, DBatch (batch_of data scores (clock st))).
Proof.
  intros Hok. unfold ProcessingService.finish. rewrite set_json_spec, Hok. simpl.
  unfold ProcessingService._store_historical_scores.
  rewrite store_loop_latest. simpl. apply lookup_insert_eq.
Qed.

(** With redis reachable, the batch returned by a refresh is the one
    found under "latest_scores" afterwards. *)
Lemma refresh_persists (w : World) (credit_scorer : CreditScorer)
    (st : State) (b : ProcessedData) :
  (forall n, redis_ok w n = true) ->
  processing st = false ->
  fst (ProcessingService.process_all_scores w credit_scorer st) = DBatch b ->
  redis (snd (ProcessingService.process_all_scores w credit_scorer st))
    !! "json:latest_scores"%string = Some (3600, DBatch b).
Proof.
  intros Hok Hfree. unfold ProcessingService.process_all_scores.
  cbn [ProcessingService.resume]. unfold ProcessingService.enter. rewrite Hfree.
  cbv zeta.
  set (st1 := count_ingest (set_processing true st)).
  cbn [ProcessingService.resume].
  unfold ProcessingService.after_ingest.
  destruct (DataIngestion.ingest_all_data w (ingest_runs (set_processing true st)) st1)
    as [[data |] st2]; [| cbn; discriminate].
  destruct (ProcessingService.make_tasks _ _ _ _) as [| t ts].
  - pose proof (finish_spec w credit_scorer data [] st2) as S.
    pose proof (finish_persists w credit_scorer data [] st2 (Hok _)) as P.
    destruct (ProcessingService.finish w data [] st2) as [p3 st3].
    cbn [fst snd] in S, P. destruct S as (-> & _).
    cbn [ProcessingService.resume ProcessingService.result_of fst snd].
    intros [= <-]. exact P.
  - cbn [ProcessingService.resume]. unfold ProcessingService.after_scores.
    destruct (gather_ok w _); [| cbn; discriminate].
    set (scored := ProcessingService.collect _ []).
    set (st2' := count_scoring (length (t :: ts)) st2).
    pose proof (finish_spec w credit_scorer data scored st2') as S.
    pose proof (finish_persists w credit_scorer data scored st2' (Hok _)) as P.
    destruct (ProcessingService.finish w data scored st2') as [p3 st3].
    cbn [fst snd] in S, P. destruct S as (-> & _).
    cbn [ProcessingService.resume ProcessingService.result_of fst snd].
    intros [= <-]. exact P.
Qed.

(** ** Feature extraction *)

Lemma replicate_zero_length :
  length (replicate (length feature_names) (FRaw (pfloat 0))) = 11%nat.
Proof. reflexivity. Qed.

Lemma py_max_returns (a : Py.value) (b : Py.num) (v : Py.value) :
  Py.max a b = Returns v ->
  exists n, a = Py.Num n /\ v = Py.Num (if Py.Qltb (Py.val n) (Py.val b) then b else n).
Proof.
  unfold Py.max, Py.lt, obind. destruct a as [| n | |]; try discriminate.
  intros [= <-]. exists n. split; [reflexivity |].
  destruct (Py.Qltb (Py.val n) (Py.val b)); reflexivity.
Qed.

Lemma py_min_returns (a : Py.value) (b : Py.num) (v : Py.value) :
  Py.min a b = Returns v ->
  exists n, a = Py.Num n /\ v = Py.Num (if Py.Qltb (Py.val b) (Py.val n) then b else n).
Proof.
  unfold Py.min, Py.gt, obind. destruct a as [| n | |]; try discriminate.
  intros [= <-]. exists n. split; [reflexivity |].
  destruct (Py.Qltb (Py.val b) (Py.val n)); reflexivity.
Qed.

Lemma py_max_raises (a : Py.value) (b : Py.num) :
  Py.max a b = Raises <-> is_number a = false.
Proof.
  unfold Py.max, Py.lt, obind. destruct a; simpl; split; congruence.
Qed.

Lemma py_min_raises (a : Py.value) (b : Py.num) :
  Py.min a b = Raises <-> is_number a = false.
Proof.
  unfold Py.min, Py.gt, obind. destruct a; simpl; split; congruence.
Qed.

(** What the [try] block of [_extract_features] returns when it
    returns: the four guarded fields are numbers, numpy accepts the two
    logarithms and the list of entries, and the row holds the clamped
    values and the other fields as they are. *)
Lemma extract_features_returns (self : CreditScorer)
    (financial_data news_data macro_data : Py.dict) (row : list feature) :
  extract_features_try self financial_data news_data macro_data = Returns row ->
  exists m de cr v : Py.num,
    Py.get financial_data "market_cap" (pfloat 1e9) = Py.Num m
    /\ Py.get financial_data "debt_to_equity" (pint 1) = Py.Num de
    /\ Py.get financial_data "current_ratio" (pint 1) = Py.Num cr
    /\ Py.get financial_data "volume_avg" (pfloat 1e6) = Py.Num v
    /\ row =
         [ FLog (Py.Num (if Py.Qltb (Py.val m) 1e6 then Py.Float 1e6 else m));
           FRaw (Py.Num (if Py.Qltb 10 (Py.val de) then Py.Int 10 else de));
           FRaw (Py.Num (if Py.Qltb (Py.val cr) 0.1 then Py.Float 0.1 else cr));
           FRaw (Py.get financial_data "roe" (pfloat 0.1));
           FRaw (Py.get financial_data "price_change_30d" (pint 0));
           FRaw (Py.get financial_data "volatility" (pint 1));
           FLog (Py.Num (if Py.Qltb (Py.val v) 1000 then Py.Int 1000 else v));
           FRaw (Py.get news_data "sentiment_score" (pfloat 0.5));
           FRaw (Py.get news_data "news_count" (pint 0));
           FRaw (Py.get macro_data "vix" (pint 20));
           FRaw (Py.get macro_data "treasury_10y" (pint 4)) ]
    /\ array_raises self row = false.
Proof.
  unfold extract_features_try, np_log, np_array.
  destruct (Py.max (Py.get financial_data "market_cap" (pfloat 1e9)) (Py.Float 1e6))
    as [m' |] eqn:E1; [| discriminate].
  apply py_max_returns in E1 as (m & E1 & ->). cbn [obind].
  destruct (log_raises self _); [discriminate |]. cbn [obind].
  destruct (Py.min (Py.get financial_data "debt_to_equity" (pint 1)) (Py.Int 10))
    as [de' |] eqn:E2; [| discriminate].
  apply py_min_returns in E2 as (de & E2 & ->). cbn [obind].
  destruct (Py.max (Py.get financial_data "current_ratio" (pint 1)) (Py.Float 0.1))
    as [cr' |] eqn:E3; [| discriminate].
  apply py_max_returns in E3 as (cr & E3 & ->). cbn [obind].
  destruct (Py.max (Py.get financial_data "volume_avg" (pfloat 1e6)) (Py.Int 1000))
    as [v' |] eqn:E4; [| discriminate].
  apply py_max_returns in E4 as (v & E4 & ->). cbn [obind].
  destruct (log_raises self _); [discriminate |]. cbn [obind].
  destruct (array_raises self _) eqn:A; [discriminate |].
  intros [= <-]. exists m, de, cr, v. auto 6.
Qed.

(** A guarded field that is no number makes the [try] block raise. *)
Lemma extract_features_guard (self : CreditScorer)
    (financial_data news_data macro_data : Py.dict) :
  extraction_inputs_numeric financial_data = false ->
  extract_features_try self financial_data news_data macro_data = Raises.
Proof.
  intros H.
  destruct (extract_features_try self financial_data news_data macro_data)
    as [row |] eqn:E; [| reflexivity].
  apply extract_features_returns in E as (m & de & cr & v & E1 & E2 & E3 & E4 & _).
  unfold extraction_inputs_numeric in H. rewrite E1, E2, E3, E4 in H. discriminate.
Qed.

(** ** Contributions *)

Lemma contributions_from_returns (names : list string) :
  forall (i : nat) (scaled importance : list Q) (acc c : gmap string Q),
    contributions_from i names scaled importance acc = Returns c ->
    dom c = dom acc ∪ list_to_set names
    /\ (names <> [] ->
        (i + length names <= length scaled)%nat
        /\ (i + length names <= length importance)%nat).
Proof.
  induction names as [| name rest IH]; intros i scaled importance acc c; simpl.
  - intros [= <-]. split; [set_solver | congruence].
  - unfold index, obind.
    destruct (scaled !! i) as [x |] eqn:Ex; [| discriminate].
    destruct (importance !! i) as [k |] eqn:Ek; [| discriminate].
    intros H. apply IH in H as [Hdom Hlen]. split.
    + rewrite Hdom, dom_insert_L. set_solver.
    + intros _. apply lookup_lt_Some in Ex, Ek.
      destruct rest as [| name' rest']; [simpl; lia |].
      destruct (Hlen ltac:(discriminate)) as [H1 H2]. simpl in *. lia.
Qed.

Lemma contributions_from_short (names : list string) :
  forall (i : nat) (scaled importance : list Q) (acc : gmap string Q),
    names <> [] ->
    (length scaled < i + length names)%nat
    \/ (length importance < i + length names)%nat ->
    contributions_from i names scaled importance acc = Raises.
Proof.
  intros i scaled importance acc Hne Hshort.
  destruct (contributions_from i names scaled importance acc) as [c |] eqn:E;
    [| reflexivity].
  apply contributions_from_returns in E as [_ Hlen].
  destruct (Hlen Hne). lia.
Qed.

Lemma score_model_contributions (self : CreditScorer) (ticker : string)
    (financial_data news_data macro_data : Py.dict) (now : Time)
    (tiered : Py.num) (result : ScoreResult) :
  score_model self ticker financial_data news_data macro_data now
    = Returns (tiered, result) ->
  dom (sr_contributions result) = list_to_set feature_names
  /\ (11 <= length (feature_importances_ self))%nat.
Proof.
  unfold score_model, obind.
  destruct (scaler_transform self _) as [scaled |]; [| discriminate].
  destruct (model_predict self scaled) as [raw |]; [| discriminate].
  destruct (contributions_from _ _ _ _ _) as [contributions |] eqn:C; [| discriminate].
  destruct (risk_of (clamp_score raw)) as [risk_level color].
  intros [= <- <-]. cbn [sr_contributions].
  apply contributions_from_returns in C as [Hdom Hlen]. split.
  - rewrite Hdom. set_solver.
  - destruct (Hlen ltac:(discriminate)) as [_ H]. exact H.
Qed.

Lemma risk_of_pairs (s : Py.num) :
  risk_of s = ("Low Risk", "green")%string
  \/ risk_of s = ("Medium Risk", "yellow")%string
  \/ risk_of s = ("High Risk", "red")%string.
Proof.
  unfold risk_of. destruct (Qle_bool 750 (Py.val s)); [auto |].
  destruct (Qle_bool 500 (Py.val s)); auto.
Qed.

(** ** Shape of the fallback rules *)

Lemma debt_adjustment_antitone (d d' : Q) :
  (d' <= d)%Q ->
  adjustment (Py.Qltb d 0.5) 100 + adjustment (Py.Qltb 2 d) (-150)
  <= adjustment (Py.Qltb d' 0.5) 100 + adjustment (Py.Qltb 2 d') (-150).
Proof.
  intros H. unfold adjustment.
  destruct (Py.Qltb d 0.5) eqn:A, (Py.Qltb 2 d) eqn:B,
    (Py.Qltb d' 0.5) eqn:C, (Py.Qltb 2 d') eqn:D; try lia;
    repeat match goal with
    | E : Py.Qltb _ _ = true |- _ => apply Qltb_lt in E
    | E : Py.Qltb _ _ = false |- _ => apply Qltb_ge in E
    end; lra.
Qed.

Lemma roe_adjustment_monotone (r r' : Q) :
  (r <= r')%Q ->
  adjustment (Py.Qltb 0.15 r) 100 + adjustment (Py.Qltb r 0) (-200)
  <= adjustment (Py.Qltb 0.15 r') 100 + adjustment (Py.Qltb r' 0) (-200).
Proof.
  intros H. unfold adjustment.
  destruct (Py.Qltb 0.15 r) eqn:A, (Py.Qltb r 0) eqn:B,
    (Py.Qltb 0.15 r') eqn:C, (Py.Qltb r' 0) eqn:D; try lia;
    repeat match goal with
    | E : Py.Qltb _ _ = true |- _ => apply Qltb_lt in E
    | E : Py.Qltb _ _ = false |- _ => apply Qltb_ge in E
    end; lra.
Qed.

Lemma sentiment_adjustment_monotone (s s' : Q) :
  (s <= s')%Q ->
  adjustment (Py.Qltb 0.6 s) 50 + adjustment (Py.Qltb s 0.4) (-50)
  <= adjustment (Py.Qltb 0.6 s') 50 + adjustment (Py.Qltb s' 0.4) (-50).
Proof.
  intros H. unfold adjustment.
  destruct (Py.Qltb 0.6 s) eqn:A, (Py.Qltb s 0.4) eqn:B,
    (Py.Qltb 0.6 s') eqn:C, (Py.Qltb s' 0.4) eqn:D; try lia;
    repeat match goal with
    | E : Py.Qltb _ _ = true |- _ => apply Qltb_lt in E
    | E : Py.Qltb _ _ = false |- _ => apply Qltb_ge in E
    end; lra.
Qed.

Lemma fallback_reference_monotone (d r s d' r' s' : Q) :
  (d' <= d)%Q -> (r <= r')%Q -> (s <= s')%Q ->
  fallback_reference d r s <= fallback_reference d' r' s'.
Proof.
  intros Hd Hr Hs. unfold fallback_reference.
  pose proof (debt_adjustment_antitone d d' Hd).
  pose proof (roe_adjustment_monotone r r' Hr).
  pose proof (sentiment_adjustment_monotone s s' Hs).
  lia.
Qed.

(** The reference score lies between 100 and 750, and reaches 750 only
    with all three favourable adjustments. *)
Lemma fallback_reference_values (d r s : Q) :
  100 <= fallback_reference d r s <= 750
  /\ (fallback_reference d r s = 750 <->
      (d < 0.5)%Q /\ (0.15 < r)%Q /\ (0.6 < s)%Q).
Proof.
  unfold fallback_reference, adjustment.
  destruct (Py.Qltb d 0.5) eqn:A, (Py.Qltb 2 d) eqn:B,
    (Py.Qltb 0.15 r) eqn:C, (Py.Qltb r 0) eqn:D,
    (Py.Qltb 0.6 s) eqn:E, (Py.Qltb s 0.4) eqn:F;
    repeat match goal with
    | H : Py.Qltb _ _ = true |- _ => apply Qltb_lt in H
    | H : Py.Qltb _ _ = false |- _ => apply Qltb_ge in H
    end;
    try (exfalso; lra);
    (split; [lia |]);
    (split; [intros H; first [lia | repeat split; assumption]
            | intros (H1 & H2 & H3); first [reflexivity | exfalso; lra]]).
Qed.

Lemma tier_low (z : Z) :
  tier_reference (inject_Z z) = "Low Risk"%string <-> 750 <= z.
Proof.
  unfold tier_reference.
  destruct (Qle_bool 750 (inject_Z z)) eqn:A.
  - apply Qle_bool_iff in A. change 750%Q with (inject_Z 750) in A.
    rewrite <- Zle_Qle in A. tauto.
  - apply Qle_bool_false in A. change 750%Q with (inject_Z 750) in A.
    rewrite <- Zlt_Qlt in A.
    destruct (Qle_bool 500 (inject_Z z)); split; intros H; try discriminate; lia.
Qed.

Lemma score_model_color (self : CreditScorer) (ticker : string)
    (financial_data news_data macro_data : Py.dict) (now : Time)
    (tiered : Py.num) (result : ScoreResult) :
  score_model self ticker financial_data news_data macro_data now
    = Returns (tiered, result) ->
  (sr_risk_level result, sr_color result) = risk_of tiered.
Proof.
  unfold score_model, obind.
  destruct (scaler_transform self _) as [scaled |]; [| discriminate].
  destruct (model_predict self scaled) as [raw |]; [| discriminate].
  destruct (contributions_from _ _ _ _ _) as [contributions |]; [| discriminate].
  destruct (risk_of (clamp_score raw)) as [risk_level color] eqn:R.
  intros [= <- <-]. cbn [sr_risk_level sr_color]. symmetry. exact R.
Qed.

Lemma fallback_color (financial_data news_data : Py.dict) (ticker : string) (now : Time) :
  let fb := _fallback_score financial_data news_data ticker now in
  (sr_risk_level fb, sr_color fb) = ("Low Risk", "green")%string
  \/ (sr_risk_level fb, sr_color fb) = ("Medium Risk", "yellow")%string
  \/ (sr_risk_level fb, sr_color fb) = ("High Risk", "red")%string.
Proof.
  unfold _fallback_score.
  destruct (fallback_try financial_data news_data) as [score |];
    cbn [sr_risk_level sr_color]; [| auto].
  rewrite <- surjective_pairing. apply risk_of_pairs.
Qed.

(** ** Keys of the cache *)

Lemma length_string_app (p s : string) :
  String.length (p +:+ s) = (String.length p + String.length s)%nat.
Proof. induction p as [| c p IH]; simpl; [reflexivity | rewrite IH; reflexivity]. Qed.

Lemma json_key_differs (key : string) : ("json:" +:+ key)%string <> key.
Proof.
  intros H. apply (f_equal String.length) in H.
  rewrite length_string_app in H. simpl in H. lia.
Qed.

Lemma json_key_inj (key key' : string) :
  ("json:" +:+ key)%string = ("json:" +:+ key')%string -> key = key'.
Proof. simpl. intros [= H]. exact H. Qed.

Lemma delete_spec (w : World) (key : string) (st : State) :
  Cache.delete w key st =
    if redis_ok w (redis_ops st)
    then (bool_decide (is_Some (redis st !! key)),
          set_redis (base.delete key (redis st)) st)
    else (false, set_redis (redis st) st).
Proof.
  unfold Cache.delete, Cache.client_delete.
  destruct (redis_ok w (redis_ops st)); [| reflexivity].
  destruct (redis st !! key) as [x |] eqn:E.
  - rewrite bool_decide_eq_true_2 by eauto. reflexivity.
  - rewrite bool_decide_eq_false_2 by (intros [x H]; discriminate). reflexivity.
Qed.

Lemma elapse_lookup (d : Z) (st : State) (key : string) (ttl : Z) (value : document) :
  redis st !! key = Some (ttl, value) ->
  redis (elapse d st) !! key = if d <? ttl then Some (ttl - d, value) else None.
Proof.
  intros H. cbn [redis elapse]. rewrite lookup_fmap.
  destruct (d <? ttl) eqn:E.
  - rewrite (map_lookup_filter_Some_2 _ _ key (ttl, value)); [reflexivity | exact H |].
    cbn [fst snd]. rewrite E. exact I.
  - rewrite map_lookup_filter_None_2; [reflexivity |].
    right. intros x Hx. rewrite H in Hx. injection Hx as <-.
    cbn [fst snd]. rewrite E. tauto.
Qed.

Lemma elapse_lookup_none (d : Z) (st : State) (key : string) :
  redis st !! key = None -> redis (elapse d st) !! key = None.
Proof.
  intros H. cbn [redis elapse]. rewrite lookup_fmap.
  rewrite map_lookup_filter_None_2; [reflexivity |]. left. exact H.
Qed.

(** ** Sorting the gathered results *)

Lemma oget_oset_eq {V : Type} (k : string) (v : V) (d : odict V) :
  oget k (oset k v d) = Some v.
Proof.
  induction d as [| [k' v'] rest IH]; simpl.
  - rewrite String.eqb_refl. reflexivity.
  - destruct (String.eqb_spec k' k) as [-> | Hne]; simpl.
    + rewrite String.eqb_refl. reflexivity.
    + destruct (String.eqb_spec k' k); [contradiction | exact IH].
Qed.

Lemma oget_oset_ne {V : Type} (k k' : string) (v : V) (d : odict V) :
  k' <> k -> oget k' (oset k v d) = oget k' d.
Proof.
  intros Hne. induction d as [| [k0 v0] rest IH]; simpl.
  - destruct (String.eqb_spec k k'); [congruence | reflexivity].
  - destruct (String.eqb_spec k0 k) as [-> | Hne0]; simpl.
    + destruct (String.eqb_spec k k'); [congruence | reflexivity].
    + destruct (String.eqb_spec k0 k'); [reflexivity | exact IH].
Qed.

Lemma sort_results_outside (results : list (outcome Py.dict)) (ts : list string) :
  forall (i : nat) (financial_data : odict Py.dict) (news_data : gmap string Py.dict)
         (t : string),
    t ∉ ts ->
    oget t (fst (DataIngestion.sort_results i ts results financial_data news_data))
      = oget t financial_data
    /\ snd (DataIngestion.sort_results i ts results financial_data news_data) !! t
       = news_data !! t.
Proof.
  induction ts as [| ticker rest IH]; intros i financial_data news_data t Hnotin; simpl.
  - auto.
  - apply not_elem_of_cons in Hnotin as [Hne Hrest].
    destruct (IH (S i)
                (match results !! (i * 2)%nat with
                 | Some (Returns d) => oset ticker d financial_data
                 | _ => financial_data
                 end)
                (match results !! (i * 2 + 1)%nat with
                 | Some (Returns d) => <[ ticker := d ]> news_data
                 | _ => news_data
                 end) t Hrest) as [-> ->].
    split.
    + destruct (results !! (i * 2)%nat) as [[d |] |]; try reflexivity.
      apply oget_oset_ne. exact Hne.
    + destruct (results !! (i * 2 + 1)%nat) as [[d |] |]; try reflexivity.
      apply lookup_insert_ne. congruence.
Qed.

Lemma sort_results_at (results : list (outcome Py.dict)) (ts : list string) :
  forall (i j : nat) (financial_data : odict Py.dict) (news_data : gmap string Py.dict)
         (t : string),
    NoDup ts ->
    ts !! j = Some t ->
    oget t financial_data = None ->
    news_data !! t = None ->
    oget t (fst (DataIngestion.sort_results i ts results financial_data news_data))
      = gathered_dict (results !! ((i + j) * 2)%nat)
    /\ snd (DataIngestion.sort_results i ts results financial_data news_data) !! t
       = gathered_dict (results !! ((i + j) * 2 + 1)%nat).
Proof.
  induction ts as [| ticker rest IH];
    intros i j financial_data news_data t Hnodup Hj Hfin Hnews; [discriminate |].
  apply NoDup_cons in Hnodup as [Hfresh Hnodup].
  destruct j as [| j]; simpl in Hj.
  - injection Hj as ->. simpl.
    destruct (sort_results_outside results rest (S i)
                (match results !! (i * 2)%nat with
                 | Some (Returns d) => oset t d financial_data
                 | _ => financial_data
                 end)
                (match results !! (i * 2 + 1)%nat with
                 | Some (Returns d) => <[ t := d ]> news_data
                 | _ => news_data
                 end) t Hfresh) as [-> ->].
    replace (i + 0)%nat with i by lia. split.
    + destruct (results !! (i * 2)%nat) as [[d |] |]; simpl; auto.
      apply oget_oset_eq.
    + destruct (results !! (i * 2 + 1)%nat) as [[d |] |]; simpl; auto.
      apply lookup_insert_eq.
  - simpl. replace (i + S j)%nat with (S i + j)%nat by lia.
    assert (Hne : t <> ticker).
    { intros ->. apply Hfresh. apply list_elem_of_lookup. eauto. }
    apply IH; auto.
    + destruct (results !! (i * 2)%nat) as [[d |] |]; auto.
      rewrite oget_oset_ne by exact Hne. exact Hfin.
    + destruct (results !! (i * 2 + 1)%nat) as [[d |] |]; auto.
      rewrite lookup_insert_ne by congruence. exact Hnews.
Qed.

Lemma sort_results_keys (results : list (outcome Py.dict)) (ts : list string) :
  forall (i : nat) (financial_data : odict Py.dict) (news_data : gmap string Py.dict),
    (forall t, t ∈ okeys (fst (DataIngestion.sort_results i ts results
                                 financial_data news_data)) ->
               t ∈ okeys financial_data \/ t ∈ ts)
    /\ (NoDup (okeys financial_data) ->
        NoDup (okeys (fst (DataIngestion.sort_results i ts results
                             financial_data news_data)))).
Proof.
  induction ts as [| ticker rest IH]; intros i financial_data news_data; simpl.
  - split; [auto | auto].
  - match goal with |- context [DataIngestion.sort_results (S i) rest results ?f ?n] =>
      destruct (IH (S i) f n) as [Hkeys Hnodup] end.
    split.
    + intros t Ht. apply Hkeys in Ht as [Ht | Ht].
      * destruct (results !! (i * 2)%nat) as [[d |] |]; auto.
        apply elem_of_okeys_oset in Ht as [-> | Ht]; auto.
        right. apply list_elem_of_here.
      * right. apply list_elem_of_further, Ht.
    + intros Hnd. apply Hnodup.
      destruct (results !! (i * 2)%nat) as [[d |] |]; auto.
      apply oset_NoDup, Hnd.
Qed.

Lemma tickers_NoDup : NoDup DataIngestion.tickers.
Proof. apply (bool_decide_unpack _). vm_compute. exact I. Qed.

Lemma assemble_news (results : list (outcome Py.dict)) (now : Time) :
  news (DataIngestion.assemble results now)
    = snd (DataIngestion.sort_results 0 DataIngestion.tickers results [] ∅).
Proof.
  Transparent DataIngestion.assemble.
  unfold DataIngestion.assemble.
  destruct (DataIngestion.sort_results 0 DataIngestion.tickers results [] ∅).
  reflexivity.
  Opaque DataIngestion.assemble.
Qed.

Lemma assemble_macro (results : list (outcome Py.dict)) (now : Time) :
  macro (DataIngestion.assemble results now) = default ∅ (gathered_dict (last results)).
Proof.
  Transparent DataIngestion.assemble.
  unfold DataIngestion.assemble.
  destruct (DataIngestion.sort_results 0 DataIngestion.tickers results [] ∅).
  cbn [macro]. destruct (last results) as [[d |] |]; reflexivity.
  Opaque DataIngestion.assemble.
Qed.

(** ** The completion timestamp *)

Lemma finish_last_update (w : World) (credit_scorer : CreditScorer)
    (data : IngestedData) (scores : odict ScoreResult) (st : State) :
  last_update (snd (ProcessingService.finish w data scores st)) = Some (clock st).
Proof.
  unfold ProcessingService.finish.
  match goal with |- context [Cache.set_json w ?k ?v ?t st] =>
    pose proof (set_json_frame w k v t st) as F1;
    destruct (Cache.set_json w k v t st) as [ok st1] end.
  cbn [snd] in F1. cbn [snd last_update set_processing set_last_update].
  unfold ProcessingService._store_historical_scores.
  pose proof (store_loop_frame w (clock st1) scores st1) as F2.
  destruct F1 as (_ & _ & C1 & _). destruct F2 as (_ & _ & C2 & _).
  congruence.
Qed.

Lemma process_all_scores_last_update (w : World) (credit_scorer : CreditScorer)
    (st : State) :
  processing st = false ->
  let out := ProcessingService.process_all_scores w credit_scorer st in
  last_update (snd out) =
    match fst out with
    | DBatch _ => Some (clock st)
    | _ => last_update st
    end.
Proof.
  intros Hfree. unfold ProcessingService.process_all_scores.
  cbn [ProcessingService.resume]. unfold ProcessingService.enter. rewrite Hfree.
  cbv zeta.
  set (st1 := count_ingest (set_processing true st)).
  cbn [ProcessingService.resume].
  unfold ProcessingService.after_ingest.
  pose proof (ingest_frame w (ingest_runs (set_processing true st)) st1) as F.
  destruct (DataIngestion.ingest_all_data w (ingest_runs (set_processing true st)) st1)
    as [[data |] st2]; cbn [snd] in F; destruct F as (_ & L2 & C2 & _).
  - destruct (ProcessingService.make_tasks _ _ _ _) as [| t ts].
    + pose proof (finish_spec w credit_scorer data [] st2) as S.
      pose proof (finish_last_update w credit_scorer data [] st2) as L.
      destruct (ProcessingService.finish w data [] st2) as [p3 st3].
      cbn [fst snd] in S, L. destruct S as (-> & _).
      cbn [ProcessingService.resume ProcessingService.result_of fst snd].
      rewrite L, C2. reflexivity.
    + cbn [ProcessingService.resume]. unfold ProcessingService.after_scores.
      destruct (gather_ok w _).
      * set (scored := ProcessingService.collect _ []).
        set (st2' := count_scoring (length (t :: ts)) st2).
        pose proof (finish_spec w credit_scorer data scored st2') as S.
        pose proof (finish_last_update w credit_scorer data scored st2') as L.
        destruct (ProcessingService.finish w data scored st2') as [p3 st3].
        cbn [fst snd] in S, L. destruct S as (-> & _).
        cbn [ProcessingService.resume ProcessingService.result_of fst snd].
        rewrite L. subst st2'. cbn [clock count_scoring]. rewrite C2. reflexivity.
      * cbn [ProcessingService.resume ProcessingService.result_of fst snd
             last_update set_processing count_scoring].
        exact L2.
  - cbn [ProcessingService.resume ProcessingService.result_of fst snd
         last_update set_processing].
    exact L2.
Qed.

(** ** The entries of a batch *)

Lemma batch_entries (w : World) (credit_scorer : CreditScorer)
    (st : State) (b : ProcessedData) :
  processing st = false ->
  fst (ProcessingService.process_all_scores w credit_scorer st) = DBatch b ->
  exists results,
    gathered w st = Gathered results
    /\ scores b =
         ProcessingService.collect
           (ProcessingService._calculate_score_async w credit_scorer
              (ingest_runs st) (clock st)
              <$> tasks_of (DataIngestion.assemble results (clock st))) []
    /\ ticker_count b = length (scores b)
    /\ processing_timestamp b = clock st
    /\ NoDup (okeys (scores b))
    /\ (forall ticker result,
          (ticker, result) ∈ scores b ->
          ticker = sr_ticker result
          /\ exists t, t ∈ tasks_of (DataIngestion.assemble results (clock st))
               /\ executor w (ingest_runs st) (ProcessingService.t_ticker t) = Ran
               /\ result = calculate_score credit_scorer (ProcessingService.t_ticker t)
                             (ProcessingService.t_financial t)
                             (ProcessingService.t_news t)
                             (ProcessingService.t_macro t) (clock st)).
Proof.
  intros Hfree Hb.
  destruct (process_all_scores_free w credit_scorer st Hfree) as (Hdoc & _).
  rewrite Hb in Hdoc. symmetry in Hdoc.
  destruct (refresh_document_batch w credit_scorer st b Hdoc) as (results & Hsig & ->).
  exists results. unfold batch_of. cbn [scores ticker_count processing_timestamp].
  repeat apply conj; try reflexivity.
  - exact Hsig.
  - apply collect_NoDup, NoDup_nil_2.
  - intros ticker result H.
    destruct (collect_elem _ _ _ _ H) as [Hnil | [Hres ->]].
    + apply elem_of_nil in Hnil. contradiction.
    + split; [reflexivity |]. apply (scored_task w credit_scorer _ _ _ _ Hres).
Qed.

Lemma NoDup_constant {A : Type} (l : list A) (x : A) :
  NoDup l -> (forall y, y ∈ l -> y = x) -> (length l <= 1)%nat.
Proof.
  intros Hnd Hall. destruct l as [| a [| b rest]]; simpl; try lia.
  exfalso. apply NoDup_cons in Hnd as [Hnotin _]. apply Hnotin.
  rewrite (Hall a), <- (Hall b).
  - apply list_elem_of_here.
  - apply list_elem_of_further, list_elem_of_here.
  - apply list_elem_of_here.
Qed.

(** ** The keys of a batch of a trained scorer *)

Lemma okeys_oset_fresh {V : Type} (k : string) (v : V) (d : odict V) :
  k ∉ okeys d -> okeys (oset k v d) = okeys d ++ [k].
Proof.
  induction d as [| [k' v'] rest IH]; intros H.
  - reflexivity.
  - change (okeys ((k', v') :: rest)) with (k' :: okeys rest) in H |- *.
    apply not_elem_of_cons in H as [Hne Hrest].
    cbn [oset]. destruct (String.eqb_spec k' k) as [-> | _]; [congruence |].
    change (okeys ((k', v') :: oset k v rest)) with (k' :: okeys (oset k v rest)).
    rewrite IH by exact Hrest. reflexivity.
Qed.

Lemma elem_of_select (keep : string -> bool) (l : list string) (x : string) :
  x ∈ select keep l <-> x ∈ l /\ keep x = true.
Proof.
  induction l as [| y rest IH]; simpl.
  - rewrite elem_of_nil. tauto.
  - destruct (keep y) eqn:K; rewrite ?elem_of_cons, IH; split.
    + intros [-> | [H1 H2]]; auto.
    + intros [[-> | H1] H2]; auto.
    + intros [H1 H2]; auto.
    + intros [[-> | H1] H2]; [congruence | auto].
Qed.

Lemma select_NoDup (keep : string -> bool) (l : list string) :
  NoDup l -> NoDup (select keep l).
Proof.
  induction 1 as [| x rest Hx Hrest IH]; simpl; [apply NoDup_nil_2 |].
  destruct (keep x); [| exact IH].
  apply NoDup_cons. split; [| exact IH].
  rewrite elem_of_select. tauto.
Qed.

Lemma select_select (p q : string -> bool) (l : list string) :
  select p (select q l) = select (λ x, q x && p x) l.
Proof.
  induction l as [| x rest IH]; simpl; [reflexivity |].
  destruct (q x); simpl; [destruct (p x) |]; rewrite ?IH; reflexivity.
Qed.

Lemma make_tasks_tickers (keys : list string) (financial_data : odict Py.dict)
    (news_data : gmap string Py.dict) (macroData : Py.dict) :
  ProcessingService.t_ticker
    <$> ProcessingService.make_tasks keys financial_data news_data macroData
  = select (λ k, negb (bool_decide (default ∅ (oget k financial_data) = ∅))) keys.
Proof.
  induction keys as [| ticker rest IH]; [reflexivity |].
  cbn [ProcessingService.make_tasks select].
  destruct (bool_decide (default ∅ (oget ticker financial_data) = ∅)); cbn [negb].
  - exact IH.
  - rewrite fmap_cons, IH. reflexivity.
Qed.

Lemma collect_keys_trained (w : World) (credit_scorer : CreditScorer)
    (n : nat) (now : Time) (tasks : list ProcessingService.task) :
  is_trained credit_scorer = true ->
  forall acc : odict ScoreResult,
    NoDup (ProcessingService.t_ticker <$> tasks) ->
    (forall k, k ∈ okeys acc -> k ∉ (ProcessingService.t_ticker <$> tasks)) ->
    okeys (ProcessingService.collect
             (ProcessingService._calculate_score_async w credit_scorer n now <$> tasks)
             acc)
    = okeys acc ++ select (ran w n) (ProcessingService.t_ticker <$> tasks).
Proof.
  intros Htrained. induction tasks as [| t rest IH]; intros acc Hnd Hdisj.
  - simpl. rewrite app_nil_r. reflexivity.
  - rewrite fmap_cons in Hnd. apply NoDup_cons in Hnd as [Hfresh Hnd].
    rewrite !fmap_cons. cbn [ProcessingService.collect select].
    unfold ProcessingService._calculate_score_async at 1. unfold ran at 1.
    destruct (executor w n (ProcessingService.t_ticker t)) eqn:E.
    + cbn [ProcessingService.collect].
      rewrite calculate_score_ticker, Htrained.
      assert (Hk : ProcessingService.t_ticker t ∉ okeys acc).
      { intros Hin. apply (Hdisj _ Hin). rewrite fmap_cons. apply list_elem_of_here. }
      rewrite IH.
      * rewrite (okeys_oset_fresh _ _ _ Hk), <- app_assoc. reflexivity.
      * exact Hnd.
      * intros k Hin Hrest. apply elem_of_okeys_oset in Hin as [-> | Hin].
        -- contradiction.
        -- apply (Hdisj _ Hin). rewrite fmap_cons. apply list_elem_of_further, Hrest.
    + cbn [ProcessingService.collect]. apply IH; [exact Hnd |].
      intros k Hin Hrest. apply (Hdisj _ Hin).
      rewrite fmap_cons. apply list_elem_of_further, Hrest.
    + cbn [ProcessingService.collect]. apply IH; [exact Hnd |].
      intros k Hin Hrest. apply (Hdisj _ Hin).
      rewrite fmap_cons. apply list_elem_of_further, Hrest.
Qed.

Lemma assemble_keys_NoDup (results : list (outcome Py.dict)) (now : Time) :
  NoDup (okeys (financial (DataIngestion.assemble results now))).
Proof.
  rewrite assemble_financial.
  apply (sort_results_keys results DataIngestion.tickers 0 [] ∅), NoDup_nil_2.
Qed.

(** ** History written by a refresh *)

Lemma history_key_inj (t t' : string) :
  ("json:history:" +:+ t)%string = ("json:history:" +:+ t')%string -> t = t'.
Proof. simpl. intros [= H]. exact H. Qed.

Lemma stored_history_redis (t : string) (st st' : State) :
  redis st' = redis st -> stored_history t st' = stored_history t st.
Proof. unfold stored_history. intros ->. reflexivity. Qed.

Lemma stored_history_set_json (w : World) (key : string) (value : document)
    (ttl : Z) (st : State) (t : string) :
  ("json:" +:+ key)%string <> ("json:history:" +:+ t)%string ->
  stored_history t (snd (Cache.set_json w key value ttl st)) = stored_history t st.
Proof.
  intros Hne. rewrite set_json_spec.
  destruct (redis_ok w (redis_ops st)); [| reflexivity].
  unfold stored_history. cbn [snd redis set_redis].
  rewrite lookup_insert_ne by exact Hne. reflexivity.
Qed.

Lemma ingest_stored_history (w : World) (n : nat) (st : State) (t : string) :
  stored_history t (snd (DataIngestion.ingest_all_data w n st)) = stored_history t st.
Proof.
  unfold stored_history. rewrite ingest_lookup; [reflexivity | |].
  - apply history_no_fetch_key.
  - discriminate.
Qed.

Lemma store_one_other (w : World) (now : Time) (t t' : string)
    (score_data : ScoreResult) (st : State) :
  t' <> t ->
  stored_history t' (snd (ProcessingService.store_one w now t score_data st))
    = stored_history t' st.
Proof.
  intros Hne. unfold ProcessingService.store_one. rewrite get_json_spec.
  set (cached := if redis_ok w (redis_ops st) then _ else _).
  destruct (or_else cached (DList [])); cbn [snd]; try reflexivity.
  match goal with |- context [Cache.set_json w ?k ?v ?ttl ?s] =>
    pose proof (stored_history_set_json w k v ttl s t') as H;
    destruct (Cache.set_json w k v ttl s) as [ok st2] end.
  cbn [snd] in *. rewrite H; [reflexivity |].
  change ("json:" +:+ "history:" +:+ t)%string with ("json:history:" +:+ t)%string.
  intros E. apply history_key_inj in E. congruence.
Qed.

Lemma store_one_returns (w : World) (now : Time) (t : string)
    (score_data : ScoreResult) (st : State) (history : list HistoricalPoint) :
  redis_ok w (redis_ops st) = true ->
  stored_history t st = Some history ->
  fst (ProcessingService.store_one w now t score_data st) = Returns ().
Proof.
  intros Hread Hstored. unfold ProcessingService.store_one.
  rewrite get_json_spec, Hread.
  change ("json:" +:+ "history:" +:+ t)%string with ("json:history:" +:+ t)%string.
  unfold stored_history in Hstored.
  assert (O : or_else (snd <$> redis st !! ("json:history:" +:+ t)%string) (DList [])
              = DList history).
  { destruct (redis st !! ("json:history:" +:+ t)%string)
      as [[ttl [| d | b | [| x h] | r]] |]; cbn in Hstored |- *;
      try congruence; destruct (bool_decide (r = ∅)); cbn in *; congruence. }
  rewrite O. destruct (Cache.set_json w _ _ _ _). reflexivity.
Qed.

Lemma store_loop_histories (w : World) (now : Time) (items : odict ScoreResult) :
  (forall n, redis_ok w n = true) ->
  NoDup (okeys items) ->
  forall st : State,
    (forall t, is_Some (stored_history t st)) ->
    (forall t r h,
        (t, r) ∈ items -> stored_history t st = Some h ->
        stored_history t (ProcessingService.store_loop w now items st)
          = Some (last_n 100 (h ++ [entry_of now r])))
    /\ (forall t,
          t ∉ okeys items ->
          stored_history t (ProcessingService.store_loop w now items st)
            = stored_history t st).
Proof.
  intros Hok. induction items as [| [t0 r0] rest IH]; intros Hnd st Hwf.
  - split; [| reflexivity]. intros t r h Hin. apply elem_of_nil in Hin. contradiction.
  - change (okeys ((t0, r0) :: rest)) with (t0 :: okeys rest) in *.
    apply NoDup_cons in Hnd as [Hfresh Hnd].
    destruct (Hwf t0) as [h0 Hh0].
    pose proof (store_one_returns w now t0 r0 st h0 (Hok _) Hh0) as Hret.
    pose proof (store_one_appends w now t0 r0 st h0 (Hok _) (Hok _) Hh0) as Happ.
    pose proof (fun t' => store_one_other w now t0 t' r0 st) as Hother.
    cbn [ProcessingService.store_loop].
    destruct (ProcessingService.store_one w now t0 r0 st) as [[u |] st1];
      cbn [fst snd] in *; [| discriminate].
    assert (Hwf1 : forall t, is_Some (stored_history t st1)).
    { intros t. destruct (decide (t = t0)) as [-> | Hne].
      - rewrite Happ. eauto.
      - rewrite (Hother t Hne). apply Hwf. }
    destruct (IH Hnd st1 Hwf1) as [IHin IHout]. split.
    + intros t r h Hin Hh. apply elem_of_cons in Hin as [[= -> ->] | Hin].
      * rewrite (IHout t0 Hfresh), Happ. congruence.
      * assert (Hne : t <> t0).
        { intros ->. apply Hfresh. unfold okeys.
          apply (list_elem_of_fmap_2 fst _ _ Hin). }
        apply IHin; [exact Hin |]. rewrite (Hother t Hne). exact Hh.
    + intros t Hout. apply not_elem_of_cons in Hout as [Hne Hout].
      rewrite (IHout t Hout). apply Hother, Hne.
Qed.

Lemma finish_history (w : World) (credit_scorer : CreditScorer)
    (data : IngestedData) (scores : odict ScoreResult) (st : State) :
  exists st_mid,
    (forall t, stored_history t st_mid = stored_history t st)
    /\ forall t,
         stored_history t (snd (ProcessingService.finish w data scores st))
           = stored_history t (ProcessingService.store_loop w (clock st) scores st_mid).
Proof.
  unfold ProcessingService.finish.
  match goal with |- context [Cache.set_json w ?k ?v ?ttl st] =>
    pose proof (set_json_frame w k v ttl st) as F;
    pose proof (fun t => stored_history_set_json w k v ttl st t) as H;
    destruct (Cache.set_json w k v ttl st) as [ok st1] end.
  cbn [snd] in F, H. destruct F as (_ & _ & C & _).
  exists st1. split.
  - intros t. apply H. simpl. discriminate.
  - intros t. unfold ProcessingService._store_historical_scores. rewrite C.
    apply stored_history_redis. reflexivity.
Qed.

Lemma process_history (w : World) (credit_scorer : CreditScorer)
    (st : State) (b : ProcessedData) :
  processing st = false ->
  fst (ProcessingService.process_all_scores w credit_scorer st) = DBatch b ->
  exists st_mid,
    (forall t, stored_history t st_mid = stored_history t st)
    /\ forall t,
         stored_history t (snd (ProcessingService.process_all_scores w credit_scorer st))
           = stored_history t
               (ProcessingService.store_loop w (clock st) (scores b) st_mid).
Proof.
  intros Hfree. unfold ProcessingService.process_all_scores.
  cbn [ProcessingService.resume]. unfold ProcessingService.enter. rewrite Hfree.
  cbv zeta.
  set (st1 := count_ingest (set_processing true st)).
  cbn [ProcessingService.resume].
  unfold ProcessingService.after_ingest.
  pose proof (ingest_frame w (ingest_runs (set_processing true st)) st1) as F.
  pose proof (fun t => ingest_stored_history w
                (ingest_runs (set_processing true st)) st1 t) as H2.
  destruct (DataIngestion.ingest_all_data w (ingest_runs (set_processing true st)) st1)
    as [[data |] st2]; [| cbn; discriminate].
  cbn [snd] in F, H2. destruct F as (_ & _ & C2 & _).
  change (forall t, stored_history t st2 = stored_history t st) in H2.
  destruct (ProcessingService.make_tasks _ _ _ _) as [| t0 ts].
  - pose proof (finish_spec w credit_scorer data [] st2) as S.
    destruct (finish_history w credit_scorer data [] st2) as (st_mid & M1 & M2).
    destruct (ProcessingService.finish w data [] st2) as [p3 st3].
    cbn [fst snd] in S, M2. destruct S as (-> & _).
    cbn [ProcessingService.resume ProcessingService.result_of fst snd].
    intros [= <-]. exists st_mid. split.
    + intros t. rewrite M1. apply H2.
    + intros t. rewrite M2, C2. reflexivity.
  - cbn [ProcessingService.resume]. unfold ProcessingService.after_scores.
    destruct (gather_ok w _); [| cbn; discriminate].
    set (scored := ProcessingService.collect _ []).
    set (st2' := count_scoring (length (t0 :: ts)) st2).
    pose proof (finish_spec w credit_scorer data scored st2') as S.
    destruct (finish_history w credit_scorer data scored st2') as (st_mid & M1 & M2).
    destruct (ProcessingService.finish w data scored st2') as [p3 st3].
    cbn [fst snd] in S, M2. destruct S as (-> & _).
    cbn [ProcessingService.resume ProcessingService.result_of fst snd].
    intros [= <-]. exists st_mid. split.
    + intros t. rewrite M1. subst st2'. rewrite <- H2. apply stored_history_redis.
      reflexivity.
    + intros t. rewrite M2. subst st2'. cbn [clock count_scoring]. rewrite C2.
      reflexivity.
Qed.

(** ** The sorted ticker list *)

Lemma place_perm (x : TickerSummary) (l : list TickerSummary) :
  Routes.place x l ≡ₚ x :: l.
Proof.
  induction l as [| y rest IH]; simpl; [reflexivity |].
  destruct (Py.Qltb (Py.val (ts_score y)) (Py.val (ts_score x))); [reflexivity |].
  rewrite IH. apply Permutation_swap.
Qed.

Lemma place_sorted (x : TickerSummary) (l : list TickerSummary) :
  StronglySorted not_below l -> StronglySorted not_below (Routes.place x l).
Proof.
  induction 1 as [| y rest Hrest IH Hy]; simpl.
  - constructor; [constructor | constructor].
  - destruct (Py.Qltb (Py.val (ts_score y)) (Py.val (ts_score x))) eqn:E.
    + apply Qltb_lt in E. constructor; [constructor; assumption |].
      constructor.
      * unfold not_below. apply Qlt_le_weak, E.
      * eapply Forall_impl; [exact Hy |]. unfold not_below. intros z Hz. cbn beta in *.
        apply Qlt_le_weak in E. eapply Qle_trans; eassumption.
    + apply Qltb_ge in E. constructor; [exact IH |].
      rewrite place_perm. constructor; [exact E | exact Hy].
Qed.

Lemma sort_loop_spec (l : list TickerSummary) :
  forall acc : list TickerSummary,
    StronglySorted not_below acc ->
    foldl (λ sorted x, Routes.place x sorted) acc l ≡ₚ acc ++ l
    /\ StronglySorted not_below (foldl (λ sorted x, Routes.place x sorted) acc l).
Proof.
  induction l as [| x rest IH]; intros acc Hacc; simpl.
  - rewrite app_nil_r. auto.
  - destruct (IH (Routes.place x acc) (place_sorted x acc Hacc)) as [Hperm Hsorted].
    split; [| exact Hsorted].
    rewrite Hperm, place_perm. rewrite (Permutation_middle acc rest x). reflexivity.
Qed.

Lemma with_score_app (q : Q) (l1 l2 : list TickerSummary) :
  with_score q (l1 ++ l2) = with_score q l1 ++ with_score q l2.
Proof. apply List.filter_app. Qed.

Lemma with_score_single (q : Q) (x : TickerSummary) :
  with_score q [x] = if Qeq_bool (Py.val (ts_score x)) q then [x] else [].
Proof. reflexivity. Qed.

Lemma with_score_below (q : Q) (l : list TickerSummary) :
  Forall (λ y, (Py.val (ts_score y) < q)%Q) l -> with_score q l = [].
Proof.
  induction 1 as [| y rest Hy _ IH]; [reflexivity |].
  unfold with_score in *. simpl. rewrite IH.
  destruct (Qeq_bool (Py.val (ts_score y)) q) eqn:E; [| reflexivity].
  apply Qeq_bool_eq in E. rewrite E in Hy. destruct (Qlt_irrefl _ Hy).
Qed.

Lemma place_stable (q : Q) (x : TickerSummary) (l : list TickerSummary) :
  StronglySorted not_below l ->
  with_score q (Routes.place x l) = with_score q l ++ with_score q [x].
Proof.
  induction 1 as [| y rest Hrest IH Hy]; [reflexivity |].
  cbn [Routes.place].
  destruct (Py.Qltb (Py.val (ts_score y)) (Py.val (ts_score x))) eqn:E.
  - apply Qltb_lt in E.
    change (x :: y :: rest) with ([x] ++ (y :: rest)). rewrite with_score_app.
    rewrite !with_score_single.
    destruct (Qeq_bool (Py.val (ts_score x)) q) eqn:Q.
    + apply Qeq_bool_eq in Q.
      rewrite (with_score_below q (y :: rest)); [reflexivity |].
      constructor.
      * rewrite <- Q. exact E.
      * eapply Forall_impl; [exact Hy |]. unfold not_below. intros z Hz. cbn beta in *.
        rewrite <- Q. eapply Qle_lt_trans; eassumption.
    + rewrite app_nil_r. reflexivity.
  - change (y :: Routes.place x rest) with ([y] ++ Routes.place x rest).
    change (y :: rest) with ([y] ++ rest).
    rewrite !with_score_app, IH, app_assoc. reflexivity.
Qed.

Lemma sort_loop_stable (q : Q) (l : list TickerSummary) :
  forall acc : list TickerSummary,
    StronglySorted not_below acc ->
    with_score q (foldl (λ sorted x, Routes.place x sorted) acc l)
      = with_score q acc ++ with_score q l.
Proof.
  induction l as [| x rest IH]; intros acc Hacc; cbn [foldl].
  - change (with_score q []) with (@nil TickerSummary). rewrite app_nil_r. reflexivity.
  - rewrite (IH _ (place_sorted x acc Hacc)), (place_stable q x acc Hacc).
    change (x :: rest) with ([x] ++ rest). rewrite with_score_app, <- app_assoc.
    reflexivity.
Qed.

(** ** Extremes and counts of the analytics *)

Lemma py_max_spec (others : list Py.num) :
  forall first : Py.num,
    Routes.py_max first others ∈ first :: others
    /\ forall x, x ∈ first :: others ->
         (Py.val x <= Py.val (Routes.py_max first others))%Q.
Proof.
  unfold Routes.py_max.
  induction others as [| y rest IH]; intros first; simpl.
  - split; [apply list_elem_of_here |].
    intros x Hx. apply list_elem_of_singleton in Hx as ->. apply Qle_refl.
  - destruct (Py.Qltb (Py.val first) (Py.val y)) eqn:E;
      destruct (IH (if Py.Qltb (Py.val first) (Py.val y) then y else first))
        as [Hin Hmax]; rewrite E in Hin, Hmax.
    + apply Qltb_lt in E. split; [apply list_elem_of_further, Hin |].
      intros x Hx. apply elem_of_cons in Hx as [-> | Hx]; [| exact (Hmax x Hx)].
      eapply Qle_trans; [apply Qlt_le_weak, E |]. apply Hmax, list_elem_of_here.
    + apply Qltb_ge in E. split.
      * apply elem_of_cons in Hin as [-> | Hin]; [apply list_elem_of_here |].
        apply list_elem_of_further, list_elem_of_further, Hin.
      * intros x Hx. apply elem_of_cons in Hx as [-> | Hx];
          [apply Hmax, list_elem_of_here |].
        apply elem_of_cons in Hx as [-> | Hx].
        -- eapply Qle_trans; [exact E |]. apply Hmax, list_elem_of_here.
        -- apply Hmax, list_elem_of_further, Hx.
Qed.

Lemma py_min_spec (others : list Py.num) :
  forall first : Py.num,
    Routes.py_min first others ∈ first :: others
    /\ forall x, x ∈ first :: others ->
         (Py.val (Routes.py_min first others) <= Py.val x)%Q.
Proof.
  unfold Routes.py_min.
  induction others as [| y rest IH]; intros first; simpl.
  - split; [apply list_elem_of_here |].
    intros x Hx. apply list_elem_of_singleton in Hx as ->. apply Qle_refl.
  - destruct (Py.Qltb (Py.val y) (Py.val first)) eqn:E;
      destruct (IH (if Py.Qltb (Py.val y) (Py.val first) then y else first))
        as [Hin Hmin]; rewrite E in Hin, Hmin.
    + apply Qltb_lt in E. split; [apply list_elem_of_further, Hin |].
      intros x Hx. apply elem_of_cons in Hx as [-> | Hx]; [| exact (Hmin x Hx)].
      eapply Qle_trans; [apply Hmin, list_elem_of_here | apply Qlt_le_weak, E].
    + apply Qltb_ge in E. split.
      * apply elem_of_cons in Hin as [-> | Hin]; [apply list_elem_of_here |].
        apply list_elem_of_further, list_elem_of_further, Hin.
      * intros x Hx. apply elem_of_cons in Hx as [-> | Hx];
          [apply Hmin, list_elem_of_here |].
        apply elem_of_cons in Hx as [-> | Hx].
        -- eapply Qle_trans; [apply Hmin, list_elem_of_here | exact E].
        -- apply Hmin, list_elem_of_further, Hx.
Qed.

Lemma count_loop_spec (levels : list string) (level : string) :
  forall acc : gmap string nat,
    foldl (λ dist l, <[ l := (default 0%nat (dist !! l) + 1)%nat ]> dist) acc levels
      !! level
    = if (occurrences level levels =? 0)%nat then acc !! level
      else Some (default 0%nat (acc !! level) + occurrences level levels)%nat.
Proof.
  unfold occurrences.
  induction levels as [| l rest IH]; intros acc; [reflexivity |].
  cbn [foldl List.filter]. rewrite IH.
  destruct (String.eqb_spec level l) as [<- | Hne].
  - rewrite lookup_insert_eq. cbn [length default].
    destruct (length (List.filter (String.eqb level) rest)) as [| k]; cbn [Nat.eqb].
    + reflexivity.
    + unfold id. f_equal. lia.
  - rewrite lookup_insert_ne by congruence. reflexivity.
Qed.

(** ** A refresh and the failures of redis *)

(** The batch that a refresh builds from the data it ingested. *)
Lemma refresh_document_ingested (w : World) (credit_scorer : CreditScorer)
    (st : State) (data : IngestedData) :
  ingested w st = Some data ->
  tasks_of data = [] \/ gather_ok w (ingest_runs st) = true ->
  refresh_document w credit_scorer st
    = DBatch (batch_of data
                (ProcessingService.collect
                   (ProcessingService._calculate_score_async w credit_scorer
                      (ingest_runs st) (clock st) <$> tasks_of data) [])
                (clock st)).
Proof.
  unfold ingested, refresh_document.
  destruct (gathered w st) as [| results]; [discriminate |].
  intros [= <-] Hrun.
  destruct (tasks_of (DataIngestion.assemble results (clock st))) as [| t ts] eqn:T;
    [reflexivity |].
  destruct Hrun as [Hnil | ->]; [discriminate | reflexivity].
Qed.

Lemma ingested_timestamp (w : World) (st : State) (data : IngestedData) :
  ingested w st = Some data -> timestamp data = clock st.
Proof.
  unfold ingested. destruct (gathered w st) as [| results]; [discriminate |].
  intros H. assert (E : data = DataIngestion.assemble results (clock st)) by congruence.
  rewrite E. apply assemble_timestamp.
Qed.

Lemma financial_record_empty (data : IngestedData) :
  (forall ticker, financial_record ticker data = ∅) -> tasks_of data = [].
Proof.
  intros Hempty. unfold tasks_of.
  generalize (okeys (financial data)). intros keys.
  induction keys as [| ticker rest IH]; [reflexivity |].
  cbn [ProcessingService.make_tasks].
  specialize (Hempty ticker). unfold financial_record in Hempty.
  rewrite Hempty, bool_decide_eq_true_2 by reflexivity. exact IH.
Qed.

(** A failed write of the latest batch leaves the entry as it was. *)
Lemma finish_dropped (w : World) (credit_scorer : CreditScorer)
    (data : IngestedData) (scores : odict ScoreResult) (st : State) :
  redis_ok w (redis_ops st) = false ->
  redis (snd (ProcessingService.finish w data scores st)) !! "json:latest_scores"%string
    = redis st !! "json:latest_scores"%string.
Proof.
  intros Hfail. unfold ProcessingService.finish. rewrite set_json_spec, Hfail.
  cbn [snd redis set_processing set_last_update].
  unfold ProcessingService._store_historical_scores.
  rewrite store_loop_latest. reflexivity.
Qed.

(** With redis unreachable nothing is stored. *)
Section RedisDown.
Context (w : World) (credit_scorer : CreditScorer).
Hypothesis down : forall n, redis_ok w n = false.

Lemma get_json_down (key : string) (st : State) :
  Cache.get_json w key st = (None, set_redis (redis st) st).
Proof. rewrite get_json_spec, down. reflexivity. Qed.

Lemma set_json_down (key : string) (value : document) (ttl : Z) (st : State) :
  Cache.set_json w key value ttl st = (false, set_redis (redis st) st).
Proof. rewrite set_json_spec, down. reflexivity. Qed.

Lemma through_cache_down (c_key : string) (ttl : Z) (dflt : Py.dict)
    (fetched : outcome Py.dict) (st : State) :
  redis (snd (through_cache w c_key ttl dflt fetched st)) = redis st
  /\ fst (through_cache w c_key ttl dflt fetched st)
     = match fetched with Returns data => data | Raises => dflt end.
Proof.
  unfold through_cache. rewrite get_json_down. cbn [DataIngestion.cached_record].
  destruct fetched as [data |]; [| auto].
  rewrite set_json_down. auto.
Qed.

Lemma fetch_tickers_down (ts : list string) (answers : list (outcome Py.dict)) :
  forall (i : nat) (st : State),
    redis (snd (DataIngestion.fetch_tickers w i ts answers st)) = redis st.
Proof.
  induction ts as [| ticker rest IH]; intros i st; cbn [DataIngestion.fetch_tickers].
  - reflexivity.
  - rewrite get_financial_data_shape.
    pose proof (through_cache_down ("financial:" +:+ ticker) 1800 ∅
                  (DataIngestion.answer answers (i * 2)) st) as [F1 _].
    destruct (through_cache w ("financial:" +:+ ticker) 1800 ∅ _ st) as [fin st1].
    rewrite get_news_sentiment_shape.
    pose proof (through_cache_down ("news:" +:+ ticker) 3600
                  DataIngestion.neutral_sentiment
                  (DataIngestion.answer answers (i * 2 + 1)) st1) as [F2 _].
    destruct (through_cache w ("news:" +:+ ticker) 3600 _ _ st1) as [nws st2].
    specialize (IH (S i) st2).
    destruct (DataIngestion.fetch_tickers w (S i) rest answers st2) as [results st3].
    cbn [snd] in *. congruence.
Qed.

Lemma ingest_down (n : nat) (st : State) :
  redis (snd (DataIngestion.ingest_all_data w n st)) = redis st.
Proof.
  unfold DataIngestion.ingest_all_data, DataIngestion.gather_signals.
  destruct (signal_source w n) as [| answers]; [reflexivity |].
  pose proof (fetch_tickers_down DataIngestion.tickers answers 0 st) as F1.
  destruct (DataIngestion.fetch_tickers w 0 DataIngestion.tickers answers st)
    as [results st1].
  rewrite get_macro_data_shape.
  pose proof (through_cache_down "macro_data" 7200 ∅
                (DataIngestion.answer answers (length DataIngestion.tickers * 2)) st1)
    as [F2 _].
  destruct (through_cache w "macro_data" 7200 ∅ _ st1) as [macro_data st2].
  rewrite set_json_down. cbn [snd redis set_redis] in *. congruence.
Qed.

Lemma store_loop_down (now : Time) (items : odict ScoreResult) :
  forall st : State,
    redis (ProcessingService.store_loop w now items st) = redis st.
Proof.
  induction items as [| [ticker score_data] rest IH]; intros st;
    cbn [ProcessingService.store_loop]; [reflexivity |].
  unfold ProcessingService.store_one. rewrite get_json_down.
  cbn [or_else]. rewrite set_json_down. rewrite IH. reflexivity.
Qed.

Lemma finish_down (data : IngestedData) (scores : odict ScoreResult) (st : State) :
  redis (snd (ProcessingService.finish w data scores st)) = redis st.
Proof.
  unfold ProcessingService.finish. rewrite set_json_down.
  cbn [snd redis set_processing set_last_update].
  unfold ProcessingService._store_historical_scores.
  rewrite store_loop_down. reflexivity.
Qed.

Lemma resume_down (p : ProcessingService.pas_point) (st : State) :
  redis (snd (ProcessingService.resume w credit_scorer p st)) = redis st.
Proof.
  destruct p as [| n | n data tasks | result]; cbn [ProcessingService.resume].
  - unfold ProcessingService.enter. destruct (processing st).
    + rewrite get_json_down. reflexivity.
    + reflexivity.
  - unfold ProcessingService.after_ingest.
    pose proof (ingest_down n st) as I.
    destruct (DataIngestion.ingest_all_data w n st) as [[data |] st1];
      cbn [snd] in I; [| exact I].
    destruct (ProcessingService.make_tasks _ _ _ _).
    + rewrite finish_down. exact I.
    + exact I.
  - unfold ProcessingService.after_scores. destruct (gather_ok w n).
    + apply finish_down.
    + reflexivity.
  - reflexivity.
Qed.

Lemma process_all_scores_down (st : State) :
  redis (snd (ProcessingService.process_all_scores w credit_scorer st)) = redis st.
Proof.
  unfold ProcessingService.process_all_scores.
  pose proof (resume_down ProcessingService.AtEntry st) as R1.
  destruct (ProcessingService.resume w credit_scorer ProcessingService.AtEntry st)
    as [p1 st1].
  pose proof (resume_down p1 st1) as R2.
  destruct (ProcessingService.resume w credit_scorer p1 st1) as [p2 st2].
  pose proof (resume_down p2 st2) as R3.
  destruct (ProcessingService.resume w credit_scorer p2 st2) as [p3 st3].
  cbn [snd] in *. congruence.
Qed.

End RedisDown.

(** * The claims about the scorer *)

(** C2, as the code has it.  For every financial and sentiment record
    whose debt-to-equity, return-on-equity and sentiment fields are
    numbers (an absent field taking the default of the code: 1, 0 and
    0.5), [_fallback_score] returns the score obtained from a base of 500
    by the additive adjustments debt-to-equity < 0.5: +100, > 2: -150;
    return on equity > 0.15: +100, < 0: -200; sentiment > 0.6: +50,
    < 0.4: -50, clamped to [0, 1000], together with the tier of that
    score.  Debt-to-equity 0.3, return on equity 0.2 and sentiment 0.8
    give 750 and "Low Risk"; 3.0, -0.1 and 0.2 give 100 and "High Risk".
    When one of the three fields is present and no number, no adjustment
    is applied: the score is 500 and the tier "Medium Risk". *)
Theorem fallback_score_matches_reference :
  (forall (financial_data news_data : Py.dict) (ticker : string) (now : Time)
          (debt_to_equity roe sentiment : Py.num),
      Py.get financial_data "debt_to_equity" (pint 1) = Py.Num debt_to_equity ->
      Py.get financial_data "roe" (pint 0) = Py.Num roe ->
      Py.get news_data "sentiment_score" (pfloat 0.5) = Py.Num sentiment ->
      let result := _fallback_score financial_data news_data ticker now in
      let expected :=
        fallback_reference (Py.val debt_to_equity) (Py.val roe) (Py.val sentiment) in
      sr_score result = Py.Int expected
      /\ sr_risk_level result = tier_reference (inject_Z expected)
      /\ fallback_reference_on_records financial_data news_data = expected)
  /\ (forall (financial_data news_data : Py.dict) (ticker : string) (now : Time),
        rule_inputs_numeric financial_data news_data = false ->
        let result := _fallback_score financial_data news_data ticker now in
        sr_score result = Py.Int 500
        /\ sr_risk_level result = "Medium Risk"%string)
  /\ (let result := _fallback_score acme_financial acme_news "ACME" 0 in
      sr_score result = Py.Int 750 /\ sr_risk_level result = "Low Risk"%string)
  /\ (let result := _fallback_score weak_financial weak_news "ACME" 0 in
      sr_score result = Py.Int 100 /\ sr_risk_level result = "High Risk"%string).
Proof.
  split; [| split; [| split; split; reflexivity]].
  - intros financial_data news_data ticker now d r s Hd Hr Hs. cbv zeta.
    unfold _fallback_score. rewrite (fallback_try_numeric _ _ _ _ _ Hd Hr Hs).
    cbn [sr_score sr_risk_level].
    split; [reflexivity |]. split; [apply (risk_of_tier (Py.Int _)) |].
    unfold fallback_reference_on_records. rewrite Hd, Hr, Hs. reflexivity.
  - intros financial_data news_data ticker now Hbad. cbv zeta.
    unfold _fallback_score. rewrite (fallback_try_raises _ _ Hbad).
    split; reflexivity.
Qed.

Lemma fallback_score_matches_reference_witness :
  (sr_score (_fallback_score acme_financial acme_news "ACME" 0)
     = Py.Int (fallback_reference 0.3 0.2 0.8)
   /\ sr_risk_level (_fallback_score acme_financial acme_news "ACME" 0)
      = tier_reference (inject_Z (fallback_reference 0.3 0.2 0.8))
   /\ fallback_reference_on_records acme_financial acme_news
      = fallback_reference 0.3 0.2 0.8)
  /\ (sr_score (_fallback_score null_roe_financial acme_news "ACME" 0) = Py.Int 500
      /\ sr_risk_level (_fallback_score null_roe_financial acme_news "ACME" 0)
         = "Medium Risk"%string).
Proof.
  split.
  - apply (proj1 fallback_score_matches_reference acme_financial acme_news
             "ACME"%string 0 (Py.Float 0.3) (Py.Float 0.2) (Py.Float 0.8));
      reflexivity.
  - apply (proj1 (proj2 fallback_score_matches_reference) null_roe_financial
             acme_news "ACME"%string 0).
    reflexivity.
Defined.

(** C2 as stated fails for a record with a field that is no number.
    With a debt-to-equity ratio of 0.3, a return on equity of [None] and
    a sentiment of 0.8 the rules give 500 + 100 + 50 = 650; the code
    abandons the rules at the comparison of [None] and returns 500. *)
Lemma fallback_rules_abandoned :
  let result := _fallback_score sound_debt_null_roe acme_news "ACME" 0 in
  fallback_reference_on_records sound_debt_null_roe acme_news = 650
  /\ sr_score result = Py.Int 500
  /\ sr_risk_level result = "Medium Risk"%string
  /\ sr_score result
     <> Py.Int (fallback_reference_on_records sound_debt_null_roe acme_news).
Proof.
  cbv zeta. repeat split; try reflexivity. vm_compute. discriminate.
Qed.



(** C6, as the code has it.  When the model path of [calculate_score]
    raises, the result is the fallback result for the requested entity;
    nothing is propagated.  The contribution map of a fallback result has
    "fallback" as its only key when the three fields read by the rules
    are numbers; when one of them is not, the rules raise in turn and the
    default result is returned: score 500, "Medium Risk" and an empty
    contribution map. *)
Theorem calculate_score_degrades_to_fallback :
  forall (self : CreditScorer) (ticker : string)
         (financial_data news_data macro_data : Py.dict) (now : Time),
    (calculate_score_try self ticker financial_data news_data macro_data now = Raises ->
     calculate_score self ticker financial_data news_data macro_data now
       = _fallback_score financial_data news_data ticker now)
    /\ (let fallback := _fallback_score financial_data news_data ticker now in
        if rule_inputs_numeric financial_data news_data
        then sr_contributions fallback = {[ "fallback"%string := 1%Q ]}
             /\ dom (sr_contributions fallback) = ({[ "fallback"%string ]} : gset string)
        else sr_contributions fallback = ∅
             /\ sr_score fallback = Py.Int 500
             /\ sr_risk_level fallback = "Medium Risk"%string).
Proof.
  intros self ticker financial_data news_data macro_data now. split.
  - intros E. unfold calculate_score. rewrite E. reflexivity.
  - simpl. unfold _fallback_score.
    destruct (rule_inputs_numeric financial_data news_data) eqn:E.
    + destruct (rule_inputs_numeric_true _ _ E) as (d & r & s & Hd & Hr & Hs).
      rewrite (fallback_try_numeric _ _ _ _ _ Hd Hr Hs). simpl.
      split; [reflexivity |]. apply dom_singleton_L.
    + rewrite (fallback_try_raises _ _ E). simpl. auto.
Qed.

Lemma calculate_score_degrades_to_fallback_witness :
  calculate_score (constant_scorer 640) "JPM" text_roe_financial ∅ ∅ 0
    = _fallback_score text_roe_financial ∅ "JPM" 0.
Proof.
  apply (proj1 (calculate_score_degrades_to_fallback (constant_scorer 640)
                  "JPM"%string text_roe_financial ∅ ∅ 0)).
  reflexivity.
Defined.

(** C6 as stated fails: the fallback rules raise in turn on a field that
    is no number, and the result that comes back has no "fallback" key.
    So it is when the scorer is untrained and the return on equity is
    [None]; and so it is when a return on equity that is a text makes
    the scaler of a trained scorer raise. *)
Lemma fallback_without_sentinel :
  let untrained := calculate_score untrained_scorer "JPM" null_roe_financial ∅ ∅ 0 in
  let rejected :=
    calculate_score (constant_scorer 640) "JPM" text_roe_financial ∅ ∅ 0 in
  (untrained = _fallback_score null_roe_financial ∅ "UNKNOWN" 0
   /\ sr_contributions untrained = ∅
   /\ dom (sr_contributions untrained) <> ({[ "fallback"%string ]} : gset string))
  /\ (calculate_score_try (constant_scorer 640) "JPM" text_roe_financial ∅ ∅ 0 = Raises
      /\ sr_contributions rejected = ∅
      /\ dom (sr_contributions rejected) <> ({[ "fallback"%string ]} : gset string)).
Proof.
  assert (E1 : sr_contributions
                 (calculate_score untrained_scorer "JPM" null_roe_financial ∅ ∅ 0) = ∅)
    by reflexivity.
  assert (E2 : sr_contributions
                 (calculate_score (constant_scorer 640) "JPM" text_roe_financial ∅ ∅ 0)
               = ∅)
    by reflexivity.
  cbv zeta. rewrite E1, E2. rewrite dom_empty_L.
  assert (Hne : (∅ : gset string) <> {[ "fallback"%string ]}).
  { intros H. assert (Hin : "fallback"%string ∈ (∅ : gset string))
      by (rewrite H; apply elem_of_singleton; reflexivity).
    apply elem_of_empty in Hin. exact Hin. }
  repeat split; try reflexivity; exact Hne.
Qed.

(** C10.  The entity id of the result of [calculate_score] is the literal
    "UNKNOWN" when the model is not trained, whatever entity was asked
    for, and the requested entity id on every other path (model result or
    fallback after an exception). *)
Theorem untrained_result_is_unknown :
  forall (self : CreditScorer) (ticker : string)
         (financial_data news_data macro_data : Py.dict) (now : Time),
    sr_ticker (calculate_score self ticker financial_data news_data macro_data now)
      = if is_trained self then ticker else "UNKNOWN"%string.
Proof. exact calculate_score_ticker. Qed.

(** * The claims about the orchestrator *)

(** C1.  Single-flight refresh.  An invocation of [process_all_scores]
    that finds a refresh in progress finishes in its first stretch: it
    returns what the cache holds under "latest_scores" (the last
    persisted batch, unchanged; the empty dict when nothing can be read),
    runs neither ingestion nor scoring, and leaves the flag and the
    contents of redis as they were.  A stretch that ends an invocation in
    flight clears the flag, whichever exit it takes, and an invocation
    that found the guard free leaves it free.  In every interleaving of
    any number of invocations, started from a fresh service, at most one
    invocation is in flight, the flag is set exactly while one is, and
    the flag is false once all invocations have finished. *)
Theorem single_flight_refresh :
  forall (w : World) (credit_scorer : CreditScorer),
    (forall st : State,
        processing st = true ->
        let out := ProcessingService.resume w credit_scorer ProcessingService.AtEntry st in
        fst out = ProcessingService.Finished
                    (or_else (fst (Cache.get_json w "latest_scores" st)) DEmpty)
        /\ processing (snd out) = true
        /\ redis (snd out) = redis st
        /\ ingest_runs (snd out) = ingest_runs st
        /\ scoring_runs (snd out) = scoring_runs st
        /\ last_update (snd out) = last_update st)
    /\ (forall (st : State) (ttl : Z) (b : ProcessedData),
        processing st = true ->
        redis st !! "json:latest_scores"%string = Some (ttl, DBatch b) ->
        redis_ok w (redis_ops st) = true ->
        fst (ProcessingService.resume w credit_scorer ProcessingService.AtEntry st)
          = ProcessingService.Finished (DBatch b))
    /\ (forall (p : ProcessingService.pas_point) (st : State),
        ProcessingService.in_flight p = true ->
        let out := ProcessingService.resume w credit_scorer p st in
        ProcessingService.in_flight (fst out) = false ->
        ProcessingService.unfinished (fst out) = false /\ processing (snd out) = false)
    /\ (forall st : State,
        processing st = false ->
        processing (snd (ProcessingService.process_all_scores w credit_scorer st)) = false)
    /\ (forall (t0 : Time) (st : State) (ps : list ProcessingService.pas_point),
        ProcessingService.sched_reach w credit_scorer (initial t0, []) (st, ps) ->
        (flights ps <= 1)%nat
        /\ (processing st = true <->
            exists i p, ps !! i = Some p /\ ProcessingService.in_flight p = true)
        /\ (Forall (λ p, ProcessingService.unfinished p = false) ps ->
            processing st = false)).
Proof.
  intros w credit_scorer. repeat apply conj.
  - intros st Hbusy. cbn [ProcessingService.resume].
    unfold ProcessingService.enter. rewrite Hbusy.
    rewrite get_json_spec. cbn. repeat split; auto.
  - intros st ttl b Hbusy Hb Hok. cbn [ProcessingService.resume].
    unfold ProcessingService.enter.
    rewrite Hbusy, get_json_spec, Hok.
    change ("json:" +:+ "latest_scores")%string with "json:latest_scores"%string.
    rewrite Hb. reflexivity.
  - intros p st Hp out Hout.
    pose proof (resume_flag w credit_scorer p st) as R. fold out in R.
    destruct p as [| n | n data tasks | result]; simpl in Hp; try discriminate.
    + destruct R as [[R _] | [_ R]]; [congruence |]. split; [| exact R].
      subst out. cbn [ProcessingService.resume] in *.
      pose proof (after_ingest_spec w credit_scorer n st) as A. cbv zeta in A.
      destruct A as (_ & _ & A).
      destruct (fst (DataIngestion.gather_signals w n st));
        [destruct A as [-> _]; reflexivity |].
      destruct (tasks_of _); destruct A as [E _]; rewrite E in *; [reflexivity |].
      cbn in Hout. discriminate.
    + destruct R as [[R _] | [_ R]]; [congruence |]. split; [| exact R].
      subst out. cbn [ProcessingService.resume].
      pose proof (after_scores_spec w credit_scorer n data tasks st) as B.
      cbv zeta in B. destruct B as (_ & _ & _ & ->). reflexivity.
  - intros st Hfree.
    apply (process_all_scores_free w credit_scorer st Hfree).
  - intros t0 st ps Hreach.
    pose proof (sched_reach_invariant w credit_scorer _ _ Hreach) as Inv.
    unfold flag_tracks_flights in Inv. simpl in Inv. specialize (Inv eq_refl).
    split; [destruct (processing st); lia |]. split.
    + rewrite <- flights_some. destruct (processing st); split; intros; try lia; congruence.
    + intros Hall. rewrite (flights_none ps Hall) in Inv.
      destruct (processing st); [discriminate | reflexivity].
Qed.

Lemma single_flight_refresh_witness :
  fst (ProcessingService.resume calm_world (constant_scorer 640)
         ProcessingService.AtEntry busy_state)
    = ProcessingService.Finished (DBatch empty_batch).
Proof.
  apply (proj1 (proj2 (single_flight_refresh calm_world (constant_scorer 640)))
           busy_state 3600 empty_batch); reflexivity.
Defined.

(** C5.  Batch membership.  For every refresh that returns a batch: the
    entity count is the number of keys of the score mapping (and no key
    occurs twice); a tracked entity whose financial record is empty is
    not a key of the mapping; every entry of the mapping is the result of
    a [calculate_score] call that the executor ran, stored under the
    entity id the result carries; and a tracked entity whose computation
    failed (the wrapper returned the empty dict, or the task ended with
    an exception) is not a key of the mapping. *)
Theorem batch_membership :
  forall (w : World) (credit_scorer : CreditScorer) (st : State) (b : ProcessedData),
    processing st = false ->
    fst (ProcessingService.process_all_scores w credit_scorer st) = DBatch b ->
    (ticker_count b = length (okeys (scores b)) /\ NoDup (okeys (scores b)))
    /\ (forall (results : list (outcome Py.dict)) (ticker : string),
          gathered w st = Gathered results ->
          ticker ∈ DataIngestion.tickers ->
          financial_record ticker (DataIngestion.assemble results (clock st)) = ∅ ->
          ticker ∉ okeys (scores b))
    /\ (forall (ticker : string) (result : ScoreResult),
          (ticker, result) ∈ scores b ->
          ticker = sr_ticker result
          /\ exists t : ProcessingService.task,
               executor w (ingest_runs st) (ProcessingService.t_ticker t) = Ran
               /\ ProcessingService.t_financial t <> ∅
               /\ result = calculate_score credit_scorer (ProcessingService.t_ticker t)
                             (ProcessingService.t_financial t)
                             (ProcessingService.t_news t)
                             (ProcessingService.t_macro t) (clock st))
    /\ (forall ticker : string,
          ticker ∈ DataIngestion.tickers ->
          executor w (ingest_runs st) ticker <> Ran ->
          ticker ∉ okeys (scores b)).
Proof.
  intros w credit_scorer st b Hfree Hb.
  destruct (process_all_scores_free w credit_scorer st Hfree) as (Hdoc & _).
  rewrite Hb in Hdoc. symmetry in Hdoc.
  destruct (refresh_document_batch w credit_scorer st b Hdoc) as (results & Hsig & ->).
  set (data := DataIngestion.assemble results (clock st)).
  set (scored := ProcessingService.collect _ []).
  assert (Hentry : forall ticker result,
    (ticker, result) ∈ scored ->
    ticker = sr_ticker result
    /\ exists t, t ∈ tasks_of data
         /\ executor w (ingest_runs st) (ProcessingService.t_ticker t) = Ran
         /\ result = calculate_score credit_scorer (ProcessingService.t_ticker t)
                       (ProcessingService.t_financial t) (ProcessingService.t_news t)
                       (ProcessingService.t_macro t) (clock st)).
  { intros ticker result Hin.
    destruct (collect_elem _ _ _ _ Hin) as [Hnil | [Hres ->]].
    - apply elem_of_nil in Hnil. contradiction.
    - split; [reflexivity |]. apply (scored_task w credit_scorer _ _ _ _ Hres). }
  assert (Hkey : forall ticker,
    ticker ∈ DataIngestion.tickers -> ticker ∈ okeys scored ->
    exists t, t ∈ tasks_of data /\ ProcessingService.t_ticker t = ticker
         /\ executor w (ingest_runs st) ticker = Ran).
  { intros ticker Htracked Hin. unfold okeys in Hin.
    apply list_elem_of_fmap in Hin as ([k result] & Hk & Hin). simpl in Hk. subst k.
    destruct (Hentry _ _ Hin) as (Hticker & t & Ht & Hran & Hres).
    rewrite Hres, calculate_score_ticker in Hticker.
    destruct (is_trained credit_scorer).
    - exists t. subst ticker. auto.
    - subst ticker. destruct (unknown_not_tracked Htracked). }
  unfold batch_of. cbn [scores ticker_count]. repeat apply conj.
  - unfold okeys. rewrite length_fmap. reflexivity.
  - apply collect_NoDup. apply NoDup_nil_2.
  - intros results' ticker Hsig' Htracked Hempty Hin.
    rewrite Hsig in Hsig'. injection Hsig' as <-.
    destruct (Hkey ticker Htracked Hin) as (t & Ht & Hticker & _).
    destruct (make_tasks_elem _ _ _ _ _ Ht) as (_ & Hfin & Hne).
    apply Hne. rewrite Hfin, Hticker. exact Hempty.
  - intros ticker result Hin.
    destruct (Hentry _ _ Hin) as (Hticker & t & Ht & Hran & Hres).
    split; [exact Hticker |]. exists t.
    destruct (make_tasks_elem _ _ _ _ _ Ht) as (_ & _ & Hne). auto.
  - intros ticker Htracked Hfailed Hin.
    destruct (Hkey ticker Htracked Hin) as (t & _ & _ & Hran). contradiction.
Qed.

Lemma batch_membership_witness :
  (ticker_count mixed_batch = length (okeys (scores mixed_batch))
   /\ NoDup (okeys (scores mixed_batch)))
  /\ ("AAPL"%string ∉ okeys (scores mixed_batch))
  /\ ("GOOGL"%string ∉ okeys (scores mixed_batch)).
Proof.
  pose proof (batch_membership mixed_world (constant_scorer 640) (initial 0)
                mixed_batch eq_refl eq_refl) as (Hcount & Hempty & _ & Hfailed).
  split; [exact Hcount |]. split.
  - apply (Hempty mixed_gathered);
      [vm_compute; reflexivity | | vm_compute; reflexivity].
    apply list_elem_of_here.
  - apply Hfailed; [| discriminate].
    apply list_elem_of_further, list_elem_of_here.
Defined.

(** C4.  History bound.  [_store_historical_scores] never leaves a
    history list of more than 100 entries in the cache, and none is ever
    there in any state the service reaches.  An append that goes through
    stores the last 100 entries of the old list followed by the new
    entry, whatever the old list was: appending entry 101 to the entries
    1..100 leaves the entries 2..101.  [get_ticker_history] returns at
    most 50 entries, the last 50 of the stored list when it can be read,
    and the empty list, not an error, for an entity without history. *)
Theorem history_is_bounded :
  forall (w : World) (credit_scorer : CreditScorer),
    (forall (scores : odict ScoreResult) (st : State),
        history_bounded st ->
        history_bounded (ProcessingService._store_historical_scores w scores st))
    /\ (forall (t0 : Time) (st : State) (ps : list ProcessingService.pas_point),
        ProcessingService.sched_reach w credit_scorer (initial t0, []) (st, ps) ->
        history_bounded st)
    /\ (forall (now : Time) (ticker : string) (score_data : ScoreResult)
               (st : State) (history : list HistoricalPoint),
        redis_ok w (redis_ops st) = true ->
        redis_ok w (S (redis_ops st)) = true ->
        stored_history ticker st = Some history ->
        stored_history ticker
          (snd (ProcessingService.store_one w now ticker score_data st))
          = Some (last_n 100 (history ++ [entry_of now score_data]))
        /\ (length (last_n 100 (history ++ [entry_of now score_data])) <= 100)%nat)
    /\ stored_history "ACME"
         (ProcessingService._store_historical_scores calm_world
            [("ACME"%string, numbered_score 101)] full_history_state)
       = Some (points 2 100)
    /\ (forall (ticker : string) (st : State),
        let out := fst (ProcessingService.get_ticker_history w ticker st) in
        (length out <= 50)%nat
        /\ (redis st !! ("json:history:" +:+ ticker)%string = None -> out = [])
        /\ (forall history : list HistoricalPoint,
              redis_ok w (redis_ops st) = true ->
              stored_history ticker st = Some history ->
              out = last_n 50 history)).
Proof.
  intros w credit_scorer. repeat apply conj.
  - intros scores st Hst. apply history_bounded_store_loop, Hst.
  - intros t0 st ps Hreach.
    apply (history_bounded_reach w credit_scorer _ _ Hreach).
    intros key ttl h H. discriminate.
  - intros now ticker score_data st history Hread Hwrite Hstored. split.
    + apply store_one_appends; assumption.
    + apply length_last_n.
  - vm_compute. reflexivity.
  - intros ticker st. apply get_ticker_history_spec.
Qed.

Lemma history_is_bounded_witness :
  stored_history "ACME"
    (snd (ProcessingService.store_one calm_world 101 "ACME" (numbered_score 101)
            full_history_state))
    = Some (last_n 100 (points 1 100 ++ [entry_of 101 (numbered_score 101)]))
  /\ (length (last_n 100 (points 1 100 ++ [entry_of 101 (numbered_score 101)])) <= 100)%nat.
Proof.
  apply (proj1 (proj2 (proj2 (history_is_bounded calm_world (constant_scorer 640)))));
    reflexivity.
Defined.

(** C7, as the code has it.  A refresh that finds the guard free never
    raises and leaves the guard free.  When the ingestion returns no
    data (its [try] block raised) and when the scoring [gather] raises,
    the value returned is the empty dict: it carries no score mapping, no
    entity count and no processing timestamp.  When the ingestion returns
    data in which no entity has a financial record, the value returned is
    a batch with an empty score mapping, an entity count of 0 and the
    processing timestamp. *)
Theorem refresh_failure_returns_empty :
  forall (w : World) (credit_scorer : CreditScorer) (st : State),
    processing st = false ->
    let out := ProcessingService.process_all_scores w credit_scorer st in
    processing (snd out) = false
    /\ (fst out = DEmpty \/ is_batch (fst out))
    /\ (ingested w st = None -> fst out = DEmpty)
    /\ (forall data : IngestedData,
          ingested w st = Some data ->
          tasks_of data <> [] ->
          gather_ok w (ingest_runs st) = false ->
          fst out = DEmpty)
    /\ (forall data : IngestedData,
          ingested w st = Some data ->
          (forall ticker, financial_record ticker data = ∅) ->
          fst out = DBatch {| scores := [];
                              data_timestamp := Some (clock st);
                              processing_timestamp := clock st;
                              ticker_count := 0 |})
    /\ ~ is_batch DEmpty.
Proof.
  intros w credit_scorer st Hfree out.
  destruct (process_all_scores_free w credit_scorer st Hfree) as (Hdoc & Hflag & _).
  fold out in Hdoc, Hflag. rewrite Hdoc.
  repeat apply conj.
  - exact Hflag.
  - unfold refresh_document.
    destruct (gathered w st) as [| results]; [auto |].
    destruct (tasks_of _); [right; eexists; reflexivity |].
    destruct (gather_ok w (ingest_runs st)); [right; eexists; reflexivity | auto].
  - unfold ingested, refresh_document.
    destruct (gathered w st) as [| results]; [reflexivity | discriminate].
  - unfold ingested, refresh_document.
    destruct (gathered w st) as [| results]; [discriminate |].
    intros data [= <-] Htasks ->.
    destruct (tasks_of _); [contradiction | reflexivity].
  - intros data Hdata Hempty.
    rewrite (refresh_document_ingested w credit_scorer st data Hdata)
      by (left; apply financial_record_empty, Hempty).
    rewrite (financial_record_empty data Hempty).
    unfold batch_of. rewrite (ingested_timestamp w st data Hdata). reflexivity.
  - intros [b Hb]. discriminate.
Qed.

Lemma refresh_failure_returns_empty_witness :
  fst (ProcessingService.process_all_scores no_data_world (constant_scorer 640)
         (initial 0))
    = DBatch {| scores := []; data_timestamp := Some 0;
                processing_timestamp := 0; ticker_count := 0 |}.
Proof.
  apply (proj1 (proj2 (proj2 (proj2 (proj2
           (refresh_failure_returns_empty no_data_world (constant_scorer 640)
              (initial 0) eq_refl))))) no_data).
  - vm_compute. reflexivity.
  - intros ticker. unfold financial_record.
    destruct (oget ticker (financial no_data)) as [d |] eqn:G; [| reflexivity].
    apply oget_elem in G. cbn [default]. revert G. unfold no_data. cbn [financial].
    intros G.
    repeat (apply elem_of_cons in G as [[= _ ->] | G]; [reflexivity |]).
    apply elem_of_nil in G. contradiction.
Defined.

(** C7 as stated fails: when the [try] block of the ingestion raises, and
    when the scoring [gather] raises, the refresh returns the empty dict,
    which is not a batch record. *)
Lemma empty_dict_is_no_batch :
  let ingestion_failed :=
    fst (ProcessingService.process_all_scores silent_world
           (constant_scorer 640) (initial 0)) in
  let scoring_failed :=
    fst (ProcessingService.process_all_scores broken_gather_world
           (constant_scorer 640) (initial 0)) in
  ingestion_failed = DEmpty /\ ~ is_batch ingestion_failed
  /\ scoring_failed = DEmpty /\ ~ is_batch scoring_failed.
Proof.
  assert (E1 : fst (ProcessingService.process_all_scores silent_world
                      (constant_scorer 640) (initial 0)) = DEmpty)
    by (vm_compute; reflexivity).
  assert (E2 : fst (ProcessingService.process_all_scores broken_gather_world
                      (constant_scorer 640) (initial 0)) = DEmpty)
    by (vm_compute; reflexivity).
  cbv zeta. rewrite E1, E2.
  repeat split; try (intros [b Hb]; discriminate).
Qed.




(** C9.  Cache-unavailable degradation.  A [set_json] whose redis
    command fails returns [False] instead of raising and leaves the
    stored documents as they were.  Whichever cache commands fail during
    a refresh, the refresh returns the batch it built from the data it
    ingested: the results of the scoring tasks under the processing
    timestamp.  When the write of that batch fails, the entry of the
    latest batch stays as it was; when every command fails, nothing is
    stored at all, and the batch is returned all the same. *)
Theorem cache_write_failure_absorbed :
  forall (w : World) (credit_scorer : CreditScorer),
    (forall (key : string) (value : document) (ttl : Z) (st : State),
        redis_ok w (redis_ops st) = false ->
        Cache.set_json w key value ttl st = (false, set_redis (redis st) st))
    /\ (forall (st : State) (data : IngestedData),
        processing st = false ->
        ingested w st = Some data ->
        tasks_of data = [] \/ gather_ok w (ingest_runs st) = true ->
        fst (ProcessingService.process_all_scores w credit_scorer st)
          = DBatch (batch_of data
                      (ProcessingService.collect
                         (ProcessingService._calculate_score_async w credit_scorer
                            (ingest_runs st) (clock st) <$> tasks_of data) [])
                      (clock st)))
    /\ (forall (data : IngestedData) (scores : odict ScoreResult) (st : State),
        redis_ok w (redis_ops st) = false ->
        let out := ProcessingService.finish w data scores st in
        fst out = ProcessingService.Finished (DBatch (batch_of data scores (clock st)))
        /\ redis (snd out) !! "json:latest_scores"%string
           = redis st !! "json:latest_scores"%string)
    /\ (forall st : State,
        (forall n, redis_ok w n = false) ->
        redis (snd (ProcessingService.process_all_scores w credit_scorer st))
          = redis st).
Proof.
  intros w credit_scorer. repeat apply conj.
  - intros key value ttl st Hfail. rewrite set_json_spec, Hfail. reflexivity.
  - intros st data Hfree Hdata Hrun.
    destruct (process_all_scores_free w credit_scorer st Hfree) as (-> & _).
    apply refresh_document_ingested; assumption.
  - intros data scores st Hfail. cbv zeta. split.
    + apply (finish_spec w credit_scorer data scores st).
    + apply (finish_dropped w credit_scorer data scores st Hfail).
  - intros st Hdown. apply process_all_scores_down. exact Hdown.
Qed.

Lemma cache_write_failure_absorbed_witness :
  Cache.set_json no_redis_world "latest_scores" (DBatch empty_batch) 3600 (initial 0)
    = (false, set_redis (redis (initial 0)) (initial 0))
  /\ fst (ProcessingService.process_all_scores no_redis_world (constant_scorer 640)
            (initial 0))
     = DBatch calm_batch
  /\ redis (snd (ProcessingService.process_all_scores no_redis_world
                   (constant_scorer 640) (initial 0)))
     = ∅.
Proof.
  pose proof (cache_write_failure_absorbed no_redis_world (constant_scorer 640))
    as (Hset & Hbatch & _ & Hdown).
  split; [apply Hset; reflexivity |]. split.
  - rewrite (Hbatch (initial 0) calm_data eq_refl).
    + vm_compute. reflexivity.
    + vm_compute. reflexivity.
    + right. reflexivity.
  - apply (Hdown (initial 0)). intros n. reflexivity.
Defined.

(** * Further properties of the scorer *)

(** X1.  [_extract_features] always returns a row of 11 entries.  The row
    is the all-zero row of the [except] branch whenever its [try] block
    raises, and the block raises whenever the market capitalisation, the
    debt-to-equity ratio, the current ratio or the average volume is
    present and no number, whatever numpy does.  When the block
    completes, the four guarded fields are numbers and the other seven
    fields are in the row as they are, numbers or not. *)
Theorem extract_features_row :
  forall (self : CreditScorer) (financial_data news_data macro_data : Py.dict),
    let row := _extract_features self financial_data news_data macro_data in
    length row = 11%nat
    /\ (extract_features_try self financial_data news_data macro_data = Raises ->
        row = replicate 11 (FRaw (pfloat 0)))
    /\ (extraction_inputs_numeric financial_data = false ->
        row = replicate 11 (FRaw (pfloat 0)))
    /\ (forall features : list feature,
          extract_features_try self financial_data news_data macro_data
            = Returns features ->
          row = features
          /\ extraction_inputs_numeric financial_data = true
          /\ row !! 3%nat = Some (FRaw (Py.get financial_data "roe" (pfloat 0.1)))
          /\ row !! 4%nat
             = Some (FRaw (Py.get financial_data "price_change_30d" (pint 0)))
          /\ row !! 5%nat = Some (FRaw (Py.get financial_data "volatility" (pint 1)))
          /\ row !! 7%nat
             = Some (FRaw (Py.get news_data "sentiment_score" (pfloat 0.5)))
          /\ row !! 8%nat = Some (FRaw (Py.get news_data "news_count" (pint 0)))
          /\ row !! 9%nat = Some (FRaw (Py.get macro_data "vix" (pint 20)))
          /\ row !! 10%nat
             = Some (FRaw (Py.get macro_data "treasury_10y" (pint 4)))).
Proof.
  intros self financial_data news_data macro_data row. subst row.
  unfold _extract_features.
  destruct (extract_features_try self financial_data news_data macro_data)
    as [features |] eqn:E.
  - destruct (extract_features_returns _ _ _ _ _ E)
      as (m & de & cr & v & Hm & Hde & Hcr & Hv & -> & _).
    split; [reflexivity |]. split; [discriminate |]. split.
    + intros Hbad. rewrite (extract_features_guard self _ news_data macro_data Hbad) in E.
      discriminate.
    + intros features' [= <-]. split; [reflexivity |]. split.
      * unfold extraction_inputs_numeric. rewrite Hm, Hde, Hcr, Hv. reflexivity.
      * repeat split; reflexivity.
  - split; [reflexivity |]. split; [reflexivity |]. split; [reflexivity |].
    intros features H. discriminate.
Qed.

Lemma extract_features_row_witness :
  _extract_features (constant_scorer 640) text_cap_financial acme_news ∅
    = replicate 11 (FRaw (pfloat 0))
  /\ _extract_features (constant_scorer 640) null_roe_financial acme_news ∅ !! 3%nat
     = Some (FRaw Py.None_).
Proof.
  split.
  - apply (proj1 (proj2 (proj2
             (extract_features_row (constant_scorer 640) text_cap_financial
                acme_news ∅)))).
    reflexivity.
  - refine (proj1 (proj2 (proj2
             (proj2 (proj2 (proj2
                (extract_features_row (constant_scorer 640) null_roe_financial
                   acme_news ∅))) _ _)))).
    vm_compute. reflexivity.
Defined.



(** X3.  Whenever the model path of [calculate_score] produces the
    result, the keys of its contribution map are exactly the 11 feature
    names. *)
Theorem model_contributions_keys :
  forall (self : CreditScorer) (ticker : string)
         (financial_data news_data macro_data : Py.dict) (now : Time)
         (tiered : Py.num) (result : ScoreResult),
    score_model self ticker financial_data news_data macro_data now
      = Returns (tiered, result) ->
    dom (sr_contributions result) = list_to_set feature_names
    /\ size (sr_contributions result) = 11%nat.
Proof.
  intros self ticker financial_data news_data macro_data now tiered result H.
  destruct (score_model_contributions _ _ _ _ _ _ _ _ H) as [Hdom _].
  split; [exact Hdom |].
  rewrite <- size_dom, Hdom. reflexivity.
Qed.

Lemma model_contributions_keys_witness :
  exists tiered result,
    score_model (constant_scorer 640) "ACME" acme_financial acme_news ∅ 0
      = Returns (tiered, result)
    /\ dom (sr_contributions result) = list_to_set feature_names
    /\ size (sr_contributions result) = 11%nat.
Proof.
  destruct (score_model (constant_scorer 640) "ACME" acme_financial acme_news ∅ 0)
    as [[tiered result] |] eqn:E; [| vm_compute in E; discriminate].
  exists tiered, result. split; [reflexivity |].
  exact (model_contributions_keys _ _ _ _ _ _ _ _ E).
Defined.

(** X4.  A trained scorer whose importance vector has fewer than 11
    entries never answers from the model: the loop over the feature names
    raises an [IndexError] and [calculate_score] returns the fallback
    result for the requested entity. *)
Theorem short_importances_fall_back :
  forall (self : CreditScorer) (ticker : string)
         (financial_data news_data macro_data : Py.dict) (now : Time),
    is_trained self = true ->
    (length (feature_importances_ self) < 11)%nat ->
    calculate_score self ticker financial_data news_data macro_data now
      = _fallback_score financial_data news_data ticker now.
Proof.
  intros self ticker financial_data news_data macro_data now Htrained Hshort.
  unfold calculate_score, calculate_score_try. rewrite Htrained. cbn [negb].
  destruct (score_model self ticker financial_data news_data macro_data now)
    as [[tiered result] |] eqn:E; [| reflexivity].
  apply score_model_contributions in E as [_ Hlen]. lia.
Qed.

Lemma short_importances_fall_back_witness :
  calculate_score short_importance_scorer "ACME" acme_financial acme_news ∅ 0
    = _fallback_score acme_financial acme_news "ACME" 0.
Proof.
  apply short_importances_fall_back; [reflexivity | simpl; lia].
Defined.

(** X5.  The fallback score always lies between 100 and 750, so its
    clamp to [0, 1000] never changes it.  For numeric fields the fallback
    tier is "Low Risk" exactly when all three signals are favourable:
    debt-to-equity below 0.5, return on equity above 0.15 and sentiment
    above 0.6. *)
Theorem fallback_score_values :
  (forall (financial_data news_data : Py.dict) (ticker : string) (now : Time),
      exists z : Z,
        sr_score (_fallback_score financial_data news_data ticker now) = Py.Int z
        /\ 100 <= z <= 750)
  /\ (forall (financial_data news_data : Py.dict) (ticker : string) (now : Time)
             (debt_to_equity roe sentiment : Py.num),
        Py.get financial_data "debt_to_equity" (pint 1) = Py.Num debt_to_equity ->
        Py.get financial_data "roe" (pint 0) = Py.Num roe ->
        Py.get news_data "sentiment_score" (pfloat 0.5) = Py.Num sentiment ->
        (sr_risk_level (_fallback_score financial_data news_data ticker now)
           = "Low Risk"%string
         <-> (Py.val debt_to_equity < 0.5)%Q
             /\ (0.15 < Py.val roe)%Q
             /\ (0.6 < Py.val sentiment)%Q)).
Proof.
  split.
  - intros financial_data news_data ticker now. unfold _fallback_score.
    destruct (rule_inputs_numeric financial_data news_data) eqn:E.
    + destruct (rule_inputs_numeric_true _ _ E) as (d & r & s & Hd & Hr & Hs).
      rewrite (fallback_try_numeric _ _ _ _ _ Hd Hr Hs). cbn [sr_score].
      eexists. split; [reflexivity |]. apply fallback_reference_values.
    + rewrite (fallback_try_raises _ _ E). cbn [sr_score].
      exists 500. split; [reflexivity | lia].
  - intros financial_data news_data ticker now d r s Hd Hr Hs.
    unfold _fallback_score. rewrite (fallback_try_numeric _ _ _ _ _ Hd Hr Hs).
    cbn [sr_risk_level]. rewrite (risk_of_tier (Py.Int _)). cbn [Py.val].
    rewrite tier_low.
    destruct (fallback_reference_values (Py.val d) (Py.val r) (Py.val s))
      as [Hrange Hlow].
    rewrite <- Hlow. lia.
Qed.

Lemma fallback_score_values_witness :
  sr_risk_level (_fallback_score acme_financial acme_news "ACME" 0) = "Low Risk"%string
  <-> (0.3 < 0.5)%Q /\ (0.15 < 0.2)%Q /\ (0.6 < 0.8)%Q.
Proof.
  apply (proj2 fallback_score_values acme_financial acme_news "ACME"%string 0
           (Py.Float 0.3) (Py.Float 0.2) (Py.Float 0.8)); reflexivity.
Defined.

(** X6.  The fallback rules are monotone: for numeric fields, a record
    with no higher debt-to-equity, no lower return on equity and no lower
    sentiment never gets a lower fallback score. *)
Theorem fallback_score_monotone :
  forall (financial_data news_data financial_data' news_data' : Py.dict)
         (ticker : string) (now : Time) (d r s d' r' s' : Py.num),
    Py.get financial_data "debt_to_equity" (pint 1) = Py.Num d ->
    Py.get financial_data "roe" (pint 0) = Py.Num r ->
    Py.get news_data "sentiment_score" (pfloat 0.5) = Py.Num s ->
    Py.get financial_data' "debt_to_equity" (pint 1) = Py.Num d' ->
    Py.get financial_data' "roe" (pint 0) = Py.Num r' ->
    Py.get news_data' "sentiment_score" (pfloat 0.5) = Py.Num s' ->
    (Py.val d' <= Py.val d)%Q ->
    (Py.val r <= Py.val r')%Q ->
    (Py.val s <= Py.val s')%Q ->
    (Py.val (sr_score (_fallback_score financial_data news_data ticker now))
     <= Py.val (sr_score (_fallback_score financial_data' news_data' ticker now)))%Q.
Proof.
  intros financial_data news_data financial_data' news_data' ticker now
         d r s d' r' s' Hd Hr Hs Hd' Hr' Hs' Ld Lr Ls.
  unfold _fallback_score.
  rewrite (fallback_try_numeric _ _ _ _ _ Hd Hr Hs).
  rewrite (fallback_try_numeric _ _ _ _ _ Hd' Hr' Hs').
  cbn [sr_score Py.val]. rewrite <- Zle_Qle.
  apply fallback_reference_monotone; assumption.
Qed.

Lemma fallback_score_monotone_witness :
  (Py.val (sr_score (_fallback_score weak_financial weak_news "ACME" 0))
   <= Py.val (sr_score (_fallback_score acme_financial acme_news "ACME" 0)))%Q.
Proof.
  apply (fallback_score_monotone weak_financial weak_news acme_financial acme_news
           "ACME"%string 0
           (Py.Float 3.0) (Py.Float (-0.1)) (Py.Float 0.2)
           (Py.Float 0.3) (Py.Float 0.2) (Py.Float 0.8));
    try reflexivity; cbn [Py.val]; lra.
Defined.

(** X7.  In every result of [calculate_score] the colour goes with the
    tier: green with "Low Risk", yellow with "Medium Risk", red with
    "High Risk"; no other tier or colour occurs. *)
Theorem colour_matches_tier :
  forall (self : CreditScorer) (ticker : string)
         (financial_data news_data macro_data : Py.dict) (now : Time),
    let result := calculate_score self ticker financial_data news_data macro_data now in
    (sr_risk_level result, sr_color result) = ("Low Risk", "green")%string
    \/ (sr_risk_level result, sr_color result) = ("Medium Risk", "yellow")%string
    \/ (sr_risk_level result, sr_color result) = ("High Risk", "red")%string.
Proof.
  intros self ticker financial_data news_data macro_data now.
  unfold calculate_score, calculate_score_try.
  destruct (is_trained self); cbn [negb]; [| apply fallback_color].
  unfold obind.
  destruct (score_model self ticker financial_data news_data macro_data now)
    as [[tiered result] |] eqn:E; [| apply fallback_color].
  cbn [snd]. rewrite (score_model_color _ _ _ _ _ _ _ _ E). apply risk_of_pairs.
Qed.

(** * Further properties of the cache *)

(** X8.  Round trip with expiry.  After a [set_json] with a positive
    time-to-live that reached redis, a [get_json] of the same key that reaches redis [d] seconds later
    returns the stored document while [d] is below the time-to-live, and
    nothing from then on; a [get_json] that does not reach redis returns
    nothing. *)
Theorem json_round_trip :
  forall (w : World) (key : string) (value : document) (ttl d : Z) (st : State),
    redis_ok w (redis_ops st) = true ->
    0 < ttl ->
    0 <= d ->
    let stored := Cache.set_json w key value ttl st in
    let later := elapse d (snd stored) in
    fst stored = true
    /\ fst (Cache.get_json w key later)
       = if redis_ok w (redis_ops later)
         then (if d <? ttl then Some value else None)
         else None.
Proof.
  intros w key value ttl d st Hok Httl Hd. cbv zeta.
  rewrite set_json_spec, Hok. cbn [fst snd]. split; [reflexivity |].
  rewrite get_json_spec. cbn [fst].
  set (stored := set_redis (<[ ("json:" +:+ key)%string := (ttl, value) ]> (redis st)) st).
  assert (L : redis (elapse d stored) !! ("json:" +:+ key)%string
              = if d <? ttl then Some (ttl - d, value) else None).
  { apply elapse_lookup. subst stored. cbn [redis set_redis]. apply lookup_insert_eq. }
  rewrite L. destruct (redis_ok w (redis_ops (elapse d stored))); [| reflexivity].
  destruct (d <? ttl); reflexivity.
Qed.

Lemma json_round_trip_witness :
  fst (Cache.set_json calm_world "latest_scores" (DBatch empty_batch) 3600 (initial 0))
    = true
  /\ fst (Cache.get_json calm_world "latest_scores"
            (elapse 3599
               (snd (Cache.set_json calm_world "latest_scores" (DBatch empty_batch)
                       3600 (initial 0)))))
     = Some (DBatch empty_batch).
Proof.
  apply (json_round_trip calm_world "latest_scores" (DBatch empty_batch) 3600 3599
           (initial 0)); [reflexivity | lia | lia].
Defined.

(** X9.  [delete] reports whether the key was stored, and afterwards the
    key is gone while every other key is as before; when redis cannot be
    reached it reports [False] and removes nothing.  Since [delete] uses
    the key without the "json:" prefix, it never removes the document
    that [set_json] stored under the same key. *)
Theorem delete_behaviour :
  forall (w : World) (key : string) (st : State),
    (redis_ok w (redis_ops st) = true ->
     let out := Cache.delete w key st in
     fst out = bool_decide (is_Some (redis st !! key))
     /\ redis (snd out) !! key = None
     /\ (forall other, other <> key -> redis (snd out) !! other = redis st !! other))
    /\ (redis_ok w (redis_ops st) = false ->
        Cache.delete w key st = (false, set_redis (redis st) st))
    /\ (forall (value : document) (ttl : Z),
          redis_ok w (redis_ops st) = true ->
          redis_ok w (S (redis_ops st)) = true ->
          redis_ok w (S (S (redis_ops st))) = true ->
          0 < ttl ->
          let st1 := snd (Cache.set_json w key value ttl st) in
          let st2 := snd (Cache.delete w key st1) in
          fst (Cache.get_json w key st2) = Some value).
Proof.
  intros w key st. repeat apply conj.
  - intros Hok. cbv zeta. rewrite delete_spec, Hok. cbn [fst snd redis set_redis].
    split; [reflexivity |]. split.
    + apply lookup_delete_eq.
    + intros other Hne. apply lookup_delete_ne. congruence.
  - intros Hfail. rewrite delete_spec, Hfail. reflexivity.
  - intros value ttl H0 H1 H2 Httl. cbv zeta.
    rewrite set_json_spec, H0. cbn [snd].
    rewrite delete_spec. cbn [redis_ops set_redis]. rewrite H1. cbn [snd].
    rewrite get_json_spec. cbn [redis_ops set_redis redis]. rewrite H2. cbn [fst].
    rewrite lookup_delete_ne by (intros E; exact (json_key_differs key (eq_sym E))).
    rewrite lookup_insert_eq. reflexivity.
Qed.

Lemma delete_behaviour_witness :
  fst (Cache.get_json calm_world "latest_scores"
         (snd (Cache.delete calm_world "latest_scores"
                 (snd (Cache.set_json calm_world "latest_scores" (DBatch empty_batch)
                         3600 (initial 0))))))
    = Some (DBatch empty_batch).
Proof.
  apply (proj2 (proj2 (delete_behaviour calm_world "latest_scores" (initial 0))));
    [reflexivity | reflexivity | reflexivity | lia].
Defined.

(** X10.  Keys do not interfere: a [set_json] leaves what [get_json]
    returns for any other key unchanged, and of two writes to one key the
    later one is read back. *)
Theorem json_keys_independent :
  forall (w : World) (key other : string) (value value' : document)
         (ttl ttl' : Z) (st : State),
    (other <> key ->
     fst (Cache.get_json w other (snd (Cache.set_json w key value ttl st)))
       = if redis_ok w (S (redis_ops st))
         then snd <$> redis st !! ("json:" +:+ other)%string
         else None)
    /\ (redis_ok w (S (redis_ops st)) = true ->
        redis_ok w (S (S (redis_ops st))) = true ->
        0 < ttl' ->
        let st1 := snd (Cache.set_json w key value ttl st) in
        let st2 := snd (Cache.set_json w key value' ttl' st1) in
        fst (Cache.get_json w key st2) = Some value').
Proof.
  intros w key other value value' ttl ttl' st. split.
  - intros Hne. rewrite set_json_spec, get_json_spec.
    destruct (redis_ok w (redis_ops st)); cbn [fst snd redis_ops set_redis redis];
      destruct (redis_ok w (S (redis_ops st))); try reflexivity.
    rewrite lookup_insert_ne; [reflexivity |].
    intros E. apply json_key_inj in E. congruence.
  - intros H1 H2 Httl. cbv zeta. rewrite (set_json_spec w key value').
    assert (E : redis_ops (snd (Cache.set_json w key value ttl st)) = S (redis_ops st)).
    { rewrite set_json_spec. destruct (redis_ok w (redis_ops st)); reflexivity. }
    rewrite E, H1. cbn [snd]. rewrite get_json_spec.
    cbn [redis_ops set_redis redis]. rewrite E, H2. cbn [fst].
    rewrite lookup_insert_eq. reflexivity.
Qed.

Lemma json_keys_independent_witness :
  fst (Cache.get_json calm_world "history:ACME"
         (snd (Cache.set_json calm_world "latest_scores" (DBatch empty_batch) 3600
                 full_history_state)))
    = Some (DList (points 1 100)).
Proof.
  apply (proj1 (json_keys_independent calm_world "latest_scores" "history:ACME"
                  (DBatch empty_batch) DEmpty 3600 0 full_history_state)).
  discriminate.
Defined.

(** * Further properties of the ingestion *)

(** X11.  [ingest_all_data] sorts the gathered results by entity: for the
    [i]-th tracked entity the financial record is entry [2i] and the news
    record entry [2i+1] of the results, an entry that is an exception (or
    missing) leaving the entity without that record; the macro record is
    the last entry, or empty when that is an exception.  The financial
    dict has no key twice and only tracked entities as keys. *)
Theorem ingested_data_by_ticker :
  forall (results : list (outcome Py.dict)) (now : Time) (i : nat) (ticker : string),
    DataIngestion.tickers !! i = Some ticker ->
    let data := DataIngestion.assemble results now in
    oget ticker (financial data) = gathered_dict (results !! (i * 2)%nat)
    /\ news data !! ticker = gathered_dict (results !! (i * 2 + 1)%nat)
    /\ macro data = default ∅ (gathered_dict (last results))
    /\ timestamp data = now
    /\ NoDup (okeys (financial data))
    /\ (forall t, t ∈ okeys (financial data) -> t ∈ DataIngestion.tickers).
Proof.
  intros results now i ticker Hi data. subst data.
  rewrite assemble_financial, assemble_news, assemble_macro, assemble_timestamp.
  destruct (sort_results_at results DataIngestion.tickers 0 i [] ∅ ticker
              tickers_NoDup Hi eq_refl (lookup_empty _)) as [Hfin Hnews].
  destruct (sort_results_keys results DataIngestion.tickers 0 [] ∅) as [Hkeys Hnodup].
  repeat apply conj; try reflexivity.
  - exact Hfin.
  - exact Hnews.
  - apply Hnodup. apply NoDup_nil_2.
  - intros t Ht. apply Hkeys in Ht as [Ht | Ht]; [| exact Ht].
    apply elem_of_nil in Ht. contradiction.
Qed.

Lemma ingested_data_by_ticker_witness :
  oget "AAPL" (financial (DataIngestion.assemble mixed_gathered 0)) = Some ∅
  /\ oget "GOOGL" (financial (DataIngestion.assemble mixed_gathered 0))
     = Some acme_financial.
Proof.
  split.
  - apply (ingested_data_by_ticker mixed_gathered 0 0 "AAPL"). reflexivity.
  - apply (ingested_data_by_ticker mixed_gathered 0 1 "GOOGL"). reflexivity.
Defined.

(** * Further properties of the orchestrator *)

(** X12.  The completion timestamp is updated only on success: after a
    refresh that found the guard free, [last_update] is the time of the
    refresh when a batch was returned, and is what it was before when the
    refresh returned the empty dict. *)
Theorem last_update_only_on_success :
  forall (w : World) (credit_scorer : CreditScorer) (st : State),
    processing st = false ->
    let out := ProcessingService.process_all_scores w credit_scorer st in
    last_update (snd out) =
      match fst out with
      | DBatch _ => Some (clock st)
      | _ => last_update st
      end.
Proof. exact process_all_scores_last_update. Qed.

Lemma last_update_only_on_success_witness :
  last_update (snd (ProcessingService.process_all_scores silent_world
                      (constant_scorer 640) (initial 7))) = None
  /\ last_update (snd (ProcessingService.process_all_scores calm_world
                         (constant_scorer 640) (initial 7))) = Some 7.
Proof.
  split.
  - rewrite (last_update_only_on_success silent_world (constant_scorer 640) (initial 7)
               eq_refl).
    vm_compute. reflexivity.
  - rewrite (last_update_only_on_success calm_world (constant_scorer 640) (initial 7)
               eq_refl).
    vm_compute. reflexivity.
Defined.

(** X13.  With an untrained scorer every score is stored under the key
    "UNKNOWN": each result overwrites the previous one, and the batch of a
    refresh has at most one entry, however many entities were scored. *)
Theorem untrained_batch_collapses :
  forall (w : World) (credit_scorer : CreditScorer) (st : State) (b : ProcessedData),
    is_trained credit_scorer = false ->
    processing st = false ->
    fst (ProcessingService.process_all_scores w credit_scorer st) = DBatch b ->
    (forall ticker, ticker ∈ okeys (scores b) -> ticker = "UNKNOWN"%string)
    /\ (ticker_count b <= 1)%nat.
Proof.
  intros w credit_scorer st b Huntrained Hfree Hb.
  destruct (batch_entries w credit_scorer st b Hfree Hb)
    as (results & _ & _ & Hcount & _ & Hnodup & Hentry).
  assert (Hall : forall ticker, ticker ∈ okeys (scores b) -> ticker = "UNKNOWN"%string).
  { intros ticker Hin. unfold okeys in Hin.
    apply list_elem_of_fmap in Hin as ([k result] & Hk & Hin). cbn [fst] in Hk. subst k.
    destruct (Hentry _ _ Hin) as (Hticker & t & _ & _ & Hres).
    rewrite Hticker, Hres, calculate_score_ticker, Huntrained. reflexivity. }
  split; [exact Hall |].
  rewrite Hcount. replace (length (scores b)) with (length (okeys (scores b)))
    by (unfold okeys; apply length_fmap).
  exact (NoDup_constant _ _ Hnodup Hall).
Qed.

Lemma untrained_batch_collapses_witness :
  (forall ticker, ticker ∈ okeys (scores unknown_batch) -> ticker = "UNKNOWN"%string)
  /\ (ticker_count unknown_batch <= 1)%nat.
Proof.
  apply (untrained_batch_collapses calm_world untrained_scorer (initial 0) unknown_batch);
    reflexivity.
Defined.

(** X14.  With a trained scorer the keys of the batch are exactly the
    scoreable entities of the refresh, in the order of the ingested
    financial data: those with a non-empty financial record whose scoring
    task ran. *)
Theorem trained_batch_keys :
  forall (w : World) (credit_scorer : CreditScorer) (st : State) (b : ProcessedData)
         (results : list (outcome Py.dict)),
    is_trained credit_scorer = true ->
    processing st = false ->
    fst (ProcessingService.process_all_scores w credit_scorer st) = DBatch b ->
    gathered w st = Gathered results ->
    let data := DataIngestion.assemble results (clock st) in
    okeys (scores b)
      = select (scoreable w (ingest_runs st) data) (okeys (financial data)).
Proof.
  intros w credit_scorer st b results Htrained Hfree Hb Hsig data.
  destruct (batch_entries w credit_scorer st b Hfree Hb)
    as (results' & Hsig' & Hscores & _).
  rewrite Hsig in Hsig'. injection Hsig' as <-. fold data in Hscores.
  rewrite Hscores.
  assert (Htickers : ProcessingService.t_ticker <$> tasks_of data
            = select (λ k, negb (bool_decide (financial_record k data = ∅)))
                (okeys (financial data))).
  { unfold tasks_of, financial_record. apply make_tasks_tickers. }
  rewrite (collect_keys_trained w credit_scorer _ _ _ Htrained []).
  - cbn [okeys fmap list_fmap app]. rewrite Htickers, select_select. reflexivity.
  - rewrite Htickers. apply select_NoDup. apply assemble_keys_NoDup.
  - intros k Hk. apply elem_of_nil in Hk. contradiction.
Qed.

Lemma trained_batch_keys_witness :
  okeys (scores mixed_batch)
    = select (scoreable mixed_world 0 (DataIngestion.assemble mixed_gathered 0))
        (okeys (financial (DataIngestion.assemble mixed_gathered 0))).
Proof.
  apply (trained_batch_keys mixed_world (constant_scorer 640) (initial 0) mixed_batch
           mixed_gathered); vm_compute; reflexivity.
Defined.

(** X15.  With redis reachable and only history lists stored under the
    history keys, a refresh that returns a batch appends exactly one
    entry to the history of every entity of the batch, carrying the score
    and the tier of its result and the time of the refresh, keeps the
    last 100, and leaves the history of every other entity as it was. *)
Theorem refresh_appends_history :
  forall (w : World) (credit_scorer : CreditScorer) (st : State) (b : ProcessedData),
    (forall n, redis_ok w n = true) ->
    (forall ticker, is_Some (stored_history ticker st)) ->
    processing st = false ->
    fst (ProcessingService.process_all_scores w credit_scorer st) = DBatch b ->
    let st' := snd (ProcessingService.process_all_scores w credit_scorer st) in
    (forall ticker result history,
        (ticker, result) ∈ scores b ->
        stored_history ticker st = Some history ->
        stored_history ticker st'
          = Some (last_n 100 (history ++ [entry_of (clock st) result])))
    /\ (forall ticker,
          ticker ∉ okeys (scores b) ->
          stored_history ticker st' = stored_history ticker st).
Proof.
  intros w credit_scorer st b Hok Hwf Hfree Hb st'. subst st'.
  destruct (batch_entries w credit_scorer st b Hfree Hb)
    as (results & _ & _ & _ & _ & Hnodup & _).
  destruct (process_history w credit_scorer st b Hfree Hb) as (st_mid & Hmid & Hend).
  assert (Hwf_mid : forall t, is_Some (stored_history t st_mid)).
  { intros t. rewrite Hmid. apply Hwf. }
  destruct (store_loop_histories w (clock st) (scores b) Hok Hnodup st_mid Hwf_mid)
    as [Hin Hout].
  split.
  - intros ticker result history Hentry Hh. rewrite Hend.
    apply Hin; [exact Hentry |]. rewrite Hmid. exact Hh.
  - intros ticker Hnot. rewrite Hend, (Hout ticker Hnot). apply Hmid.
Qed.

Lemma refresh_appends_history_witness :
  stored_history "AAPL"
    (snd (ProcessingService.process_all_scores mixed_world (constant_scorer 640)
            (initial 0)))
  = stored_history "AAPL" (initial 0).
Proof.
  apply (proj2 (refresh_appends_history mixed_world (constant_scorer 640) (initial 0)
                  mixed_batch (fun n => eq_refl)
                  (fun ticker => ex_intro _ [] eq_refl) eq_refl eq_refl)).
  apply (bool_decide_unpack _). vm_compute. exact I.
Defined.

(** X16.  Expiry of the latest batch.  With redis reachable, a batch
    returned by a refresh is served from the cache by
    [get_latest_scores] for the 3600 seconds of its time-to-live, without
    a further ingestion; once 3600 seconds have passed the cache holds
    none and [get_latest_scores] runs a new refresh. *)
Theorem latest_batch_expires :
  forall (w : World) (credit_scorer : CreditScorer) (st : State) (b : ProcessedData)
         (d : Z),
    (forall n, redis_ok w n = true) ->
    processing st = false ->
    fst (ProcessingService.process_all_scores w credit_scorer st) = DBatch b ->
    0 <= d ->
    let st1 := elapse d (snd (ProcessingService.process_all_scores w credit_scorer st)) in
    let out := ProcessingService.get_latest_scores w credit_scorer st1 in
    if d <? 3600
    then fst out = DBatch b /\ ingest_runs (snd out) = ingest_runs st1
    else ingest_runs (snd out) = S (ingest_runs st1).
Proof.
  intros w credit_scorer st b d Hok Hfree Hb Hd st1 out.
  pose proof (refresh_persists w credit_scorer st b Hok Hfree Hb) as Hstored.
  destruct (process_all_scores_free w credit_scorer st Hfree) as (_ & Hflag & _).
  pose proof (elapse_lookup d _ _ _ _ Hstored) as Hlater. fold st1 in Hlater.
  subst out. unfold ProcessingService.get_latest_scores.
  rewrite get_json_spec, Hok.
  change ("json:" +:+ "latest_scores")%string with "json:latest_scores"%string.
  rewrite Hlater. destruct (d <? 3600).
  - cbn. auto.
  - cbn [fmap option_fmap option_map].
    assert (Hfree1 : processing (set_redis (redis st1) st1) = false) by exact Hflag.
    destruct (process_all_scores_free w credit_scorer _ Hfree1) as (_ & _ & Hruns & _).
    exact Hruns.
Qed.

Lemma latest_batch_expires_witness :
  ingest_runs
    (snd (ProcessingService.get_latest_scores calm_world (constant_scorer 640)
            (elapse 3600
               (snd (ProcessingService.process_all_scores calm_world
                       (constant_scorer 640) (initial 0))))))
  = S (ingest_runs
         (elapse 3600
            (snd (ProcessingService.process_all_scores calm_world
                    (constant_scorer 640) (initial 0))))).
Proof.
  apply (latest_batch_expires calm_world (constant_scorer 640) (initial 0) calm_batch
           3600 (fun n => eq_refl) eq_refl eq_refl).
  lia.
Defined.

(** X17.  [get_system_status] only reads: it reports the flag and the
    completion time of the service and leaves the service and the stored
    documents as they are.  It reports the cache as "empty" whenever
    redis cannot be reached.  After a refresh that returned a batch with
    redis reachable it reports no refresh in progress, the time of that
    refresh as last update, and the cache as "connected". *)
Theorem status_reports :
  forall (w : World) (credit_scorer : CreditScorer) (st : State),
    (let out := ProcessingService.get_system_status w st in
     ProcessingService.ss_processing (fst out) = processing st
     /\ ProcessingService.ss_last_update (fst out) = last_update st
     /\ same_service st (snd out)
     /\ redis (snd out) = redis st)
    /\ (redis_ok w (redis_ops st) = false ->
        ProcessingService.ss_cache_status (fst (ProcessingService.get_system_status w st))
          = "empty"%string)
    /\ (forall b : ProcessedData,
          (forall n, redis_ok w n = true) ->
          processing st = false ->
          fst (ProcessingService.process_all_scores w credit_scorer st) = DBatch b ->
          let status :=
            fst (ProcessingService.get_system_status w
                   (snd (ProcessingService.process_all_scores w credit_scorer st))) in
          ProcessingService.ss_processing status = false
          /\ ProcessingService.ss_last_update status = Some (clock st)
          /\ ProcessingService.ss_cache_status status = "connected"%string).
Proof.
  intros w credit_scorer st. split; [| split].
  - unfold ProcessingService.get_system_status. rewrite get_json_spec.
    cbn [fst snd]. split; [reflexivity |]. split; [reflexivity |].
    split; [apply set_redis_frame | reflexivity].
  - intros Hfail. unfold ProcessingService.get_system_status.
    rewrite get_json_spec, Hfail. reflexivity.
  - intros b Hok Hfree Hb. cbv zeta.
    pose proof (refresh_persists w credit_scorer st b Hok Hfree Hb) as Hstored.
    destruct (process_all_scores_free w credit_scorer st Hfree) as (_ & Hflag & _).
    pose proof (process_all_scores_last_update w credit_scorer st Hfree) as Hlast.
    cbv zeta in Hlast. rewrite Hb in Hlast.
    unfold ProcessingService.get_system_status. rewrite get_json_spec, Hok.
    change ("json:" +:+ "latest_scores")%string with "json:latest_scores"%string.
    rewrite Hstored. cbn. auto.
Qed.

Lemma status_reports_witness :
  ProcessingService.ss_cache_status
    (fst (ProcessingService.get_system_status no_redis_world (initial 0)))
  = "empty"%string.
Proof.
  apply (proj1 (proj2 (status_reports no_redis_world (constant_scorer 640) (initial 0)))).
  reflexivity.
Defined.

(** * Properties of the HTTP handlers *)

(** X18.  The handler of [/scores] never answers 404: the 404 it raises
    when no scores are available is caught by its own [except Exception]
    and answered as a 500.  It answers with the latest scores exactly
    when [get_latest_scores] returns a non-empty value. *)
Theorem scores_route_never_404 :
  forall (w : World) (credit_scorer : CreditScorer) (str_of : thrown -> string)
         (st : State),
    let latest := ProcessingService.get_latest_scores w credit_scorer st in
    let out := Routes.get_scores w credit_scorer str_of st in
    snd out = snd latest
    /\ (truthy (fst latest) = true -> fst out = Respond (fst latest))
    /\ (truthy (fst latest) = false ->
        fst out = Fail 500 (str_of (HTTPException 404 "No scores available")))
    /\ (forall detail, fst out <> Fail 404 detail).
Proof.
  intros w credit_scorer str_of st. cbv zeta. unfold Routes.get_scores.
  destruct (ProcessingService.get_latest_scores w credit_scorer st) as [scores st'].
  cbn [fst snd]. destruct (truthy scores); cbn [fst snd].
  - repeat split; try reflexivity; try discriminate.
  - repeat split; try reflexivity; try discriminate.
Qed.

Lemma scores_route_never_404_witness :
  fst (Routes.get_scores silent_world (constant_scorer 640) plain_str (initial 0))
    = Fail 500 "404: No scores available".
Proof.
  apply (scores_route_never_404 silent_world (constant_scorer 640) plain_str (initial 0)).
  vm_compute. reflexivity.
Defined.

(** X19.  The handler of [/scores/{ticker}] looks the entity up under the
    upper-cased ticker: it answers with the stored result when the batch
    has one, and with a 404 naming the ticker as it was given when the
    batch has none or no batch is available.  It answers 500 only when
    the value read from the cache is a list. *)
Theorem ticker_score_route :
  forall (w : World) (credit_scorer : CreditScorer) (upper : string -> string)
         (str_of : thrown -> string) (ticker : string) (st : State),
    let latest := fst (ProcessingService.get_latest_scores w credit_scorer st) in
    let out := fst (Routes.get_ticker_score w credit_scorer upper str_of ticker st) in
    (forall (b : ProcessedData) (result : ScoreResult),
        latest = DBatch b ->
        oget (upper ticker) (scores b) = Some result ->
        out = Respond result)
    /\ (forall b : ProcessedData,
          latest = DBatch b ->
          oget (upper ticker) (scores b) = None ->
          out = Fail 404 ("Ticker " +:+ ticker +:+ " not found"))
    /\ (latest = DEmpty -> out = Fail 404 ("Ticker " +:+ ticker +:+ " not found"))
    /\ (forall status_code detail,
          out = Fail status_code detail ->
          status_code = 404 \/ (status_code = 500 /\ exists h, latest = DList h)).
Proof.
  intros w credit_scorer upper str_of ticker st. cbv zeta.
  unfold Routes.get_ticker_score.
  destruct (ProcessingService.get_latest_scores w credit_scorer st) as [scores st'].
  cbn [fst snd]. repeat apply conj.
  - intros b result -> Hget. cbn [Routes.scores_field]. rewrite Hget. reflexivity.
  - intros b -> Hget. cbn [Routes.scores_field]. rewrite Hget. reflexivity.
  - intros ->. reflexivity.
  - intros status_code detail.
    destruct scores as [| d | b | h | r]; cbn [Routes.scores_field oget fst].
    + intros [= <- _]. auto.
    + intros [= <- _]. auto.
    + destruct (oget (upper ticker) (scores b)); cbn [fst]; [discriminate |].
      intros [= <- _]. auto.
    + intros [= <- _]. right. eauto.
    + intros [= <- _]. auto.
Qed.

Lemma ticker_score_route_witness :
  fst (Routes.get_ticker_score calm_world (constant_scorer 640) ascii_upper plain_str
         "aapl" cached_state)
    = Fail 404 "Ticker aapl not found".
Proof.
  apply (proj1 (proj2 (ticker_score_route calm_world (constant_scorer 640) ascii_upper
                         plain_str "aapl" cached_state)) mixed_batch);
    vm_compute; reflexivity.
Defined.

(** X20.  The handler of [/tickers] lists every entry of the latest
    batch exactly once, ordered by score from the highest to the lowest,
    entries with equal scores in the order of the batch; the count it
    reports is the number of entries. *)
Theorem ticker_list_sorted :
  forall (w : World) (credit_scorer : CreditScorer) (str_of : thrown -> string)
         (st : State) (ticker_scores : odict ScoreResult),
    Routes.scores_field (fst (ProcessingService.get_latest_scores w credit_scorer st))
      = Returns ticker_scores ->
    exists reply : TickerList,
      fst (Routes.get_available_tickers w credit_scorer str_of st) = Respond reply
      /\ tl_tickers reply ≡ₚ (Routes.summary_of <$> ticker_scores)
      /\ StronglySorted not_below (tl_tickers reply)
      /\ (forall q, with_score q (tl_tickers reply)
                    = with_score q (Routes.summary_of <$> ticker_scores))
      /\ tl_count reply = length ticker_scores.
Proof.
  intros w credit_scorer str_of st ticker_scores.
  unfold Routes.get_available_tickers.
  destruct (ProcessingService.get_latest_scores w credit_scorer st) as [scores st'].
  cbn [fst]. intros ->. eexists. split; [reflexivity |].
  cbn [tl_tickers tl_count]. unfold Routes.sort_by_score.
  destruct (sort_loop_spec (Routes.summary_of <$> ticker_scores) [])
    as [Hperm Hsorted]; [constructor |].
  repeat apply conj.
  - exact Hperm.
  - exact Hsorted.
  - intros q. apply (sort_loop_stable q _ []). constructor.
  - rewrite Hperm. cbn [app]. apply length_fmap.
Qed.

Lemma ticker_list_sorted_witness :
  exists reply : TickerList,
    fst (Routes.get_available_tickers calm_world (constant_scorer 640) plain_str
           cached_state) = Respond reply
    /\ tl_tickers reply ≡ₚ (Routes.summary_of <$> scores mixed_batch)
    /\ StronglySorted not_below (tl_tickers reply)
    /\ (forall q, with_score q (tl_tickers reply)
                  = with_score q (Routes.summary_of <$> scores mixed_batch))
    /\ tl_count reply = length (scores mixed_batch).
Proof.
  apply (ticker_list_sorted calm_world (constant_scorer 640) plain_str cached_state
           (scores mixed_batch)).
  vm_compute. reflexivity.
Defined.

(** X21.  The handler of [/analytics] answers "No data available"
    exactly when the latest batch has no entry.  Otherwise the total is
    the number of entries, the highest and the lowest score are scores of
    entries and bound every score of the batch, and the risk distribution
    maps each risk level to the number of entries that carry it, levels
    that do not occur being absent. *)
Theorem analytics_summary :
  forall (w : World) (credit_scorer : CreditScorer) (str_of : thrown -> string)
         (st : State) (ticker_scores : odict ScoreResult),
    Routes.scores_field (fst (ProcessingService.get_latest_scores w credit_scorer st))
      = Returns ticker_scores ->
    match fst (Routes.get_analytics w credit_scorer str_of st) with
    | Respond NoData => ticker_scores = []
    | Respond (Summary a) =>
        ticker_scores <> []
        /\ total_issuers a = length ticker_scores
        /\ (exists t r, (t, r) ∈ ticker_scores /\ highest_score a = sr_score r)
        /\ (exists t r, (t, r) ∈ ticker_scores /\ lowest_score a = sr_score r)
        /\ (forall t r, (t, r) ∈ ticker_scores ->
              (Py.val (lowest_score a) <= Py.val (sr_score r))%Q
              /\ (Py.val (sr_score r) <= Py.val (highest_score a))%Q)
        /\ (forall level,
              risk_distribution a !! level =
                let n := occurrences level
                           ((λ item, sr_risk_level item.2) <$> ticker_scores) in
                if (n =? 0)%nat then None else Some n)
    | Fail _ _ => False
    end.
Proof.
  intros w credit_scorer str_of st ticker_scores.
  unfold Routes.get_analytics.
  destruct (ProcessingService.get_latest_scores w credit_scorer st) as [scores st'].
  cbn [fst]. intros ->.
  destruct ticker_scores as [| [t0 r0] rest]; [reflexivity |].
  rewrite !fmap_cons. cbn [fst snd]. cbn [total_issuers highest_score lowest_score
                                          risk_distribution].
  set (others := (λ item : string * ScoreResult, sr_score item.2) <$> rest).
  destruct (py_max_spec others (sr_score r0)) as [Hmax_in Hmax].
  destruct (py_min_spec others (sr_score r0)) as [Hmin_in Hmin].
  assert (Hscore : forall x, x ∈ sr_score r0 :: others ->
            exists t r, (t, r) ∈ (t0, r0) :: rest /\ x = sr_score r).
  { intros x Hx. apply elem_of_cons in Hx as [-> | Hx].
    - exists t0, r0. split; [apply list_elem_of_here | reflexivity].
    - subst others. apply list_elem_of_fmap in Hx as ([t r] & -> & Hin).
      exists t, r. split; [apply list_elem_of_further, Hin | reflexivity]. }
  split; [discriminate |].
  split; [cbn [length]; subst others; rewrite length_fmap; reflexivity |].
  split; [apply Hscore, Hmax_in |].
  split; [apply Hscore, Hmin_in |].
  split.
  - intros t r H.
    assert (Hin : sr_score r ∈ sr_score r0 :: others).
    { apply elem_of_cons in H as [[= -> ->] | Hin]; [apply list_elem_of_here |].
      apply list_elem_of_further. subst others.
      apply (list_elem_of_fmap_2 (λ item : string * ScoreResult, sr_score item.2)
               _ _ Hin). }
    split; [apply Hmin | apply Hmax]; exact Hin.
  - intros level. unfold Routes.count_levels.
    rewrite (count_loop_spec _ level ∅). rewrite lookup_empty. cbn [default].
    cbv zeta. destruct (occurrences level _ =? 0)%nat; reflexivity.
Qed.

Lemma analytics_summary_witness :
  match fst (Routes.get_analytics calm_world (constant_scorer 640) plain_str
               cached_state) with
  | Respond (Summary a) => total_issuers a = length (scores mixed_batch)
  | _ => False
  end.
Proof.
  pose proof (analytics_summary calm_world (constant_scorer 640) plain_str cached_state
                (scores mixed_batch) eq_refl) as H.
  destruct (fst (Routes.get_analytics calm_world (constant_scorer 640) plain_str
                   cached_state)) as [[| a] | code detail].
  - vm_compute in H. discriminate.
  - exact (proj1 (proj2 H)).
  - exact H.
Defined.

(** X22.  The handler of [/history/{ticker}] always answers, with the
    upper-cased ticker, at most 50 history points and their number as
    count; for an entity without stored history it answers with an empty
    history and a count of 0. *)
Theorem history_route_answers :
  forall (w : World) (upper : string -> string) (ticker : string) (st : State),
    exists reply : HistoryReply,
      fst (Routes.get_ticker_history w upper ticker st) = Respond reply
      /\ hr_ticker reply = upper ticker
      /\ hr_count reply = length (hr_history reply)
      /\ (hr_count reply <= 50)%nat
      /\ (redis st !! ("json:history:" +:+ upper ticker)%string = None ->
          hr_history reply = [] /\ hr_count reply = 0%nat).
Proof.
  intros w upper ticker st. unfold Routes.get_ticker_history.
  destruct (get_ticker_history_spec w (upper ticker) st) as (Hlen & Hnone & _).
  destruct (ProcessingService.get_ticker_history w (upper ticker) st) as [history st'].
  cbn [fst] in *. eexists. split; [reflexivity |].
  cbn [hr_ticker hr_count hr_history]. repeat split; try assumption.
  - apply Hnone. assumption.
  - rewrite (Hnone H). reflexivity.
Qed.

(** X23.  The entity count of a batch never exceeds the number of
    tracked entities, which is 10. *)
Theorem batch_size_bounded :
  forall (w : World) (credit_scorer : CreditScorer) (st : State) (b : ProcessedData),
    processing st = false ->
    fst (ProcessingService.process_all_scores w credit_scorer st) = DBatch b ->
    (ticker_count b <= length DataIngestion.tickers)%nat
    /\ length DataIngestion.tickers = 10%nat.
Proof.
  intros w credit_scorer st b Hfree Hb. split; [| reflexivity].
  destruct (batch_entries w credit_scorer st b Hfree Hb)
    as (results & _ & _ & Hcount & _ & Hnodup & Hentry).
  rewrite Hcount. replace (length (scores b)) with (length (okeys (scores b)))
    by (unfold okeys; apply length_fmap).
  destruct (is_trained credit_scorer) eqn:Htrained.
  - apply submseteq_length, NoDup_submseteq; [exact Hnodup |].
    intros ticker Hin. unfold okeys in Hin.
    apply list_elem_of_fmap in Hin as ([k result] & Hk & Hin). cbn [fst] in Hk. subst k.
    destruct (Hentry _ _ Hin) as (Hticker & t & Ht & _ & Hres).
    rewrite Hticker, Hres, calculate_score_ticker, Htrained.
    apply make_tasks_elem in Ht as (Hkey & _).
    destruct (sort_results_keys results DataIngestion.tickers 0 [] ∅) as [Hkeys _].
    rewrite assemble_financial in Hkey. apply Hkeys in Hkey as [Hkey | Hkey];
      [apply elem_of_nil in Hkey; contradiction | exact Hkey].
  - assert (Hall : forall ticker, ticker ∈ okeys (scores b) -> ticker = "UNKNOWN"%string).
    { intros ticker Hin. unfold okeys in Hin.
      apply list_elem_of_fmap in Hin as ([k result] & Hk & Hin). cbn [fst] in Hk.
      subst k. destruct (Hentry _ _ Hin) as (Hticker & t & _ & _ & Hres).
      rewrite Hticker, Hres, calculate_score_ticker, Htrained. reflexivity. }
    pose proof (NoDup_constant _ _ Hnodup Hall) as H1.
    change (length DataIngestion.tickers) with 10%nat. lia.
Qed.

Lemma batch_size_bounded_witness :
  (ticker_count calm_batch <= length DataIngestion.tickers)%nat
  /\ length DataIngestion.tickers = 10%nat.
Proof.
  apply (batch_size_bounded calm_world (constant_scorer 640) (initial 0) calm_batch);
    reflexivity.
Defined.

Lemma history_route_answers_witness :
  exists reply : HistoryReply,
    fst (Routes.get_ticker_history calm_world ascii_upper "acme" (initial 0))
      = Respond reply
    /\ hr_history reply = [] /\ hr_count reply = 0%nat.
Proof.
  destruct (history_route_answers calm_world ascii_upper "acme" (initial 0))
    as (reply & Hreply & _ & _ & _ & Hnone).
  exists reply. split; [exact Hreply |]. apply Hnone. reflexivity.
Defined.

(** X24.  The ingestion leaves the attributes of the service as they
    are, and in redis it changes nothing but the records of its three
    fetchers and the entry "latest_data": the latest batch and the
    histories are as before. *)
Theorem ingestion_keeps_to_its_keys :
  forall (w : World) (n : nat) (st : State),
    let st' := snd (DataIngestion.ingest_all_data w n st) in
    same_service st st'
    /\ (forall key : string,
          ~ fetch_key key -> key <> "json:latest_data"%string ->
          redis st' !! key = redis st !! key)
    /\ redis st' !! "json:latest_scores"%string = redis st !! "json:latest_scores"%string
    /\ (forall ticker, stored_history ticker st' = stored_history ticker st).
Proof.
  intros w n st. cbv zeta. split; [| split; [| split]].
  - apply ingest_frame.
  - intros key Hkey Hne. apply ingest_lookup; assumption.
  - apply ingest_lookup; [apply latest_scores_no_fetch_key | discriminate].
  - intros ticker. apply ingest_stored_history.
Qed.

Lemma ingestion_keeps_to_its_keys_witness :
  redis (snd (DataIngestion.ingest_all_data calm_world 0 full_history_state))
    !! "json:history:ACME"%string
  = Some (86400, DList (points 1 100)).
Proof.
  rewrite (proj1 (proj2 (ingestion_keeps_to_its_keys calm_world 0 full_history_state))
             "json:history:ACME"%string).
  - reflexivity.
  - apply (history_no_fetch_key "ACME").
  - discriminate.
Defined.
